(** * TaggedText: the host component of pixi-tagged-text-plus

    A shallow embedding of [src/TaggedText.ts].  The class is a PIXI sprite
    that owns the text, the tag style table and the options, runs the
    parse / style / layout pipeline in [update] and turns the resulting
    token tree into display objects in [draw].

    JavaScript numbers are IEEE 754 binary64 values, so they are modelled
    by Rocq's primitive floats; strings are [string]s of bytes; objects used
    as dictionaries are insertion-ordered association lists; the methods of
    the class run in a small state-and-exception monad over the instance. *)

From Stdlib Require Import Bool List String Ascii ZArith NArith Lia Floats DecimalString.
Import ListNotations.

Local Open Scope list_scope.
Local Open Scope string_scope.

Set Implicit Arguments.
Set Warnings "-inexact-float".

(* ================================================================== *)
(** ** JavaScript built-ins used by the class *)
(* ================================================================== *)

Module JS.

(** A JavaScript number. *)
Definition number : Type := float.

(** [Number.isNaN]. *)
Definition Number_isNaN (x : number) : bool := is_nan x.

(** [a < b] on numbers (false as soon as one side is NaN). *)
Definition lt (a b : number) : bool := (a <? b)%float.

(** [a > b] on numbers. *)
Definition gt (a b : number) : bool := (b <? a)%float.

(** [a === b] on numbers: NaN differs from itself, +0 equals -0. *)
Definition strict_eq (a b : number) : bool := (a =? b)%float.

(** [Math.max(a, b)]: NaN when an argument is NaN, and -0 is below +0. *)
Definition Math_max (a b : number) : number :=
  if is_nan a || is_nan b then nan
  else if (a <? b)%float then b
  else if (b <? a)%float then a
  else if get_sign a then b else a.

(** [Math.min(a, b)]: NaN when an argument is NaN, and -0 is below +0. *)
Definition Math_min (a b : number) : number :=
  if is_nan a || is_nan b then nan
  else if (a <? b)%float then a
  else if (b <? a)%float then b
  else if get_sign a then a else b.

(** The number nearest to a natural number (round to nearest, ties to even). *)
Definition Number_of_N (n : N) : number :=
  SF2Prim (binary_normalize prec emax (Z.of_N n) 0 false).

(** *** Strings *)

Definition is_upper (c : ascii) : bool :=
  let n := nat_of_ascii c in (65 <=? n)%nat && (n <=? 90)%nat.

Definition is_lower (c : ascii) : bool :=
  let n := nat_of_ascii c in (97 <=? n)%nat && (n <=? 122)%nat.

Definition lower_char (c : ascii) : ascii :=
  if is_upper c then ascii_of_nat (nat_of_ascii c + 32) else c.

Definition upper_char (c : ascii) : ascii :=
  if is_lower c then ascii_of_nat (nat_of_ascii c - 32) else c.

Fixpoint map_string (f : ascii -> ascii) (s : string) : string :=
  match s with
  | EmptyString => EmptyString
  | String c r => String (f c) (map_string f r)
  end.

(** Whether every character of the string is an ASCII character. *)
Fixpoint is_ascii (s : string) : bool :=
  match s with
  | EmptyString => true
  | String c r => (nat_of_ascii c <? 128)%nat && is_ascii r
  end.

(** [String.prototype.toLowerCase].  In a string of ASCII characters the
    letters A to Z are replaced by a to z and nothing else changes.  Any
    other string goes through the case mapping of Unicode, which can change
    its length; that mapping, [unicode], is the engine's. *)
Definition toLowerCase (unicode : string -> string) (s : string) : string :=
  if is_ascii s then map_string lower_char s else unicode s.

(** [String.prototype.toUpperCase], in the same way. *)
Definition toUpperCase (unicode : string -> string) (s : string) : string :=
  if is_ascii s then map_string upper_char s else unicode s.

(** [s.indexOf(c) === 0] for a one-character needle. *)
Definition indexOf_is_0 (c : ascii) (s : string) : bool :=
  match s with
  | String d _ => Ascii.eqb c d
  | EmptyString => false
  end.

(** [s.substring(1)]. *)
Definition substring_1 (s : string) : string :=
  match s with
  | String _ r => r
  | EmptyString => EmptyString
  end.

(** [Array.prototype.join] on an array of strings. *)
Definition join (sep : string) (l : list string) : string := String.concat sep l.

(** [s.split(sep)] for a one-character separator: always at least one piece. *)
Fixpoint split (sep : ascii) (s : string) : list string :=
  match s with
  | EmptyString => [EmptyString]
  | String c r =>
      if Ascii.eqb c sep then EmptyString :: split sep r
      else match split sep r with
           | p :: ps => String c p :: ps
           | [] => [String c EmptyString]
           end
  end.

(** *** [Number.parseInt(s, 16)] *)

Definition hex_digit (c : ascii) : option N :=
  let n := N_of_ascii c in
  if (48 <=? n)%N && (n <=? 57)%N then Some (n - 48)%N
  else if (97 <=? n)%N && (n <=? 102)%N then Some (n - 87)%N
  else if (65 <=? n)%N && (n <=? 70)%N then Some (n - 55)%N
  else None.

(** The longest prefix of hexadecimal digits, most significant first. *)
Fixpoint hex_prefix (s : string) : list N :=
  match s with
  | EmptyString => []
  | String c r =>
      match hex_digit c with
      | Some d => d :: hex_prefix r
      | None => []
      end
  end.

Definition hex_value (ds : list N) : N :=
  fold_left (fun acc d => (16 * acc + d)%N) ds 0%N.

Definition is_white (c : ascii) : bool :=
  let n := nat_of_ascii c in
  (n =? 32)%nat || ((9 <=? n)%nat && (n <=? 13)%nat).

Fixpoint trim_start (s : string) : string :=
  match s with
  | String c r => if is_white c then trim_start r else s
  | EmptyString => EmptyString
  end.

Definition strip_sign (s : string) : bool * string :=
  match s with
  | String "-"%char r => (true, r)
  | String "+"%char r => (false, r)
  | _ => (false, s)
  end.

Definition strip_0x (s : string) : string :=
  match s with
  | String "0"%char (String "x"%char r) => r
  | String "0"%char (String "X"%char r) => r
  | _ => s
  end.

(** [Number.parseInt(s, 16)]: leading white space, an optional sign and an
    optional [0x] are skipped, then the longest run of hexadecimal digits is
    read; NaN when that run is empty. *)
Definition parseInt16 (s : string) : number :=
  let (neg, body) := strip_sign (trim_start s) in
  match hex_prefix (strip_0x body) with
  | [] => nan
  | ds => let v := Number_of_N (hex_value ds) in
          if neg then (- v)%float else v
  end.

End JS.


Abbreviation number := JS.number.

(* ================================================================== *)
(** ** Objects used as dictionaries *)
(* ================================================================== *)

(** A JavaScript object with string keys: its own properties in insertion
    order.  Writing an existing key keeps its place, a new key goes last.
    (Keys that are array indices, which the engine lists first and in
    ascending order, are not told apart.) *)
Definition Obj (V : Type) : Type := list (string * V).

Section Objects.
Variable V : Type.

Fixpoint obj_get (k : string) (o : Obj V) : option V :=
  match o with
  | [] => None
  | (k', v) :: r => if String.eqb k k' then Some v else obj_get k r
  end.

Fixpoint obj_set (k : string) (v : V) (o : Obj V) : Obj V :=
  match o with
  | [] => [(k, v)]
  | (k', v') :: r =>
      if String.eqb k k' then (k', v) :: r else (k', v') :: obj_set k v r
  end.

Fixpoint obj_delete (k : string) (o : Obj V) : Obj V :=
  match o with
  | [] => []
  | (k', v') :: r =>
      if String.eqb k k' then obj_delete k r else (k', v') :: obj_delete k r
  end.

(** [Object.hasOwn(o, k)]: [k] is one of the object's own properties. *)
Definition obj_has (k : string) (o : Obj V) : bool :=
  match obj_get k o with Some _ => true | None => false end.

(** The names every object literal inherits from [Object.prototype]. *)
Definition Object_prototype_names : list string :=
  ["constructor"; "__defineGetter__"; "__defineSetter__"; "hasOwnProperty";
   "__lookupGetter__"; "__lookupSetter__"; "isPrototypeOf";
   "propertyIsEnumerable"; "toString"; "valueOf"; "__proto__";
   "toLocaleString"].

(** [k in o] for an object literal: an own property or an inherited name. *)
Definition obj_in (k : string) (o : Obj V) : bool :=
  obj_has k o || existsb (String.eqb k) Object_prototype_names.

(** [Object.keys(o)] and [Object.entries(o)]. *)
Definition Object_keys (o : Obj V) : list string := map fst o.
Definition Object_entries (o : Obj V) : list (string * V) := o.

(** The spread [{ ...a, ...b }]. *)
Definition spread (a b : Obj V) : Obj V :=
  fold_left (fun acc kv => obj_set (fst kv) (snd kv) acc) b a.

End Objects.

(* ================================================================== *)
(** ** Data model ([./types]) *)
(* ================================================================== *)

(** A scalar property value. *)
Inductive JSValue : Type :=
| VUndefined
| VNull
| VBool (b : bool)
| VNumber (n : number)
| VString (s : string).

(** [fontSize] is a number or a string with a unit. *)
Inductive FontSize : Type :=
| FontSizeNumber (n : number)
| FontSizeString (s : string).

(** A style record.  The properties the class reads have a field of their
    declared type, [None] standing for a property that is absent or
    [undefined]; the remaining properties are kept in [others]. *)
Record TextStyleExtended : Type := mkStyle {
  textTransform : option string;
  align : option string;
  fontScaleWidth : option number;
  fontScaleHeight : option number;
  fontSize : option FontSize;
  imgSrc : option string;
  wordWrap : option bool;
  wordWrapWidth : option number;
  others : Obj JSValue
}.

(** The empty style [{}]. *)
Definition emptyStyle : TextStyleExtended :=
  mkStyle None None None None None None None None [].

Definition or_else (A : Type) (b a : option A) : option A :=
  match b with Some _ => b | None => a end.

(** The spread [{ ...a, ...b }] of two styles. *)
Definition spreadStyle (a b : TextStyleExtended) : TextStyleExtended :=
  {| textTransform := or_else (textTransform b) (textTransform a);
     align := or_else (align b) (align a);
     fontScaleWidth := or_else (fontScaleWidth b) (fontScaleWidth a);
     fontScaleHeight := or_else (fontScaleHeight b) (fontScaleHeight a);
     fontSize := or_else (fontSize b) (fontSize a);
     imgSrc := or_else (imgSrc b) (imgSrc a);
     wordWrap := or_else (wordWrap b) (wordWrap a);
     wordWrapWidth := or_else (wordWrapWidth b) (wordWrapWidth a);
     others := spread (others a) (others b) |}.

Definition set_align (v : option string) (st : TextStyleExtended) : TextStyleExtended :=
  {| textTransform := textTransform st; align := v;
     fontScaleWidth := fontScaleWidth st; fontScaleHeight := fontScaleHeight st;
     fontSize := fontSize st; imgSrc := imgSrc st; wordWrap := wordWrap st;
     wordWrapWidth := wordWrapWidth st; others := others st |}.

Definition set_fontSize (v : option FontSize) (st : TextStyleExtended) : TextStyleExtended :=
  {| textTransform := textTransform st; align := align st;
     fontScaleWidth := fontScaleWidth st; fontScaleHeight := fontScaleHeight st;
     fontSize := v; imgSrc := imgSrc st; wordWrap := wordWrap st;
     wordWrapWidth := wordWrapWidth st; others := others st |}.

Definition set_imgSrc (v : option string) (st : TextStyleExtended) : TextStyleExtended :=
  {| textTransform := textTransform st; align := align st;
     fontScaleWidth := fontScaleWidth st; fontScaleHeight := fontScaleHeight st;
     fontSize := fontSize st; imgSrc := v; wordWrap := wordWrap st;
     wordWrapWidth := wordWrapWidth st; others := others st |}.

(** Truthiness of an optional string: [undefined] and the empty string are falsy. *)
Definition truthy_string (v : option string) : bool :=
  match v with
  | Some EmptyString => false
  | Some _ => true
  | None => false
  end.

(** Truthiness of an optional boolean. *)
Definition truthy_bool (v : option bool) : bool :=
  match v with Some true => true | _ => false end.

(** [v === false]. *)
Definition is_false (v : option bool) : bool :=
  match v with Some false => true | _ => false end.

(** The style table: tag name to style. *)
Definition TextStyleSet : Type := Obj TextStyleExtended.

(** Modelled from the spec: [DEFAULT_KEY] is declared in [./types], which is
    not part of the sources; the spec reserves the tag name [default], the
    key the [defaultStyle] getter reads. *)
Definition DEFAULT_KEY : string := "default".

(** Modelled from the spec: [IMG_REFERENCE_PROPERTY] is declared in
    [./types]; it names the image-reference style key, the [imgSrc] field. *)
Definition IMG_REFERENCE_PROPERTY : string := "imgSrc".

Module Bounds.
Record t : Type := mk { x : number; y : number; width : number; height : number }.
End Bounds.

Module FontProperties.
Record t : Type := mk { ascent : number; descent : number; fontSize : number }.
End FontProperties.

(** A colour is a number or a string. *)
Inductive Color : Type :=
| ColorNumber (n : number)
| ColorString (s : string).

Record TextDecorationMetrics : Type := mkDecoration {
  td_bounds : Bounds.t;
  td_color : Color
}.

(** A PIXI sprite, known by its identity. *)
Definition Sprite : Type := nat.

(** The content of a segment: a string or a sprite. *)
Inductive TokenContent : Type :=
| TextContent (s : string)
| SpriteContent (sp : Sprite).

(** A segment token whose content has type [C]. *)
Record Token (C : Type) : Type := mkToken {
  content : C;
  tags : string;
  style : TextStyleExtended;
  bounds : Bounds.t;
  fontProperties : FontProperties.t;
  textDecorations : option (list TextDecorationMetrics)
}.

Definition SegmentToken : Type := Token TokenContent.
Definition TextSegmentToken : Type := Token string.
Definition WordToken : Type := list SegmentToken.
Definition LineToken : Type := list WordToken.
Definition ParagraphToken : Type := list LineToken.

Definition with_content (C D : Type) (c : D) (t : Token C) : Token D :=
  mkToken c (tags t) (style t) (bounds t) (fontProperties t) (textDecorations t).

(** The cast [t as TextSegmentToken], defined when the content is a string. *)
Definition asTextToken (t : SegmentToken) : option TextSegmentToken :=
  match content t with
  | TextContent s => Some (with_content s t)
  | SpriteContent _ => None
  end.

(** Modelled from the spec: the type guards [isTextToken] and [isSpriteToken]
    are declared in [./types]; a segment's content is a string or an image
    handle, and the guards tell the two apart. *)
Definition isTextToken (t : SegmentToken) : bool :=
  match content t with TextContent _ => true | SpriteContent _ => false end.

Definition isSpriteToken (t : SegmentToken) : bool :=
  match content t with TextContent _ => false | SpriteContent _ => true end.

(** What a sprite template is made from. *)
Inductive SpriteSource : Type :=
| SourceSprite (sp : Sprite)
| SourceOther (ref : string).

Definition ImageSourceMap : Type := Obj SpriteSource.
Definition ImageMap : Type := Obj Sprite.

Record TaggedTextOptions : Type := mkOptions {
  debug : option bool;
  debugConsole : option bool;
  splitStyle : option string;
  adjustFontBaseline : option bool;
  imgMap : option ImageSourceMap;
  scaleIcons : option bool;
  skipUpdates : option bool;
  skipDraw : option bool;
  drawWhitespace : option bool;
  wrapEmoji : option bool;
  overdrawDecorations : option number;
  supressConsole : option bool
}.

(** The spread [{ ...a, ...b }] of two option records. *)
Definition spreadOptions (a b : TaggedTextOptions) : TaggedTextOptions :=
  {| debug := or_else (debug b) (debug a);
     debugConsole := or_else (debugConsole b) (debugConsole a);
     splitStyle := or_else (splitStyle b) (splitStyle a);
     adjustFontBaseline := or_else (adjustFontBaseline b) (adjustFontBaseline a);
     imgMap := or_else (imgMap b) (imgMap a);
     scaleIcons := or_else (scaleIcons b) (scaleIcons a);
     skipUpdates := or_else (skipUpdates b) (skipUpdates a);
     skipDraw := or_else (skipDraw b) (skipDraw a);
     drawWhitespace := or_else (drawWhitespace b) (drawWhitespace a);
     wrapEmoji := or_else (wrapEmoji b) (wrapEmoji a);
     overdrawDecorations := or_else (overdrawDecorations b) (overdrawDecorations a);
     supressConsole := or_else (supressConsole b) (supressConsole a) |}.

(* ================================================================== *)
(** ** Display objects (the part of PIXI the class drives) *)
(* ================================================================== *)

(** A [PIXI.Graphics] holding one filled rectangle,
    [beginFill(color).drawRect(x, y, width, height).endFill()]: the colour
    and the rectangle the class hands to PIXI.  PIXI refuses a colour it
    cannot convert; that is PIXI's doing and not part of the record, so the
    properties of a drawing speak of the drawing when one is made. *)
Record Graphics : Type := mkGraphics {
  fillColor : Color;
  rect : Bounds.t
}.

(** A [PIXI.Text]: its text, its own style object, scale, position and the
    decorations added to it as children. *)
Record TextField : Type := mkTextField {
  tf_text : string;
  tf_style : TextStyleExtended;
  tf_scale : number * number;
  tf_x : number;
  tf_y : number;
  tf_children : list Graphics
}.

(** A reference to a display object: the [i]-th text field created by the
    current draw pass, or a sprite. *)
Inductive DisplayRef : Type :=
| RefTextField (i : nat)
| RefSprite (sp : Sprite).

(** What the debug overlay draws on its graphics object. *)
Inductive DebugCmd : Type :=
| GRect (x y w h : number)
| GStroke (width : number) (color : N) (alpha : number)
| GFill (paint : option (N * number)).

(** The children of the debug container. *)
Inductive DebugChild : Type :=
| DebugGraphicsChild
| InfoText (text : string) (x y : number).

(** The display side of the instance.  Sprites are shared objects, so their
    positions live in a store keyed by sprite. *)
Record Scene : Type := mkScene {
  _textFields : list TextField;
  _sprites : list Sprite;
  _decorations : list Graphics;
  _debugGraphics : list DebugCmd;
  _textContainer : option (list DisplayRef);
  _spriteContainer : option (list Sprite);
  _decorationContainer : option (list Graphics);
  _debugContainer : option (list DebugChild);
  spriteXY : list (Sprite * (number * number))
}.

(** A pass of the pipeline, recorded when it starts. *)
Inductive Pass : Type := UpdatePass | DrawPass.

(** An instance of the class.  [warnings] is what went to the warnings
    channel and [console] what went to [console.log], newest first;
    [passes] records the update and draw passes that ran, newest first. *)
Record TaggedText : Type := mkTaggedText {
  _options : TaggedTextOptions;
  _needsUpdate : bool;
  _needsDraw : bool;
  _tokens : ParagraphToken;
  _text : string;
  _tagStyles : TextStyleSet;
  _spriteTemplates : ImageMap;
  scene : Scene;
  warnings : list (string * string);
  console : list string;
  passes : list Pass
}.

Definition set_needsUpdate (v : bool) (s : TaggedText) : TaggedText :=
  mkTaggedText (_options s) v (_needsDraw s) (_tokens s) (_text s) (_tagStyles s)
    (_spriteTemplates s) (scene s) (warnings s) (console s) (passes s).

Definition set_needsDraw (v : bool) (s : TaggedText) : TaggedText :=
  mkTaggedText (_options s) (_needsUpdate s) v (_tokens s) (_text s) (_tagStyles s)
    (_spriteTemplates s) (scene s) (warnings s) (console s) (passes s).

Definition set_tokens (v : ParagraphToken) (s : TaggedText) : TaggedText :=
  mkTaggedText (_options s) (_needsUpdate s) (_needsDraw s) v (_text s) (_tagStyles s)
    (_spriteTemplates s) (scene s) (warnings s) (console s) (passes s).

Definition set_text (v : string) (s : TaggedText) : TaggedText :=
  mkTaggedText (_options s) (_needsUpdate s) (_needsDraw s) (_tokens s) v (_tagStyles s)
    (_spriteTemplates s) (scene s) (warnings s) (console s) (passes s).

Definition set_tagStyles (v : TextStyleSet) (s : TaggedText) : TaggedText :=
  mkTaggedText (_options s) (_needsUpdate s) (_needsDraw s) (_tokens s) (_text s) v
    (_spriteTemplates s) (scene s) (warnings s) (console s) (passes s).

Definition set_spriteTemplates (v : ImageMap) (s : TaggedText) : TaggedText :=
  mkTaggedText (_options s) (_needsUpdate s) (_needsDraw s) (_tokens s) (_text s)
    (_tagStyles s) v (scene s) (warnings s) (console s) (passes s).

Definition set_scene (v : Scene) (s : TaggedText) : TaggedText :=
  mkTaggedText (_options s) (_needsUpdate s) (_needsDraw s) (_tokens s) (_text s)
    (_tagStyles s) (_spriteTemplates s) v (warnings s) (console s) (passes s).

Definition set_warnings (v : list (string * string)) (s : TaggedText) : TaggedText :=
  mkTaggedText (_options s) (_needsUpdate s) (_needsDraw s) (_tokens s) (_text s)
    (_tagStyles s) (_spriteTemplates s) (scene s) v (console s) (passes s).

Definition set_console (v : list string) (s : TaggedText) : TaggedText :=
  mkTaggedText (_options s) (_needsUpdate s) (_needsDraw s) (_tokens s) (_text s)
    (_tagStyles s) (_spriteTemplates s) (scene s) (warnings s) v (passes s).

Definition set_passes (v : list Pass) (s : TaggedText) : TaggedText :=
  mkTaggedText (_options s) (_needsUpdate s) (_needsDraw s) (_tokens s) (_text s)
    (_tagStyles s) (_spriteTemplates s) (scene s) (warnings s) (console s) v.

(* ================================================================== *)
(** ** Methods run in a state-and-exception monad *)
(* ================================================================== *)

(** A thrown JavaScript error. *)
Inductive JSError : Type :=
| Error (message : string)
| TypeError (message : string).

(** How a method call ends: it returns a value or throws, and leaves the
    instance in some state either way. *)
Inductive Outcome (A : Type) : Type :=
| Returned (a : A) (s : TaggedText)
| Thrown (e : JSError) (s : TaggedText).

Arguments Thrown {A} e s.

Definition M (A : Type) : Type := TaggedText -> Outcome A.

Definition ret (A : Type) (a : A) : M A := fun s => Returned a s.

Definition bind (A B : Type) (m : M A) (k : A -> M B) : M B :=
  fun s =>
    match m s with
    | Returned a s' => k a s'
    | Thrown e s' => Thrown e s'
    end.

Definition throw (A : Type) (e : JSError) : M A := fun s => Thrown e s.

Arguments throw {A} e.

Definition get : M TaggedText := fun s => Returned s s.

Definition modify (f : TaggedText -> TaggedText) : M unit :=
  fun s => Returned tt (f s).

Declare Scope js_scope.
Delimit Scope js_scope with js.

Notation "x <- m ;; k" := (bind m (fun x => k))
  (at level 61, m at next level, right associativity) : js_scope.
Notation "m ;; k" := (bind m (fun _ => k))
  (at level 61, right associativity) : js_scope.

Local Open Scope js_scope.

(** [when c m]: the statement [if (c) m]. *)
Definition when (c : bool) (m : M unit) : M unit :=
  if c then m else ret tt.

(** [l.forEach(f)] with the variables the callback updates threaded as [acc]. *)
Fixpoint forEach (A B : Type) (f : A -> B -> M B) (l : list A) (acc : B) : M B :=
  match l with
  | [] => ret acc
  | a :: r => acc' <- f a acc ;; forEach f r acc'
  end.

(** The final state of an outcome. *)
Definition final (A : Type) (o : Outcome A) : TaggedText :=
  match o with
  | Returned _ s => s
  | Thrown _ s => s
  end.

(** The state and the result of running a method. *)
Definition returned (A : Type) (o : Outcome A) : bool :=
  match o with
  | Returned _ _ => true
  | Thrown _ _ => false
  end.

(* ================================================================== *)
(** ** What the class imports *)
(* ================================================================== *)

(** The functions and constants [TaggedText.ts] takes from its sibling
    modules, from the JavaScript engine and from PIXI.  Their code is not
    part of this file; the class is verified for every choice of them. *)
Record Imports : Type := mkImports {
  (* ./tags *)
  TagTokens : Type;
  parseTagsNew : string -> list string -> option bool ->
                 TagTokens * list (string * string);
  removeTags : string -> string;
  EMOJI_TAG : string;
  (* ./style *)
  StyledTokens : Type;
  combineAllStyles : list (option TextStyleExtended) -> TextStyleExtended;
  convertUnsupportedAlignment : option string -> option string;
  getStyleForTagExt : string -> TextStyleSet -> Obj string -> option TextStyleExtended;
  mapTagsToStyles : TagTokens -> TextStyleSet -> option ImageMap -> StyledTokens;
  (* ./layout *)
  calculateTokens : StyledTokens -> option string -> option bool -> option bool ->
                    ParagraphToken;
  getBoundsNested : LineToken -> Bounds.t;
  (* ./stringUtil and ./pixiUtils *)
  capitalize : string -> string;
  fontSizeStringToNumber : string -> number;
  (* ./types *)
  isNewlineToken : SegmentToken -> bool;
  isWhitespaceToken : SegmentToken -> bool;
  isNotWhitespaceToken : SegmentToken -> bool;
  isSpriteSource : SpriteSource -> bool;
  isTextureSource : SpriteSource -> bool;
  (* ./defaultStyle and ./defaultOptions *)
  DEFAULT_STYLE : TextStyleExtended;
  DEFAULT_OPTIONS : TaggedTextOptions;
  (* the engine: a number in a template literal, the entries of a style
     object with each value as [Array.prototype.join] prints it, and the
     case mappings of Unicode on strings that hold more than ASCII *)
  Number_toString : number -> string;
  Object_entries_style : TextStyleExtended -> list (string * string);
  Unicode_toLowerCase : string -> string;
  Unicode_toUpperCase : string -> string;
  (* PIXI: the font size a new [PIXI.Text] holds in its style when it is
     made with a style of the given font size (PIXI fills in its own default
     and reads a string size as a number), and the sprites *)
  PIXI_Text_fontSize : option FontSize -> option FontSize;
  PIXI_new_Sprite : Sprite;
  PIXI_Sprite_from : SpriteSource -> JSError + Sprite;
  PIXI_Sprite_from_Texture : SpriteSource -> JSError + Sprite;
  source_baseTexture_null : SpriteSource -> bool;
  sprite_unusable : Sprite -> bool;
  PIXI_width : Scene -> number
}.

(** The line feed character as a string. *)
Definition LF : string := String (ascii_of_nat 10) EmptyString.

(** A natural number in decimal, as a template literal prints an index. *)
Definition nat_to_string (n : nat) : string :=
  NilEmpty.string_of_uint (Nat.to_uint n).

(** [l.map((a, i) => f(a, i))]. *)
Fixpoint mapi_from (A B : Type) (f : A -> nat -> B) (i : nat) (l : list A) : list B :=
  match l with
  | [] => []
  | a :: r => f a i :: mapi_from f (S i) r
  end.

Definition mapi (A B : Type) (f : A -> nat -> B) (l : list A) : list B :=
  mapi_from f 0 l.

(** [l[i] = f(l[i])] for an index in range. *)
Fixpoint update_nth (A : Type) (i : nat) (f : A -> A) (l : list A) : list A :=
  match l, i with
  | [], _ => []
  | a :: r, O => f a :: r
  | a :: r, S j => a :: update_nth j f r
  end.

Definition set_tf_position (px py : number) (t : TextField) : TextField :=
  mkTextField (tf_text t) (tf_style t) (tf_scale t) px py (tf_children t).

Definition add_tf_child (g : Graphics) (t : TextField) : TextField :=
  mkTextField (tf_text t) (tf_style t) (tf_scale t) (tf_x t) (tf_y t)
    (tf_children t ++ [g]).

Fixpoint set_spriteXY (sp : Sprite) (p : number * number)
    (l : list (Sprite * (number * number))) : list (Sprite * (number * number)) :=
  match l with
  | [] => [(sp, p)]
  | (sp', p') :: r =>
      if Nat.eqb sp sp' then (sp', p) :: r else (sp', p') :: set_spriteXY sp p r
  end.

(* Colours of the debug overlay. *)
Module DEBUG.
Definition WORD_FILL_COLOR : N := 15658734.
Definition WHITESPACE_COLOR : N := 13421772.
Definition WHITESPACE_STROKE_COLOR : N := 11184810.
Definition BASELINE_COLOR : N := 16777113.
Definition LINE_COLOR : N := 16776960.
End DEBUG.

Definition set_textFields (v : list TextField) (c : Scene) : Scene :=
  mkScene v (_sprites c) (_decorations c) (_debugGraphics c) (_textContainer c)
    (_spriteContainer c) (_decorationContainer c) (_debugContainer c) (spriteXY c).

Definition set_sprites (v : list Sprite) (c : Scene) : Scene :=
  mkScene (_textFields c) v (_decorations c) (_debugGraphics c) (_textContainer c)
    (_spriteContainer c) (_decorationContainer c) (_debugContainer c) (spriteXY c).

Definition set_decorations (v : list Graphics) (c : Scene) : Scene :=
  mkScene (_textFields c) (_sprites c) v (_debugGraphics c) (_textContainer c)
    (_spriteContainer c) (_decorationContainer c) (_debugContainer c) (spriteXY c).

Definition set_debugGraphics (v : list DebugCmd) (c : Scene) : Scene :=
  mkScene (_textFields c) (_sprites c) (_decorations c) v (_textContainer c)
    (_spriteContainer c) (_decorationContainer c) (_debugContainer c) (spriteXY c).

Definition set_textContainer (v : option (list DisplayRef)) (c : Scene) : Scene :=
  mkScene (_textFields c) (_sprites c) (_decorations c) (_debugGraphics c) v
    (_spriteContainer c) (_decorationContainer c) (_debugContainer c) (spriteXY c).

Definition set_spriteContainer (v : option (list Sprite)) (c : Scene) : Scene :=
  mkScene (_textFields c) (_sprites c) (_decorations c) (_debugGraphics c)
    (_textContainer c) v (_decorationContainer c) (_debugContainer c) (spriteXY c).

Definition set_debugContainer (v : option (list DebugChild)) (c : Scene) : Scene :=
  mkScene (_textFields c) (_sprites c) (_decorations c) (_debugGraphics c)
    (_textContainer c) (_spriteContainer c) (_decorationContainer c) v (spriteXY c).

Definition set_spriteXYs (v : list (Sprite * (number * number))) (c : Scene) : Scene :=
  mkScene (_textFields c) (_sprites c) (_decorations c) (_debugGraphics c)
    (_textContainer c) (_spriteContainer c) (_decorationContainer c)
    (_debugContainer c) v.

Definition set_tf_scale (v : number * number) (t : TextField) : TextField :=
  mkTextField (tf_text t) (tf_style t) v (tf_x t) (tf_y t) (tf_children t).

Definition set_tf_style (v : TextStyleExtended) (t : TextField) : TextField :=
  mkTextField (tf_text t) v (tf_scale t) (tf_x t) (tf_y t) (tf_children t).

(** The double quote as a string. *)
Definition DQ : string := String (ascii_of_nat 34) EmptyString.

(** The option record [{}]. *)
Definition emptyOptions : TaggedTextOptions :=
  mkOptions None None None None None None None None None None None None.

(** The clamp applied to both scale factors:
    [Number.isNaN(v) || v < 0 ? 0 : v]. *)
Definition clampScale (v : number) : number :=
  if JS.Number_isNaN v || JS.lt v 0%float then 0%float else v.

(* ================================================================== *)
(** ** The class *)
(* ================================================================== *)

Section Methods.

Variable I : Imports.

(** Modelled from the spec: [logWarning] hands the pair to [./errorMessaging],
    which is not part of the sources; the spec's warnings channel is a sink
    that receives [(code, message)] pairs and never throws. *)
Definition logWarning (code message : string) : M unit :=
  modify (fun s => set_warnings ((code, message) :: warnings s) s).

Definition console_log (line : string) : M unit :=
  modify (fun s => set_console (line :: console s) s).

Definition record_pass (p : Pass) : M unit :=
  modify (fun s => set_passes (p :: passes s) s).

(** [this._tokens.flat(3)]. *)
Definition tokensFlat (s : TaggedText) : list SegmentToken :=
  List.concat (List.concat (_tokens s)).

Definition untaggedText (s : TaggedText) : string := removeTags I (_text s).

(** [this.tagStyles?.default]. *)
Definition defaultStyle (s : TaggedText) : option TextStyleExtended :=
  obj_get "default" (_tagStyles s).

Definition getStyleForTag (tag : string) (attributes : Obj string) (s : TaggedText)
  : option TextStyleExtended :=
  getStyleForTagExt I tag (_tagStyles s) attributes.

Definition getStyleForTags (tags : list (string * Obj string)) (s : TaggedText)
  : TextStyleExtended :=
  combineAllStyles I (map (fun t => getStyleForTag (fst t) (snd t) s) tags).

Definition modify_scene (f : Scene -> Scene) : M unit :=
  modify (fun s => set_scene (f (scene s)) s).

Definition resetChildren : M unit :=
  modify_scene (fun c =>
    mkScene [] [] [] (_debugGraphics c) (Some []) (Some []) (Some []) (Some [])
      (spriteXY c)).

(* ------------------------------------------------------------------ *)
(** *** Display objects for one token *)

Definition INVALID_COLOR_WARNING : string * string :=
  ("invalid-color",
   "Sorry, at this point, only hex colors are supported for textDecorations like underlines. Please use either a hex number like 0x66FF33 or a string like '#66FF33'").

Definition createDrawingForTextDecoration (textDecoration : TextDecorationMetrics)
  : M Graphics :=
  s <- get ;;
  let overdraw :=
    match overdrawDecorations (_options s) with Some v => v | None => 0%float end in
  let bounds := td_bounds textDecoration in
  color <- match td_color textDecoration with
           | ColorString c =>
               if JS.indexOf_is_0 "#" c
               then ret (ColorNumber (JS.parseInt16 ("0x" ++ JS.substring_1 c)))
               else logWarning (fst INVALID_COLOR_WARNING) (snd INVALID_COLOR_WARNING) ;;
                    ret (ColorString c)
           | ColorNumber n => ret (ColorNumber n)
           end ;;
  let y := Bounds.y bounds in
  let height := Bounds.height bounds in
  let midpoint := (Bounds.x bounds + Bounds.width bounds / 2)%float in
  let x := JS.Math_min (Bounds.x bounds - overdraw)%float midpoint in
  let width := JS.Math_max (Bounds.width bounds + overdraw * 2)%float 0%float in
  ret (mkGraphics color (Bounds.mk x y width height)).

(** [text.toLowerCase()] and [text.toUpperCase()]. *)
Definition toLowerCase (text : string) : string :=
  JS.toLowerCase (Unicode_toLowerCase I) text.

Definition toUpperCase (text : string) : string :=
  JS.toUpperCase (Unicode_toUpperCase I) text.

(** [new PIXI.Text({ text, style })]: the text object has the text it is
    given, scale 1, position 0 and no children.  PIXI builds the style
    object of the text from the given one; of that object the model keeps
    the font size PIXI holds and, for the other properties, the given
    values. *)
Definition createTextField (text : string) (style : TextStyleExtended) : M TextField :=
  ret (mkTextField text
         (set_fontSize (PIXI_Text_fontSize I (fontSize style)) style)
         (1%float, 1%float) 0%float 0%float []).

Definition createTextFieldForToken (token : TextSegmentToken) : M TextField :=
  let textTransform :=
    match textTransform (style token) with Some v => v | None => "" end in
  let text := content token in
  let text :=
    let selector := toLowerCase textTransform in
    if String.eqb selector "lowercase" then toLowerCase text
    else if String.eqb selector "uppercase" then toUpperCase text
    else if String.eqb selector "capitalize" then capitalize I text
    else text in
  let alignClassic := convertUnsupportedAlignment I (align (style token)) in
  let sanitizedStyle := set_align alignClassic (style token) in
  textField <- createTextField text sanitizedStyle ;;
  let fontScaleWidth :=
    match fontScaleWidth (style token) with Some v => v | None => 1%float end in
  let fontScaleHeight :=
    match fontScaleHeight (style token) with Some v => v | None => 1%float end in
  let fontScaleWidth := clampScale fontScaleWidth in
  let fontScaleHeight := clampScale fontScaleHeight in
  let largerScale := JS.Math_max fontScaleWidth fontScaleHeight in
  let '(finalScaleWidth, finalScaleHeight, textField) :=
    if JS.gt largerScale 1%float then
      let '(w, h) :=
        if JS.strict_eq largerScale fontScaleHeight
        then ((fontScaleWidth / largerScale)%float, 1%float)
        else (1%float, (fontScaleHeight / largerScale)%float) in
      let fs :=
        match fontSize (tf_style textField) with
        | Some v => v
        | None => FontSizeNumber 0%float
        end in
      let fontSizePx :=
        ((match fs with
          | FontSizeString str => fontSizeStringToNumber I str
          | FontSizeNumber n => n
          end) * largerScale)%float in
      (w, h,
       set_tf_style
         (set_fontSize (Some (FontSizeNumber fontSizePx)) (tf_style textField))
         textField)
    else (fontScaleWidth, fontScaleHeight, textField) in
  ret (set_tf_scale (finalScaleWidth, finalScaleHeight) textField).

(* ------------------------------------------------------------------ *)
(** *** The debug overlay *)

(** [container.addChild(child)] on the debug container; a null container
    has no [addChild]. *)
Definition addDebugChild (child : DebugChild) : M unit :=
  s <- get ;;
  match _debugContainer (scene s) with
  | Some l => modify_scene (set_debugContainer (Some (l ++ [child])%list))
  | None => throw (TypeError "Cannot read properties of null (reading 'addChild')")
  end.

(** Calls on the debug graphics object [g]. *)
Definition gdraw (cmds : list DebugCmd) : M unit :=
  modify_scene (fun c => set_debugGraphics (_debugGraphics c ++ cmds) c).

Definition drawDebugSegment (segmentToken : SegmentToken) : M unit :=
  let isSprite := isSpriteToken segmentToken in
  let x := Bounds.x (bounds segmentToken) in
  let y := Bounds.y (bounds segmentToken) in
  let width := Bounds.width (bounds segmentToken) in
  let baseline :=
    (y + (if isSprite then Bounds.height (bounds segmentToken)
          else FontProperties.ascent (fontProperties segmentToken)))%float in
  let height :=
    if isSprite
    then (Bounds.height (bounds segmentToken)
          + FontProperties.descent (fontProperties segmentToken))%float
    else Bounds.height (bounds segmentToken) in
  s <- get ;;
  (if isWhitespaceToken I segmentToken && is_false (drawWhitespace (_options s))
   then gdraw [GStroke 1%float DEBUG.WHITESPACE_STROKE_COLOR 1%float;
               GFill (Some (DEBUG.WHITESPACE_COLOR, 0.2%float))]
   else gdraw [GStroke 1%float DEBUG.WHITESPACE_STROKE_COLOR 1%float;
               GFill (Some (DEBUG.WORD_FILL_COLOR, 0.2%float))]) ;;
  (if isNewlineToken I segmentToken
   then addDebugChild (InfoText "↩︎" (x + 1)%float (y + 10 + 1)%float)
   else gdraw [GRect x y width height;
               GStroke 0.5%float DEBUG.LINE_COLOR 0.2%float;
               GFill None; GRect x baseline width 1%float;
               GStroke 1%float DEBUG.BASELINE_COLOR 1%float]) ;;
  when (isTextToken segmentToken)
       (addDebugChild (InfoText (tags segmentToken) (x + 1)%float (y + 1)%float)).

Definition drawDebugLine (line : LineToken) : M unit :=
  let lineBounds := getBoundsNested I line in
  s <- get ;;
  match defaultStyle s with
  | None =>
      throw (TypeError "Cannot read properties of undefined (reading 'wordWrap')")
  | Some d =>
      when (truthy_bool (wordWrap d))
           (let w := match wordWrapWidth d with
                     | Some w => w
                     | None => PIXI_width I (scene s)
                     end in
            gdraw [GRect 0%float (Bounds.y lineBounds) w (Bounds.height lineBounds);
                   GStroke 0.5%float DEBUG.LINE_COLOR 0.2%float])
  end ;;
  forEach (fun word _ => forEach (fun seg _ => drawDebugSegment seg) word tt) line tt.

Definition drawDebug : M unit :=
  s <- get ;;
  let paragraph := _tokens s in
  modify_scene (set_debugGraphics []) ;;
  match _debugContainer (scene s) with
  | None =>
      throw (Error "Somehow the debug container is null. This shouldn't be possible. Perhaps you've destroyed this object?")
  | Some _ => ret tt
  end ;;
  addDebugChild DebugGraphicsChild ;;
  forEach (fun line _ => drawDebugLine line) paragraph tt.

(* ------------------------------------------------------------------ *)
(** *** Drawing *)

(** [textContainer.addChild(f); this.textFields.push(f)]: the index of the
    new text field is its reference. *)
Definition addTextField (f : TextField) : M nat :=
  s <- get ;;
  let i := List.length (_textFields (scene s)) in
  match _textContainer (scene s) with
  | Some l =>
      modify_scene (fun c =>
        set_textFields (_textFields c ++ [f])
          (set_textContainer (Some (l ++ [RefTextField i])%list) c)) ;;
      ret i
  | None => throw (TypeError "Cannot read properties of null (reading 'addChild')")
  end.

(** [displayObject.addChild(drawing); this._decorations.push(drawing)]. *)
Definition addDecoration (i : nat) (drawing : Graphics) : M unit :=
  modify_scene (fun c =>
    set_decorations (_decorations c ++ [drawing])
      (set_textFields (update_nth i (add_tf_child drawing) (_textFields c)) c)).

(** [container.addChild(sp)] on the children of a container of sprites: the
    sprite becomes the last child; a container that holds it already does
    not hold it twice, the sprite moves to the end. *)
Definition addChild (sp : Sprite) (children : list Sprite) : list Sprite :=
  (filter (fun c => negb (Nat.eqb c sp)) children ++ [sp])%list.

(** [this.sprites.push(sp); spriteContainer.addChild(sp)]. *)
Definition addSprite (sp : Sprite) : M unit :=
  modify_scene (fun c => set_sprites (_sprites c ++ [sp]) c) ;;
  s <- get ;;
  match _spriteContainer (scene s) with
  | Some l => modify_scene (set_spriteContainer (Some (addChild sp l)))
  | None => throw (TypeError "Cannot read properties of null (reading 'addChild')")
  end.

(** [displayObject.x = px; displayObject.y = py]. *)
Definition setPosition (r : DisplayRef) (px py : number) : M unit :=
  match r with
  | RefTextField i =>
      modify_scene (fun c =>
        set_textFields (update_nth i (set_tf_position px py) (_textFields c)) c)
  | RefSprite sp =>
      modify_scene (fun c => set_spriteXYs (set_spriteXY sp (px, py) (spriteXY c)) c)
  end.

(** The body of the [forEach] of [draw]; [acc] holds the two variables the
    callback assigns, [drewDecorations] and [displayObject]. *)
Definition drawToken (t : SegmentToken) (acc : bool * option DisplayRef)
  : M (bool * option DisplayRef) :=
  acc1 <- match asTextToken t with
          | Some textToken =>
              textField <- createTextFieldForToken textToken ;;
              i <- addTextField textField ;;
              drew <- match textDecorations t with
                      | Some (d :: ds) =>
                          forEach (fun d _ =>
                                     drawing <- createDrawingForTextDecoration d ;;
                                     addDecoration i drawing)
                                  (d :: ds) tt ;;
                          ret true
                      | _ => ret (fst acc)
                      end ;;
              ret (drew, Some (RefTextField i))
          | None => ret acc
          end ;;
  acc2 <- match content t with
          | SpriteContent sp => addSprite sp ;; ret (fst acc1, Some (RefSprite sp))
          | TextContent _ => ret acc1
          end ;;
  match snd acc2 with
  | Some r => setPosition r (Bounds.x (bounds t)) (Bounds.y (bounds t))
  | None => throw (TypeError "Cannot set properties of undefined (setting 'x')")
  end ;;
  ret acc2.

(** The tokens [draw] renders: all of them, or those that are not white
    space unless [drawWhitespace] is set. *)
Definition renderedTokens (s : TaggedText) : list SegmentToken :=
  if truthy_bool (drawWhitespace (_options s))
  then tokensFlat s
  else filter (isNotWhitespaceToken I) (tokensFlat s).

Definition WHITESPACE_WARNING : string * string :=
  ("text-decoration-and-whitespace",
   "Text decorations, such as underlines, will not appear under whitespace unless the `drawWhitespace` option is set to `true`.").

Definition draw : M unit :=
  record_pass DrawPass ;;
  resetChildren ;;
  s <- get ;;
  match _textContainer (scene s), _spriteContainer (scene s) with
  | Some _, Some _ => ret tt
  | _, _ =>
      throw (Error "Somehow the textContainer or spriteContainer is null. This shouldn't be possible. Perhaps you've destroyed this object?")
  end ;;
  let drawWhitespace := drawWhitespace (_options s) in
  let tokens := renderedTokens s in
  acc <- forEach drawToken tokens (false, None) ;;
  let drewDecorations := fst acc in
  when (is_false drawWhitespace && drewDecorations)
       (logWarning (fst WHITESPACE_WARNING) (snd WHITESPACE_WARNING)) ;;
  when (truthy_bool (debug (_options s))) drawDebug ;;
  modify (set_needsDraw false).

Definition drawIfShould (forcedSkipDraw : option bool) : M bool :=
  s <- get ;;
  if is_false forcedSkipDraw
     || (match forcedSkipDraw with None => true | Some _ => false end
         && is_false (skipDraw (_options s)))
  then draw ;; ret true
  else ret false.

(* ------------------------------------------------------------------ *)
(** *** The debug listing *)

Definition debugToken (lineNumber wordNumber : nat) (token : SegmentToken)
    (tokenNumber : nat) : string :=
  let nl := (LF ++ "    ")%string in
  let num := Number_toString I in
  let b := bounds token in
  let text :=
    match content token with
    | TextContent c => if isNewlineToken I token then "\n" else DQ ++ c ++ DQ
    | SpriteContent _ => "[Image]"
    end in
  (LF ++ text ++ ": (" ++ nat_to_string lineNumber ++ "/" ++ nat_to_string wordNumber
     ++ "/" ++ nat_to_string tokenNumber ++ ")"
  ++ nl ++ "tags: "
     ++ (if Nat.eqb (String.length (tags token)) 0 then "<none>"
         else JS.join ", "
                (map (fun tag => "<" ++ tag ++ ">") (JS.split "," (tags token))))
  ++ nl ++ "style: "
     ++ JS.join "; "
          (map (fun e => JS.join ":" [fst e; snd e])
               (Object_entries_style I (style token)))
  ++ nl ++ "size: x:" ++ num (Bounds.x b) ++ " y:" ++ num (Bounds.y b)
     ++ " width:" ++ num (Bounds.width b) ++ " height:" ++ num (Bounds.height b)
     ++ " bottom:" ++ num (Bounds.height b + Bounds.y b)%float
     ++ " right:" ++ num (Bounds.x b + Bounds.width b)%float
  ++ nl ++ "font: fontSize:" ++ num (FontProperties.fontSize (fontProperties token))
     ++ " ascent:" ++ num (FontProperties.ascent (fontProperties token))
     ++ " descent:" ++ num (FontProperties.descent (fontProperties token)))%string.

(** The nested arrays built by the three [map]s are appended to a string,
    which joins every level with a comma. *)
Definition toDebugString (s : TaggedText) : string :=
  let lines := _tokens s in
  (untaggedText s ++ LF ++ "=====" ++ LF
  ++ JS.join ","
       (mapi (fun line lineNumber =>
                JS.join ","
                  (mapi (fun word wordNumber =>
                           JS.join LF (mapi (debugToken lineNumber wordNumber) word))
                        line))
             lines))%string.

(* ------------------------------------------------------------------ *)
(** *** The update pass *)

Definition update (forcedSkipDraw : option bool) : M ParagraphToken :=
  record_pass UpdatePass ;;
  s <- get ;;
  let tagStyles := _tagStyles s in
  let spriteTemplates :=
    match imgMap (_options s) with
    | Some _ => Some (_spriteTemplates s)
    | None => None
    end in
  let '(tagTokensNew, parseWarnings) :=
    parseTagsNew I (_text s) (Object_keys (_tagStyles s)) (wrapEmoji (_options s)) in
  forEach (fun w _ => logWarning (fst w) (snd w)) parseWarnings tt ;;
  let styledTokens := mapTagsToStyles I tagTokensNew tagStyles spriteTemplates in
  let newFinalTokens :=
    calculateTokens I styledTokens (splitStyle (_options s)) (scaleIcons (_options s))
      (adjustFontBaseline (_options s)) in
  modify (set_tokens newFinalTokens) ;;
  modify (set_needsDraw true) ;;
  drawIfShould forcedSkipDraw ;;
  s' <- get ;;
  when (truthy_bool (debugConsole (_options s'))) (console_log (toDebugString s')) ;;
  modify (set_needsUpdate false) ;;
  ret newFinalTokens.

Definition updateIfShould (forcedSkipUpdate : option bool) : M bool :=
  s <- get ;;
  if is_false forcedSkipUpdate
     || (match forcedSkipUpdate with None => true | Some _ => false end
         && is_false (skipUpdates (_options s)))
  then update None ;; ret true
  else ret false.

Definition onImageTextureUpdate : M unit :=
  modify (set_needsUpdate true) ;;
  modify (set_needsDraw true) ;;
  updateIfShould None ;;
  ret tt.

(* ------------------------------------------------------------------ *)
(** *** Text and styles *)

Definition setText (text : string) (skipUpdate : option bool) : M unit :=
  s <- get ;;
  if String.eqb text (_text s) && negb (_needsUpdate s)
  then ret tt
  else
    modify (set_text text) ;;
    modify (set_needsUpdate true) ;;
    updateIfShould skipUpdate ;;
    ret tt.

Definition IMG_ON_DEFAULT_WARNING : string * string :=
  ((IMG_REFERENCE_PROPERTY ++ "-on-default")%string,
   ("Style " ++ DQ ++ IMG_REFERENCE_PROPERTY ++ DQ ++ " can not be set on the "
    ++ DQ ++ DEFAULT_KEY ++ DQ
    ++ " style because it will add images to EVERY tag!")%string).

(** The style table holds styles as values.  In the code the style stored
    under a tag is the object the caller passes, and clearing the image
    reference of the default style writes to that object. *)
Definition setStyleForTag (tag : string) (styles : TextStyleExtended)
    (skipUpdate : option bool) : M bool :=
  modify (fun s => set_tagStyles (obj_set tag styles (_tagStyles s)) s) ;;
  s <- get ;;
  (if String.eqb tag DEFAULT_KEY
   then match defaultStyle s with
        | Some d =>
            when (truthy_string (imgSrc d))
                 (logWarning (fst IMG_ON_DEFAULT_WARNING) (snd IMG_ON_DEFAULT_WARNING) ;;
                  modify (fun s =>
                    set_tagStyles
                      (obj_set "default" (set_imgSrc None d) (_tagStyles s)) s))
        | None =>
            throw (TypeError "Cannot read properties of undefined (reading 'imgSrc')")
        end
   else ret tt) ;;
  modify (set_needsUpdate true) ;;
  updateIfShould skipUpdate ;;
  ret true.

Definition setTagStyles (styles : TextStyleSet) (skipUpdate : option bool) : M unit :=
  forEach (fun e _ => setStyleForTag (fst e) (snd e) (Some true) ;; ret tt)
          (Object_entries styles) tt ;;
  modify (set_needsUpdate true) ;;
  updateIfShould skipUpdate ;;
  ret tt.

Definition removeStylesForTag (tag : string) (skipUpdate : option bool) : M bool :=
  s <- get ;;
  if obj_in tag (_tagStyles s)
  then
    modify (fun s => set_tagStyles (obj_delete tag (_tagStyles s)) s) ;;
    modify (set_needsUpdate true) ;;
    updateIfShould skipUpdate ;;
    ret true
  else ret false.


(* ------------------------------------------------------------------ *)
(** *** Sprite templates and construction *)

(** The sprite made from one entry of the image map, or the error thrown
    for it. *)
Definition spriteForSource (key : string) (spriteSource : SpriteSource)
  : JSError + Sprite :=
  let wrongFormatError :=
    TypeError ("The spriteSource provided for key " ++ key
               ++ " was not in a valid format. Please use a Sprite, Texture, BaseTexture, string, HTMLImageElement, HTMLVideoElement, HTMLCanvasElement, or SVGElement") in
  let destroyedError :=
    Error ("The spriteSource provided for key " ++ key
           ++ " appears to be a Sprite or Texture that has been destroyed or removed from PIXI.TextureCache probably using `destroy()` with aggressive options or `destroyImgMap()`.") in
  let caught (r : JSError + Sprite) : option JSError * Sprite :=
    match r with
    | inr sp => (None, sp)
    | inl e => (Some e, PIXI_new_Sprite I)
    end in
  let '(error, sprite) :=
    match spriteSource with
    | SourceSprite sp => (None, sp)
    | SourceOther _ =>
        if isSpriteSource I spriteSource
        then caught (PIXI_Sprite_from I spriteSource)
        else if isTextureSource I spriteSource
        then caught (PIXI_Sprite_from_Texture I spriteSource)
        else (Some wrongFormatError, PIXI_new_Sprite I)
    end in
  let error :=
    if (isSpriteSource I spriteSource && source_baseTexture_null I spriteSource)
       || sprite_unusable I sprite
    then Some destroyedError
    else error in
  match error with
  | Some e => inl e
  | None => inr sprite
  end.

Definition createSpriteTemplatesFromSourceMap (imgMap : ImageSourceMap) : M unit :=
  modify (set_spriteTemplates []) ;;
  forEach (fun e _ =>
             let key := fst e in
             match spriteForSource key (snd e) with
             | inl error => throw error
             | inr sprite =>
                 modify (fun s =>
                   set_spriteTemplates (obj_set key sprite (_spriteTemplates s)) s) ;;
                 s <- get ;;
                 let existingStyle :=
                   match getStyleForTag key [] s with
                   | Some st => st
                   | None => emptyStyle
                   end in
                 let style :=
                   spreadStyle (set_imgSrc (Some key) emptyStyle) existingStyle in
                 setStyleForTag key style None ;;
                 ret tt
             end)
          (Object_entries imgMap) tt.

(** The instance as its field initialisers leave it. *)
Definition initial : TaggedText :=
  mkTaggedText emptyOptions true true [] "" [] []
    (mkScene [] [] [] [] (Some []) (Some []) (Some []) (Some []) [])
    [] [] [].

Definition set_options (v : TaggedTextOptions) (s : TaggedText) : TaggedText :=
  mkTaggedText v (_needsUpdate s) (_needsDraw s) (_tokens s) (_text s) (_tagStyles s)
    (_spriteTemplates s) (scene s) (warnings s) (console s) (passes s).

Definition constructor (text : string) (tagStyles : TextStyleSet)
    (options : TaggedTextOptions) : Outcome unit :=
  (resetChildren ;;
   let mergedOptions := spreadOptions (DEFAULT_OPTIONS I) options in
   modify (set_options mergedOptions) ;;
   let tagStyles := spread [("default", emptyStyle)] tagStyles in
   let tagStyles :=
     if truthy_bool (wrapEmoji mergedOptions)
     then
       let userStyles :=
         match obj_get (EMOJI_TAG I) tagStyles with
         | Some st => st
         | None => emptyStyle
         end in
       obj_set (EMOJI_TAG I)
         (spreadStyle
            (mkStyle None None None None None None None None
               [("fontFamily", VString "sans-serif")])
            userStyles)
         tagStyles
     else tagStyles in
   let mergedDefaultStyles :=
     spreadStyle (DEFAULT_STYLE I)
       (match obj_get "default" tagStyles with
        | Some st => st
        | None => emptyStyle
        end) in
   let tagStyles := obj_set "default" mergedDefaultStyles tagStyles in
   setTagStyles tagStyles None ;;
   s <- get ;;
   match imgMap (_options s) with
   | Some m => createSpriteTemplatesFromSourceMap m
   | None => ret tt
   end ;;
   setText text None) initial.

End Methods.

(* ================================================================== *)
(** ** Destruction *)
(* ================================================================== *)

(** The options of PIXI's [destroy]: the two the class names, and the rest. *)
Record DestroyOptions : Type := mkDestroyOptions {
  d_children : option bool;
  d_texture : option bool;
  d_others : Obj JSValue
}.

(** The spread [{ ...a, ...b }] of two such records. *)
Definition spreadDestroy (a b : DestroyOptions) : DestroyOptions :=
  {| d_children := or_else (d_children b) (d_children a);
     d_texture := or_else (d_texture b) (d_texture a);
     d_others := spread (d_others a) (d_others b) |}.

Definition DEFAULT_DESTROY_OPTIONS : DestroyOptions :=
  mkDestroyOptions (Some true) (Some true) [].

(** What [destroy] is called with: nothing, a boolean or an options object. *)
Inductive DestroyArgument : Type :=
| DestroyNothing
| DestroyBoolean (b : bool)
| DestroyObject (o : DestroyOptions).

(** The calls into PIXI that destroy display objects.  The model records
    them with their arguments and does not look into PIXI, apart from the
    [destroyed] flag of the instance, which [PIXI.Sprite]'s [destroy] sets
    and [destroyImgMap] reads. *)
Inductive PixiCall : Type :=
| SpriteContainer_destroy (options : DestroyArgument)
| super_destroy (options : DestroyOptions).

(** An instance with its [destroyed] flag and the destroying calls made so
    far, the last one first. *)
Record Stage : Type := mkStage {
  self : TaggedText;
  destroyed : bool;
  pixiCalls : list PixiCall
}.

Definition destroyImgMap (st : Stage) : JSError + Stage :=
  if destroyed st
  then inl (Error "destroyImgMap() was called after this object was already destroyed. You must call destroyImgMap() before destroy() because imgMap is cleared when the object is destroyed.")
  else
    match _spriteContainer (scene (self st)) with
    | Some _ =>
        inr (mkStage (self st) (destroyed st)
               (SpriteContainer_destroy
                  (DestroyObject (mkDestroyOptions (Some true) (Some true) []))
                :: pixiCalls st))
    | None => inl (TypeError "Cannot read properties of null (reading 'destroy')")
    end.

Definition destroy (options : DestroyArgument) (st : Stage) : JSError + Stage :=
  let options :=
    match options with
    | DestroyBoolean b => mkDestroyOptions (Some b) None []
    | DestroyObject o => o
    | DestroyNothing => mkDestroyOptions None None []
    end in
  let destroyOptions := spreadDestroy DEFAULT_DESTROY_OPTIONS options in
  match _spriteContainer (scene (self st)) with
  | None => inl (TypeError "Cannot read properties of null (reading 'destroy')")
  | Some _ =>
      let calls :=
        super_destroy destroyOptions
        :: SpriteContainer_destroy (DestroyBoolean false) :: pixiCalls st in
      let s := self st in
      let s :=
        set_scene
          (set_decorations [] (set_sprites [] (set_textFields [] (scene s)))) s in
      let s := set_spriteTemplates [] s in
      let s := set_tokens [] s in
      let s := set_tagStyles [] s in
      (* the three writes to the options object the instance then lets go of *)
      let o := _options s in
      let o :=
        mkOptions (debug o) (debugConsole o) (splitStyle o) (adjustFontBaseline o)
          (Some []) (scaleIcons o) (Some true) (Some true) (drawWhitespace o)
          (wrapEmoji o) (overdrawDecorations o) (supressConsole o) in
      let s := set_options o s in
      let s := set_options emptyOptions s in
      inr (mkStage s true calls)
  end.

(* ================================================================== *)
(** ** Vocabulary of the properties *)
(* ================================================================== *)

(** The scale factor taken from a style property: 1.0 when the property is
    absent, then clamped. *)
Definition scaleFactor (v : option number) : number :=
  clampScale (match v with Some x => x | None => 1%float end).

(** The font size of a style as a number: 0 when absent, converted when it
    is a string. *)
Definition numericFontSize (I : Imports) (fs : option FontSize) : number :=
  match fs with
  | None => 0%float
  | Some (FontSizeNumber n) => n
  | Some (FontSizeString str) => fontSizeStringToNumber I str
  end.

Definition with_style (C : Type) (st : TextStyleExtended) (t : Token C) : Token C :=
  mkToken (content t) (tags t) st (bounds t) (fontProperties t) (textDecorations t).

(** A token with its [fontScaleWidth] replaced. *)
Definition withScaleWidth (v : option number) (t : TextSegmentToken) : TextSegmentToken :=
  with_style
    (mkStyle (textTransform (style t)) (align (style t)) v (fontScaleHeight (style t))
       (fontSize (style t)) (imgSrc (style t)) (wordWrap (style t))
       (wordWrapWidth (style t)) (others (style t)))
    t.

(** A token with its [fontScaleHeight] replaced. *)
Definition withScaleHeight (v : option number) (t : TextSegmentToken) : TextSegmentToken :=
  with_style
    (mkStyle (textTransform (style t)) (align (style t)) (fontScaleWidth (style t)) v
       (fontSize (style t)) (imgSrc (style t)) (wordWrap (style t))
       (wordWrapWidth (style t)) (others (style t)))
    t.

(** The case transforms of the [textTransform] style key. *)
Inductive CaseTransform : Type := Lowercase | Uppercase | Capitalize | Unchanged.

(** The transform a [textTransform] value selects when it is compared after
    lower-casing. *)
Definition selectedTransform (I : Imports) (v : option string) : CaseTransform :=
  let k := toLowerCase I (match v with Some x => x | None => "" end) in
  if String.eqb k "lowercase" then Lowercase
  else if String.eqb k "uppercase" then Uppercase
  else if String.eqb k "capitalize" then Capitalize
  else Unchanged.

(** The transform a [textTransform] value selects when it is compared as it is. *)
Definition exactTransform (v : option string) : CaseTransform :=
  match v with
  | Some k =>
      if String.eqb k "lowercase" then Lowercase
      else if String.eqb k "uppercase" then Uppercase
      else if String.eqb k "capitalize" then Capitalize
      else Unchanged
  | None => Unchanged
  end.

Definition applyTransform (I : Imports) (t : CaseTransform) (c : string) : string :=
  match t with
  | Lowercase => toLowerCase I c
  | Uppercase => toUpperCase I c
  | Capitalize => capitalize I c
  | Unchanged => c
  end.

(** The text a token is shown with: its content after the case transform its
    style selects. *)
Definition transformedText (I : Imports) (t : TextSegmentToken) : string :=
  applyTransform I (selectedTransform I (textTransform (style t))) (content t).

(** The style a token's text is made with: the token's style with its
    alignment replaced by [convertUnsupportedAlignment]. *)
Definition sanitizedStyle (I : Imports) (t : TextSegmentToken) : TextStyleExtended :=
  set_align (convertUnsupportedAlignment I (align (style t))) (style t).

(** A token carries decorations when its list of them is present and not empty. *)
Definition hasDecorations (t : SegmentToken) : bool :=
  match textDecorations t with
  | Some (_ :: _) => true
  | _ => false
  end.

(** The decoration-under-hidden-whitespace conflict: white space is not
    drawn and some rendered text token carries decorations. *)
Definition decorationConflict (I : Imports) (s : TaggedText) : bool :=
  is_false (drawWhitespace (_options s))
  && existsb (fun t => isTextToken t && hasDecorations t) (renderedTokens I s).

(** Whether a setter runs the update pass: [skipUpdate] is [false], or it is
    left out and the [skipUpdates] option is [false]. *)
Definition shouldUpdate (skipUpdate : option bool) (s : TaggedText) : bool :=
  is_false skipUpdate
  || (match skipUpdate with None => true | Some _ => false end
      && is_false (skipUpdates (_options s))).


(** The debug overlay reads the default style of every line, so a draw pass
    with the overlay on needs that style. *)
Definition drawable (s : TaggedText) : bool :=
  negb (truthy_bool (debug (_options s)))
  || match obj_get "default" (_tagStyles s) with Some _ => true | None => false end.


(** The token tree one update pass computes from the text, the style table,
    the options and the sprite templates. *)
Definition computedTokens (I : Imports) (s : TaggedText) : ParagraphToken :=
  calculateTokens I
    (mapTagsToStyles I
       (fst (parseTagsNew I (_text s) (Object_keys (_tagStyles s))
               (wrapEmoji (_options s))))
       (_tagStyles s)
       (match imgMap (_options s) with
        | Some _ => Some (_spriteTemplates s)
        | None => None
        end))
    (splitStyle (_options s)) (scaleIcons (_options s))
    (adjustFontBaseline (_options s)).

(** [hoare R P m Q]: every run of [m], returning or throwing, ends in a
    state related to the initial one by [R], and from a state satisfying [P]
    the run returns, with a result and a final state satisfying [Q]. *)
Definition hoare (R : TaggedText -> TaggedText -> Prop) (A : Type)
    (P : TaggedText -> Prop) (m : M A) (Q : A -> TaggedText -> Prop) : Prop :=
  forall s,
    R s (final (m s))
    /\ (P s -> exists a s', m s = Returned a s' /\ Q a s').

Arguments hoare R {A} P m Q.

(** The part of an instance outside its scene and its warnings. *)
Definition core (s : TaggedText) :=
  (_options s, _needsUpdate s, _needsDraw s, _tokens s, _text s, _tagStyles s,
   _spriteTemplates s, console s, passes s).

(** What a draw pass leaves alone. *)
Definition kept (s : TaggedText) :=
  (_options s, _needsUpdate s, _tokens s, _text s, _tagStyles s,
   _spriteTemplates s, console s).

(** What the update pass computes the token tree from. *)
Definition inputs (s : TaggedText) :=
  (_text s, _tagStyles s, _options s, _spriteTemplates s).

(** Two states that differ in the scene only. *)
Definition quiet (s s' : TaggedText) : Prop :=
  core s' = core s /\ warnings s' = warnings s.

(** Two states that differ in the scene and the warnings only. *)
Definition sameCore (s s' : TaggedText) : Prop := core s' = core s.

(** The containers [draw] adds children to exist. *)
Definition sceneReady (s : TaggedText) : Prop :=
  _textContainer (scene s) <> None
  /\ _spriteContainer (scene s) <> None
  /\ _debugContainer (scene s) <> None.

(** The debug overlay can be drawn: its container and the default style exist. *)
Definition debugReady (s : TaggedText) : Prop :=
  _debugContainer (scene s) <> None /\ obj_get "default" (_tagStyles s) <> None.

(** The warnings of [s] are those of [before] with [invalid-color] warnings
    added in front. *)
Definition grownFrom (before : list (string * string)) (s : TaggedText) : Prop :=
  exists ws,
    warnings s = (ws ++ before)%list /\ Forall (eq INVALID_COLOR_WARNING) ws.

(** The invariant of the token loop of [draw]. *)
Definition drawing (before : list (string * string)) (s : TaggedText) : Prop :=
  sceneReady s /\ grownFrom before s.

(** The state in which [update] reaches [drawIfShould]: the pass is
    recorded, the warnings of the parser are logged, the new token tree is
    stored and [needsDraw] is set. *)
Definition updated (I : Imports) (s : TaggedText) : TaggedText :=
  set_needsDraw true
    (set_tokens (computedTokens I s)
       (set_warnings
          (rev (snd (parseTagsNew I (_text s) (Object_keys (_tagStyles s))
                       (wrapEmoji (_options s))))
           ++ warnings s)%list
          (set_passes (UpdatePass :: passes s) s))).

(** The state [setStyleForTag] is in when it turns to the update: the style
    is stored under the tag, and a truthy image reference on the default
    style has been reported and cleared. *)
Definition styled (tag : string) (styles : TextStyleExtended) (s : TaggedText)
  : TaggedText :=
  set_needsUpdate true
    (if String.eqb tag DEFAULT_KEY && truthy_string (imgSrc styles)
     then set_tagStyles
            (obj_set "default" (set_imgSrc None styles)
               (obj_set tag styles (_tagStyles s)))
            (set_warnings (IMG_ON_DEFAULT_WARNING :: warnings s)
               (set_tagStyles (obj_set tag styles (_tagStyles s)) s))
     else set_tagStyles (obj_set tag styles (_tagStyles s)) s).


(** [always R m]: every run of [m], returning or throwing, ends in a state
    related to the initial one by [R]. *)
Definition always (R : TaggedText -> TaggedText -> Prop) (A : Type) (m : M A) : Prop :=
  hoare R (fun _ => False) m (fun _ _ => False).

Arguments always R {A} m.


(* ------------------------------------------------------------------ *)
(** *** Vocabulary of the further properties *)

(** The style [setStyleForTag] leaves under the tag: the one it is given,
    without its image reference when the tag is the default one and the
    reference is truthy. *)
Definition storedStyle (tag : string) (styles : TextStyleExtended) : TextStyleExtended :=
  if String.eqb tag DEFAULT_KEY && truthy_string (imgSrc styles)
  then set_imgSrc None styles
  else styles.

(** Whether [update] runs the draw pass: [skipDraw] is [false], or it is
    left out and the [skipDraw] option is [false]. *)
Definition shouldDraw (forcedSkipDraw : option bool) (s : TaggedText) : bool :=
  is_false forcedSkipDraw
  || (match forcedSkipDraw with None => true | Some _ => false end
      && is_false (skipDraw (_options s))).

(** The passes a setter called with [skipUpdate] runs, the last one first. *)
Definition passesRun (skipUpdate : option bool) (s : TaggedText) : list Pass :=
  if shouldUpdate skipUpdate s
  then if is_false (skipDraw (_options s)) then [DrawPass; UpdatePass]
       else [UpdatePass]
  else [].

(** The warnings of [s'] are those of [s] with some added in front. *)
Definition warningsKept (s s' : TaggedText) : Prop :=
  exists ws, warnings s' = (ws ++ warnings s)%list.

(** The text tokens among [l], in order. *)
Definition textTokens (l : list SegmentToken) : list TextSegmentToken :=
  flat_map (fun t => match asTextToken t with Some tk => [tk] | None => [] end) l.

(** The sprites of the sprite tokens among [l], in order. *)
Definition spritesOf (l : list SegmentToken) : list Sprite :=
  flat_map (fun t => match content t with
                     | SpriteContent sp => [sp]
                     | TextContent _ => []
                     end) l.

(** The children of a container the sprites of [l] have been added to, one
    after the other: each sprite once, at the place of its last addition. *)
Definition childrenOf (l : list Sprite) : list Sprite :=
  fold_left (fun children sp => addChild sp children) l [].

(** The decorations of a token: none when the list is absent. *)
Definition decorationsOf (C : Type) (t : Token C) : list TextDecorationMetrics :=
  match textDecorations t with Some l => l | None => [] end.

(** The position the store of sprite positions holds for a sprite. *)
Definition spritePosition (sp : Sprite) (l : list (Sprite * (number * number)))
  : option (number * number) :=
  match find (fun e => Nat.eqb sp (fst e)) l with
  | Some e => Some (snd e)
  | None => None
  end.

(** The corner of the bounds of the last token of [l] that holds the sprite. *)
Definition lastPosition (sp : Sprite) (l : list SegmentToken)
  : option (number * number) :=
  fold_left (fun acc t =>
               match content t with
               | SpriteContent sp' =>
                   if Nat.eqb sp sp'
                   then Some (Bounds.x (bounds t), Bounds.y (bounds t))
                   else acc
               | TextContent _ => acc
               end) l None.

(** [g] is the drawing [createDrawingForTextDecoration] returns for [d] in
    an instance with the options of [s]. *)
Definition drawnFor (s : TaggedText) (g : Graphics) (d : TextDecorationMetrics) : Prop :=
  exists s', createDrawingForTextDecoration d s = Returned g s'.

(** [f] is the text field of the token [t]: the field
    [createTextFieldForToken] returns for it, moved to the corner of the
    token's bounds, with one child drawing for each decoration. *)
Definition shows (I : Imports) (s : TaggedText) (f : TextField)
    (t : TextSegmentToken) : Prop :=
  (exists tf,
      createTextFieldForToken I t s = Returned tf s
      /\ (tf_text f, tf_style f, tf_scale f) = (tf_text tf, tf_style tf, tf_scale tf))
  /\ (tf_x f, tf_y f) = (Bounds.x (bounds t), Bounds.y (bounds t))
  /\ Forall2 (drawnFor s) (tf_children f) (decorationsOf t).

(** The display lists and the two containers [draw] fills. *)
Definition display (s : TaggedText) :=
  (_textFields (scene s), _sprites (scene s), _decorations (scene s),
   _textContainer (scene s), _spriteContainer (scene s), spriteXY (scene s)).

(** The scene a draw pass started from [s0] has built when it has gone
    through the tokens [done]. *)
Definition built (I : Imports) (s0 : TaggedText) (done : list SegmentToken)
    (s : TaggedText) : Prop :=
  Forall2 (shows I s0) (_textFields (scene s)) (textTokens done)
  /\ _sprites (scene s) = spritesOf done
  /\ _decorations (scene s) = List.concat (map tf_children (_textFields (scene s)))
  /\ _textContainer (scene s)
     = Some (map RefTextField (seq 0 (List.length (_textFields (scene s)))))
  /\ _spriteContainer (scene s) = Some (childrenOf (spritesOf done))
  /\ (forall sp,
        spritePosition sp (spriteXY (scene s))
        = or_else (lastPosition sp done) (spritePosition sp (spriteXY (scene s0))))
  /\ _options s = _options s0.

(** Two states with the same display lists and containers. *)
Definition sameDisplay (s s' : TaggedText) : Prop := display s' = display s.

(** The error of the first entry of an image map no sprite can be made
    from, if there is one. *)
Fixpoint firstInvalid (I : Imports) (m : ImageSourceMap) : option JSError :=
  match m with
  | [] => None
  | e :: r =>
      match spriteForSource I (fst e) (snd e) with
      | inl err => Some err
      | inr _ => firstInvalid I r
      end
  end.

(** The entries of an image map before the first one no sprite can be made
    from. *)
Fixpoint validPrefix (I : Imports) (m : ImageSourceMap) : ImageSourceMap :=
  match m with
  | [] => []
  | e :: r =>
      match spriteForSource I (fst e) (snd e) with
      | inl _ => []
      | inr _ => e :: validPrefix I r
      end
  end.

(** The style table the constructor hands to [setTagStyles]:
    [{ default: {}, ...tagStyles }] with the emoji style added when
    [wrapEmoji] is set and the default style laid over [DEFAULT_STYLE]. *)
Definition mergedStyles (I : Imports) (tagStyles : TextStyleSet)
    (mergedOptions : TaggedTextOptions) : TextStyleSet :=
  let tagStyles := spread [("default", emptyStyle)] tagStyles in
  let tagStyles :=
    if truthy_bool (wrapEmoji mergedOptions)
    then
      let userStyles :=
        match obj_get (EMOJI_TAG I) tagStyles with
        | Some st => st
        | None => emptyStyle
        end in
      obj_set (EMOJI_TAG I)
        (spreadStyle
           (mkStyle None None None None None None None None
              [("fontFamily", VString "sans-serif")])
           userStyles)
        tagStyles
    else tagStyles in
  let mergedDefaultStyles :=
    spreadStyle (DEFAULT_STYLE I)
      (match obj_get "default" tagStyles with
       | Some st => st
       | None => emptyStyle
       end) in
  obj_set "default" mergedDefaultStyles tagStyles.

(** The number a run of characters denotes as a hexadecimal colour: the
    value of its longest prefix of hexadecimal digits, NaN when the first
    character is not one. *)
Definition hexColor (digits : string) : number :=
  match JS.hex_prefix digits with
  | [] => nan
  | ds => JS.Number_of_N (JS.hex_value ds)
  end.

(** The display objects of two instances are the same: the text fields, the
    sprites, the decorations and the children of the two containers; and
    every sprite has the same position. *)
Definition sameObjects (s s' : TaggedText) : Prop :=
  _textFields (scene s') = _textFields (scene s)
  /\ _sprites (scene s') = _sprites (scene s)
  /\ _decorations (scene s') = _decorations (scene s)
  /\ _textContainer (scene s') = _textContainer (scene s)
  /\ _spriteContainer (scene s') = _spriteContainer (scene s)
  /\ (forall sp, spritePosition sp (spriteXY (scene s'))
                 = spritePosition sp (spriteXY (scene s))).

(** A setter has put the update off: [needsUpdate] is set, and the tokens,
    the display objects and the passes are as they were. *)
Definition deferred (s s' : TaggedText) : Prop :=
  _needsUpdate s' = true
  /\ _tokens s' = _tokens s
  /\ scene s' = scene s
  /\ passes s' = passes s
  /\ _options s' = _options s.



(* ================================================================== *)
(** ** A concrete choice of the imports *)
(* ================================================================== *)

(** Stand-ins for the imported functions, used to run the class on concrete
    inputs.  The theorems below hold for every [Imports]; only the concrete
    examples use this one. *)
Module Demo.

(** Modelled from the spec: [removeTags] of [./tags] is not part of the
    sources; the spec describes it as stripping all tag markup and returning
    only the literal text.  This version drops every [<...>] span, so text
    without an angle bracket is returned as it is. *)
Fixpoint stripTags (inTag : bool) (s : string) : string :=
  match s with
  | EmptyString => EmptyString
  | String c r =>
      if inTag then stripTags (negb (Ascii.eqb c ">")) r
      else if Ascii.eqb c "<" then stripTags true r
      else String c (stripTags false r)
  end.

Definition plainText (s : string) : string := stripTags false s.

(** Modelled from the spec: [convertUnsupportedAlignment] of [./style] maps
    an unsupported alignment keyword to its nearest supported value. *)
Definition classicAlignment (a : option string) : option string :=
  match a with
  | Some v =>
      if String.eqb v "justify" || String.eqb v "justify-left" then Some "left"
      else if String.eqb v "justify-right" then Some "right"
      else if String.eqb v "justify-center" then Some "center"
      else Some v
  | None => None
  end.

(** Upper-cases the first character. *)
Definition capitalizeFirst (s : string) : string :=
  match s with
  | String c r => String (JS.upper_char c) r
  | EmptyString => EmptyString
  end.

Definition dec_digit (c : ascii) : option N :=
  let n := N_of_ascii c in
  if (48 <=? n)%N && (n <=? 57)%N then Some (n - 48)%N else None.

Fixpoint dec_prefix (s : string) (acc : N) : N :=
  match s with
  | EmptyString => acc
  | String c r =>
      match dec_digit c with
      | Some d => dec_prefix r (10 * acc + d)%N
      | None => acc
      end
  end.

(** Reads the leading decimal digits of a size such as [24px]. *)
Definition leadingDigits (s : string) : number :=
  JS.Number_of_N (dec_prefix s 0%N).

Definition Z_to_string (z : Z) : string :=
  NilZero.string_of_int (Z.to_int z).

(** Prints the special values and the integers the way the engine does, and
    any other number as a mantissa and a binary exponent. *)
Definition showNumber (v : number) : string :=
  match Prim2SF v with
  | S754_nan => "NaN"
  | S754_zero _ => "0"
  | S754_infinity false => "Infinity"
  | S754_infinity true => "-Infinity"
  | S754_finite sg m e =>
      let sign := if sg then (-1)%Z else 1%Z in
      if (0 <=? e)%Z then Z_to_string (sign * Z.pos m * 2 ^ e)
      else if (Z.pos m mod 2 ^ (- e) =? 0)%Z
      then Z_to_string (sign * (Z.pos m / 2 ^ (- e)))
      else Z_to_string (sign * Z.pos m) ++ "*2^" ++ Z_to_string e
  end.

Definition entry (A : Type) (k : string) (show : A -> string) (v : option A)
  : list (string * string) :=
  match v with
  | Some a => [(k, show a)]
  | None => []
  end.

Definition show_value (v : JSValue) : string :=
  match v with
  | VUndefined => ""
  | VNull => ""
  | VBool true => "true"
  | VBool false => "false"
  | VNumber n => showNumber n
  | VString t => t
  end.

(** The entries of a style, the typed properties first. *)
Definition styleEntries (st : TextStyleExtended) : list (string * string) :=
  (entry "textTransform" id (textTransform st)
   ++ entry "align" id (align st)
   ++ entry "fontScaleWidth" showNumber (fontScaleWidth st)
   ++ entry "fontScaleHeight" showNumber (fontScaleHeight st)
   ++ entry "fontSize"
        (fun f => match f with
                  | FontSizeNumber n => showNumber n
                  | FontSizeString t => t
                  end)
        (fontSize st)
   ++ entry "imgSrc" id (imgSrc st)
   ++ entry "wordWrap" (fun b : bool => if b then "true" else "false") (wordWrap st)
   ++ entry "wordWrapWidth" showNumber (wordWrapWidth st)
   ++ map (fun e => (fst e, show_value (snd e))) (others st))%list.

Fixpoint all_white (s : string) : bool :=
  match s with
  | EmptyString => true
  | String c r => JS.is_white c && all_white r
  end.

Definition isNewline (t : SegmentToken) : bool :=
  match content t with
  | TextContent c => String.eqb c LF
  | SpriteContent _ => false
  end.

Definition isWhitespace (t : SegmentToken) : bool :=
  match content t with
  | TextContent c => negb (String.eqb c "") && all_white c
  | SpriteContent _ => false
  end.

Definition zeroBounds : Bounds.t := Bounds.mk 0%float 0%float 0%float 0%float.

Definition zeroFont : FontProperties.t :=
  FontProperties.mk 0%float 0%float 0%float.

(** A one-segment pipeline: the text without its tags becomes one text
    segment in the default style. *)
Definition parse (text : string) (knownTags : list string)
    (wrapEmoji : option bool) : string * list (string * string) :=
  (text, []).

Definition styleTokens (tokens : string) (styles : TextStyleSet)
    (templates : option ImageMap) : string * TextStyleExtended :=
  (tokens,
   match obj_get "default" styles with Some st => st | None => emptyStyle end).

Definition layout (styled : string * TextStyleExtended)
    (splitStyle : option string) (scaleIcons adjustFontBaseline : option bool)
  : ParagraphToken :=
  if String.eqb (fst styled) "" then []
  else [[[mkToken (TextContent (plainText (fst styled))) "" (snd styled)
            zeroBounds zeroFont None]]].

Definition defaultStyleRecord : TextStyleExtended :=
  mkStyle None (Some "left") None None (Some (FontSizeNumber 26%float)) None
    (Some true) (Some 500%float) [("fill", VNumber 0%float)].

Definition defaultOptionsRecord : TaggedTextOptions :=
  mkOptions (Some false) (Some false) (Some "words") (Some false) None
    (Some true) (Some false) (Some false) (Some false) (Some false) None
    (Some false).

(** The font size of a new text: 26 when the style has none, and a string
    size read up to its unit. *)
Definition textFontSize (fs : option FontSize) : option FontSize :=
  Some (FontSizeNumber
          match fs with
          | None => 26%float
          | Some (FontSizeNumber n) => n
          | Some (FontSizeString str) => leadingDigits str
          end).

Definition imports : Imports :=
  {| TagTokens := string;
     parseTagsNew := parse;
     removeTags := plainText;
     EMOJI_TAG := "__EMOJI__";
     StyledTokens := string * TextStyleExtended;
     combineAllStyles :=
       fun l => fold_left (fun acc o => match o with
                                        | Some st => spreadStyle acc st
                                        | None => acc
                                        end) l emptyStyle;
     convertUnsupportedAlignment := classicAlignment;
     getStyleForTagExt := fun tag styles _ => obj_get tag styles;
     mapTagsToStyles := styleTokens;
     calculateTokens := layout;
     getBoundsNested := fun _ => zeroBounds;
     capitalize := capitalizeFirst;
     fontSizeStringToNumber := leadingDigits;
     isNewlineToken := isNewline;
     isWhitespaceToken := isWhitespace;
     isNotWhitespaceToken := fun t => negb (isWhitespace t);
     isSpriteSource := fun _ => true;
     isTextureSource := fun _ => false;
     DEFAULT_STYLE := defaultStyleRecord;
     DEFAULT_OPTIONS := defaultOptionsRecord;
     Number_toString := showNumber;
     Object_entries_style := styleEntries;
     Unicode_toLowerCase := fun s => s;
     Unicode_toUpperCase := fun s => s;
     PIXI_Text_fontSize := textFontSize;
     PIXI_new_Sprite := 0;
     PIXI_Sprite_from := fun _ => inr 1;
     PIXI_Sprite_from_Texture := fun _ => inr 1;
     source_baseTexture_null := fun _ => false;
     sprite_unusable := fun _ => false;
     PIXI_width := fun _ => 0%float |}.

(** A text segment with the given content and style. *)
Definition textToken (c : string) (st : TextStyleExtended) : TextSegmentToken :=
  mkToken c "" st zeroBounds zeroFont None.

(** The options [{ skipUpdates: true }]. *)
Definition skipping : TaggedTextOptions :=
  mkOptions None None None None None None (Some true) None None None None None.

(** [new TaggedText()]: no text, no styles, the default options. *)
Definition fresh : TaggedText := final (constructor imports "" [] emptyOptions).

(** [new TaggedText(text, {}, { skipUpdates: true })]. *)
Definition unprocessed (text : string) : TaggedText :=
  final (constructor imports text [] skipping).

(** A text segment with one underline, and a new instance holding it. *)
Definition underlined : SegmentToken :=
  mkToken (TextContent "hi") "u" emptyStyle zeroBounds zeroFont
    (Some [mkDecoration zeroBounds (ColorNumber 0%float)]).

Definition decorated : TaggedText := set_tokens [[[underlined]]] fresh.

(** A segment that shows the sprite [sp]. *)
Definition picture (sp : Sprite) : SegmentToken :=
  mkToken (SpriteContent sp) "img" emptyStyle zeroBounds zeroFont None.

(** An instance whose tokens show the sprite 7, the sprite 8 and the sprite
    7 again. *)
Definition pictured : TaggedText :=
  set_tokens [[[picture 7; picture 8; picture 7]]] fresh.


(** The style [{ textTransform: k }]. *)
Definition transformed (k : string) : TextStyleExtended :=
  mkStyle (Some k) None None None None None None None [].

(** A decoration of the given colour over an empty rectangle. *)
Definition decoration (c : Color) : TextDecorationMetrics :=
  mkDecoration zeroBounds c.

(** The style [{ fontSize: 10, fontScaleWidth: w, fontScaleHeight: h }]. *)
Definition scaled (w h : option number) : TextStyleExtended :=
  mkStyle None None w h (Some (FontSizeNumber 10%float)) None None None [].


(** The options [{ overdrawDecorations: -100 }]. *)
Definition overdrawing : TaggedTextOptions :=
  mkOptions None None None None None None None None None None
    (Some (-100)%float) None.

(** The options [{ overdrawDecorations: -Infinity }]. *)
Definition overdrawingWithoutBound : TaggedTextOptions :=
  mkOptions None None None None None None None None None None
    (Some neg_infinity) None.



(** The colour [#66ff33] followed by a semicolon. *)
Definition green : string := "#66ff33;".

End Demo.

(* ================================================================== *)
(** * Properties *)
(* ================================================================== *)

Unset Implicit Arguments.

(** ** The model on concrete inputs *)

Example parseInt16_hex : JS.parseInt16 "0x66FF33" = 6750003%float.
Proof. vm_compute. reflexivity. Qed.

Example parseInt16_no_digit : JS.parseInt16 "0xzz" = nan.
Proof. vm_compute. reflexivity. Qed.

Example split_tags : JS.split "," "b,i" = ["b"; "i"].
Proof. reflexivity. Qed.

Example new_instance_is_drawn :
  _needsUpdate Demo.fresh = false
  /\ _needsDraw Demo.fresh = false
  /\ passes Demo.fresh = [DrawPass; UpdatePass].
Proof. vm_compute. split; [reflexivity | split; reflexivity]. Qed.

Example hidden_whitespace_is_reported :
  draw Demo.imports Demo.decorated
  = Returned tt
      (set_needsDraw false
         (set_warnings [WHITESPACE_WARNING]
            (set_scene
               (mkScene
                  [mkTextField "hi"
                     (set_fontSize (Some (FontSizeNumber 26%float)) emptyStyle)
                     (1%float, 1%float) 0%float 0%float
                     [mkGraphics (ColorNumber 0%float) Demo.zeroBounds]]
                  []
                  [mkGraphics (ColorNumber 0%float) Demo.zeroBounds]
                  [] (Some [RefTextField 0]) (Some []) (Some []) (Some []) [])
               (set_passes (DrawPass :: passes Demo.decorated) Demo.decorated)))).
Proof. vm_compute. reflexivity. Qed.

(** ** Numbers *)

Section NumberFacts.

Local Open Scope float_scope.

Lemma SFcompare_refl (x : spec_float) :
  x <> S754_nan -> SFcompare x x = Some Eq.
Proof.
  destruct x as [s | s | | s m e]; intros Hx; try congruence; simpl.
  - reflexivity.
  - destruct s; reflexivity.
  - rewrite Z.compare_refl, Pos.compare_cont_refl. destruct s; reflexivity.
Qed.

Lemma SFcompare_antisym (x y : spec_float) :
  SFcompare y x = option_map CompOpp (SFcompare x y).
Proof.
  destruct x as [s1 | s1 | | s1 m1 e1], y as [s2 | s2 | | s2 m2 e2]; simpl;
    try reflexivity;
    try (destruct s1; reflexivity); try (destruct s2; reflexivity);
    try (destruct s1, s2; reflexivity).
  rewrite (Z.compare_antisym e1 e2), (ZC4 m2 m1).
  destruct s1, s2; simpl; try reflexivity;
    destruct (e1 ?= e2)%Z; simpl; try reflexivity;
    now rewrite ?CompOpp_involutive.
Qed.

Lemma SFcompare_Eq (x y : spec_float) :
  SFcompare x y = Some Eq ->
  x = y \/ exists s1 s2, x = S754_zero s1 /\ y = S754_zero s2.
Proof.
  destruct x as [s1 | s1 | | s1 m1 e1], y as [s2 | s2 | | s2 m2 e2]; simpl;
    intros H; try discriminate;
    try (destruct s1; discriminate); try (destruct s2; discriminate).
  - right. eauto.
  - left. destruct s1, s2; congruence.
  - left.
    assert (He : (e1 ?= e2)%Z = Eq /\ Pos.compare_cont Eq m1 m2 = Eq).
    { destruct s1, s2; try discriminate;
        destruct (e1 ?= e2)%Z; try discriminate;
        destruct (Pos.compare_cont Eq m1 m2); try discriminate; auto. }
    destruct He as [He Hm].
    apply Z.compare_eq in He. apply Pos.compare_eq in Hm.
    destruct s1, s2; try discriminate; congruence.
Qed.

Lemma is_nan_spec (x : float) :
  is_nan x = match Prim2SF x with S754_nan => true | _ => false end.
Proof.
  unfold is_nan. rewrite eqb_spec. unfold SFeqb.
  destruct (Prim2SF x) eqn:E; try reflexivity;
    rewrite SFcompare_refl by discriminate; reflexivity.
Qed.

Lemma Prim2SF_not_nan (x : float) : is_nan x = false -> Prim2SF x <> S754_nan.
Proof. rewrite is_nan_spec. intros H E. rewrite E in H. discriminate. Qed.

Lemma SFcompare_some (x y : spec_float) :
  x <> S754_nan -> y <> S754_nan -> exists c, SFcompare x y = Some c.
Proof.
  destruct x, y; simpl; intros; try congruence; eauto.
Qed.

(** On numbers that are not NaN, [<=] is the negation of the converse [<]. *)
Lemma leb_negb_ltb (a b : float) :
  is_nan a = false -> is_nan b = false -> (a <=? b) = negb (b <? a).
Proof.
  intros Ha Hb. apply Prim2SF_not_nan in Ha. apply Prim2SF_not_nan in Hb.
  rewrite leb_spec, ltb_spec. unfold SFleb, SFltb.
  rewrite (SFcompare_antisym (Prim2SF a) (Prim2SF b)).
  destruct (SFcompare_some _ _ Ha Hb) as [c Hc]. rewrite Hc.
  destruct c; reflexivity.
Qed.

Lemma ltb_asym (a b : float) : (a <? b) = true -> (b <? a) = false.
Proof.
  rewrite !ltb_spec. unfold SFltb.
  rewrite (SFcompare_antisym (Prim2SF a) (Prim2SF b)).
  destruct (SFcompare (Prim2SF a) (Prim2SF b)) as [[ | | ] | ]; simpl; congruence.
Qed.

Lemma number_eqb_refl (a : float) : is_nan a = false -> (a =? a) = true.
Proof. unfold is_nan. now destruct (a =? a). Qed.

Lemma ltb_not_eqb (a b : float) : (a <? b) = true -> (b =? a) = false.
Proof.
  rewrite ltb_spec, eqb_spec. unfold SFltb, SFeqb.
  rewrite (SFcompare_antisym (Prim2SF a) (Prim2SF b)).
  destruct (SFcompare (Prim2SF a) (Prim2SF b)) as [[ | | ] | ]; simpl; congruence.
Qed.

(** Two numbers neither of which is below the other are the same number,
    unless both are zeros. *)
Lemma tie_eq (a b : float) :
  is_nan a = false -> is_nan b = false ->
  (a <? b) = false -> (b <? a) = false ->
  a = b \/ (is_zero a = true /\ is_zero b = true).
Proof.
  intros Ha Hb Hab Hba.
  pose proof (Prim2SF_not_nan _ Ha) as Na. pose proof (Prim2SF_not_nan _ Hb) as Nb.
  rewrite ltb_spec in Hab, Hba. unfold SFltb in Hab, Hba.
  rewrite (SFcompare_antisym (Prim2SF a) (Prim2SF b)) in Hba.
  destruct (SFcompare_some _ _ Na Nb) as [c Hc]. rewrite Hc in Hab, Hba.
  destruct c; simpl in *; try discriminate.
  destruct (SFcompare_Eq _ _ Hc) as [E | (s1 & s2 & E1 & E2)].
  - left. now apply Prim2SF_inj.
  - right. unfold is_zero. rewrite !eqb_spec, E1, E2. split; reflexivity.
Qed.

Lemma one_not_below_zero (z : float) : is_zero z = true -> (1 <? z) = false.
Proof.
  unfold is_zero. rewrite eqb_spec, ltb_spec. unfold SFeqb, SFltb.
  change (Prim2SF zero) with (S754_zero false).
  change (Prim2SF 1) with (S754_finite false 4503599627370496 (-52)).
  destruct (Prim2SF z) as [s | s | | s m e]; simpl; try discriminate; try reflexivity.
  - destruct s; discriminate.
  - destruct s; discriminate.
Qed.

(** [Math.max] of two numbers that are not NaN, the second at least the first. *)
Lemma Math_max_le (w h : float) :
  is_nan w = false -> is_nan h = false -> (w <=? h) = true ->
  (1 <? JS.Math_max w h) = true -> JS.Math_max w h = h.
Proof.
  intros Hw Hh Hle H1. unfold JS.Math_max in *. rewrite Hw, Hh in *. simpl in *.
  rewrite (leb_negb_ltb w h Hw Hh) in Hle. apply negb_true_iff in Hle. rewrite Hle in *.
  destruct (w <? h) eqn:Hlt; [reflexivity|].
  destruct (tie_eq w h Hw Hh Hlt Hle) as [E | [Zw Zh]].
  - subst. now destruct (get_sign h).
  - destruct (get_sign w).
    + now rewrite (one_not_below_zero _ Zh) in H1.
    + now rewrite (one_not_below_zero _ Zw) in H1.
Qed.

(** [Math.max] of two numbers that are not NaN, the first above the second. *)
Lemma Math_max_gt (w h : float) :
  is_nan w = false -> is_nan h = false -> (h <? w) = true -> JS.Math_max w h = w.
Proof.
  intros Hw Hh Hlt. unfold JS.Math_max. rewrite Hw, Hh. simpl.
  now rewrite (ltb_asym _ _ Hlt), Hlt.
Qed.

Lemma clampScale_not_nan (v : number) : is_nan (clampScale v) = false.
Proof.
  unfold clampScale, JS.Number_isNaN, JS.lt.
  destruct (is_nan v) eqn:E; simpl; [reflexivity|].
  destruct (v <? 0); [reflexivity | assumption].
Qed.

Lemma clampScale_not_negative (v : number) : (clampScale v <? 0) = false.
Proof.
  unfold clampScale, JS.Number_isNaN, JS.lt.
  destruct (is_nan v) eqn:E; simpl; [reflexivity|].
  destruct (v <? 0) eqn:L; [reflexivity | assumption].
Qed.

End NumberFacts.

(** ** The text field of a token *)

Section TokenDisplay.

Variable I : Imports.

Local Open Scope float_scope.

Lemma selected_text (v : option string) (c : string) :
  (let selector := toLowerCase I (match v with Some x => x | None => "" end) in
   if String.eqb selector "lowercase" then toLowerCase I c
   else if String.eqb selector "uppercase" then toUpperCase I c
   else if String.eqb selector "capitalize" then capitalize I c
   else c)
  = applyTransform I (selectedTransform I v) c.
Proof.
  unfold selectedTransform. cbv zeta.
  destruct (String.eqb _ "lowercase"); [reflexivity|].
  destruct (String.eqb _ "uppercase"); [reflexivity|].
  destruct (String.eqb _ "capitalize"); reflexivity.
Qed.

(** The text field made for a token: the call returns, leaves the instance
    as it was, and the field's text, font size and scale are as follows. *)
Lemma createTextFieldForToken_returns (token : TextSegmentToken) (s : TaggedText) :
  exists tf,
    createTextFieldForToken I token s = Returned tf s
    /\ tf_text tf
       = applyTransform I (selectedTransform I (textTransform (style token)))
           (content token)
    /\ fontSize (tf_style tf)
       = (let larger :=
            JS.Math_max (scaleFactor (fontScaleWidth (style token)))
              (scaleFactor (fontScaleHeight (style token))) in
          if JS.gt larger 1
          then Some (FontSizeNumber
                       (numericFontSize I
                          (PIXI_Text_fontSize I (fontSize (style token)))
                        * larger))
          else PIXI_Text_fontSize I (fontSize (style token)))
    /\ tf_scale tf
       = (let w := scaleFactor (fontScaleWidth (style token)) in
          let h := scaleFactor (fontScaleHeight (style token)) in
          let larger := JS.Math_max w h in
          if JS.gt larger 1
          then if JS.strict_eq larger h then (w / larger, 1) else (1, h / larger)
          else (w, h)).
Proof.
  unfold createTextFieldForToken, createTextField, bind, ret, scaleFactor.
  cbv zeta.
  set (w := clampScale _). set (h := clampScale _).
  rewrite selected_text.
  destruct (JS.gt (JS.Math_max w h) 1) eqn:G.
  - destruct (JS.strict_eq (JS.Math_max w h) h) eqn:E;
      eexists; (split; [reflexivity|]); simpl; repeat split;
      unfold numericFontSize;
      destruct (PIXI_Text_fontSize I (fontSize (style token))) as [[n | str] | ];
      reflexivity.
  - eexists; (split; [reflexivity|]); simpl; repeat split.
Qed.

End TokenDisplay.

(** C1. For a text segment whose clamped scale factors have a maximum above
    1, the text field gets scale 1.0 on the axis holding the larger factor,
    the smaller factor divided by the larger on the other axis, and its font
    size multiplied by the larger factor: the font size is the one the text
    made by [createTextField] holds (0 if it holds none, a string size
    converted to a number) times the larger factor.  Factors (2.0, 1.0) give
    scales (1.0, 0.5) and factors (1.0, 3.0) give scales (1/3, 1.0). *)
Theorem scale_normalization (I : Imports) :
  (forall (token : TextSegmentToken) (s : TaggedText),
      let w := scaleFactor (fontScaleWidth (style token)) in
      let h := scaleFactor (fontScaleHeight (style token)) in
      JS.gt (JS.Math_max w h) 1%float = true ->
      exists made tf,
        createTextField I (transformedText I token) (sanitizedStyle I token) s
        = Returned made s
        /\ createTextFieldForToken I token s = Returned tf s
        /\ tf_scale tf
           = (if (w <=? h)%float then ((w / h)%float, 1%float)
              else (1%float, (h / w)%float))
        /\ fontSize (tf_style tf)
           = Some (FontSizeNumber
                     (numericFontSize I (fontSize (tf_style made))
                      * (if (w <=? h)%float then h else w))%float))
  /\ (forall (token : TextSegmentToken) (s : TaggedText),
         fontScaleWidth (style token) = Some 2%float ->
         fontScaleHeight (style token) = Some 1%float ->
         exists tf,
           createTextFieldForToken I token s = Returned tf s
           /\ tf_scale tf = (1%float, 0.5%float))
  /\ (forall (token : TextSegmentToken) (s : TaggedText),
         fontScaleWidth (style token) = Some 1%float ->
         fontScaleHeight (style token) = Some 3%float ->
         exists tf,
           createTextFieldForToken I token s = Returned tf s
           /\ tf_scale tf = ((1 / 3)%float, 1%float)).
Proof.
  assert (General : forall (token : TextSegmentToken) (s : TaggedText),
      let w := scaleFactor (fontScaleWidth (style token)) in
      let h := scaleFactor (fontScaleHeight (style token)) in
      JS.gt (JS.Math_max w h) 1%float = true ->
      exists tf,
        createTextFieldForToken I token s = Returned tf s
        /\ tf_scale tf
           = (if (w <=? h)%float then ((w / h)%float, 1%float)
              else (1%float, (h / w)%float))
        /\ fontSize (tf_style tf)
           = Some (FontSizeNumber
                     (numericFontSize I
                        (PIXI_Text_fontSize I (fontSize (style token)))
                      * (if (w <=? h)%float then h else w))%float)).
  { intros token s w h G.
    destruct (createTextFieldForToken_returns I token s) as (tf & R & _ & F & S).
    exists tf. split; [exact R|].
    fold w h in F, S. cbv zeta in F, S. rewrite G in F, S.
    assert (Nw : is_nan w = false) by apply clampScale_not_nan.
    assert (Nh : is_nan h = false) by apply clampScale_not_nan.
    destruct (w <=? h)%float eqn:L.
    - rewrite (Math_max_le w h Nw Nh L G) in F, S.
      unfold JS.strict_eq in S. rewrite (number_eqb_refl h Nh) in S. auto.
    - rewrite (leb_negb_ltb w h Nw Nh) in L. apply negb_false_iff in L.
      rewrite (Math_max_gt w h Nw Nh L) in F, S.
      unfold JS.strict_eq in S. rewrite (ltb_not_eqb h w L) in S. auto. }
  split.
  { intros token s w h G.
    destruct (General token s G) as (tf & R & S & F).
    eexists. exists tf. split; [reflexivity|]. split; [exact R|].
    split; [exact S | exact F]. }
  split; intros token s Hw Hh;
    destruct (General token s) as (tf & R & S & _);
    try (exists tf; split; [exact R|]; rewrite S);
    rewrite ?Hw, ?Hh; reflexivity.
Qed.

Lemma scale_normalization_witness :
  JS.gt (JS.Math_max (scaleFactor (Some 2%float)) (scaleFactor (Some 1%float)))
        1%float = true
  /\ exists tf,
       createTextFieldForToken Demo.imports
         (Demo.textToken "abc" (Demo.scaled (Some 2%float) (Some 1%float))) initial
       = Returned tf initial
       /\ tf_scale tf = (1%float, 0.5%float)
       /\ fontSize (tf_style tf) = Some (FontSizeNumber 20%float).
Proof.
  split; [reflexivity|].
  destruct (proj1 (scale_normalization Demo.imports)
              (Demo.textToken "abc" (Demo.scaled (Some 2%float) (Some 1%float)))
              initial eq_refl) as (made & tf & M & R & S & F).
  exists tf. split; [exact R|]. split; [exact S|].
  injection M as <-. exact F.
Defined.

(** ** Decoration drawings *)

Section Decorations.

Local Open Scope float_scope.

Lemma Math_max_zero (a : float) :
  (JS.Math_max a 0 <? 0) = false
  /\ is_nan (JS.Math_max a 0) = is_nan a
  /\ (is_nan (JS.Math_max a 0) = true \/ (0 <=? JS.Math_max a 0) = true).
Proof.
  unfold JS.Math_max.
  destruct (is_nan a) eqn:Na; simpl.
  - repeat split; auto.
  - change (is_nan 0) with false. cbv iota.
    destruct (a <? 0) eqn:L.
    + repeat split; auto.
    + assert (P : (0 <=? a) = true).
      { rewrite (leb_negb_ltb 0 a eq_refl Na), L. reflexivity. }
      destruct (0 <? a); [repeat split; auto|].
      destruct (get_sign a); repeat split; auto.
Qed.

(** What [createDrawingForTextDecoration] returns: a rectangle whose width
    is the overdrawn width, not below zero, and the colour and warning the
    colour format decides. *)
Lemma createDrawingForTextDecoration_returns (d : TextDecorationMetrics)
    (s : TaggedText) :
  exists g,
    createDrawingForTextDecoration d s
    = Returned g
        (match td_color d with
         | ColorString c =>
             if JS.indexOf_is_0 "#" c then s
             else set_warnings (INVALID_COLOR_WARNING :: warnings s) s
         | ColorNumber _ => s
         end)
    /\ fillColor g
       = match td_color d with
         | ColorString c =>
             if JS.indexOf_is_0 "#" c
             then ColorNumber (JS.parseInt16 ("0x" ++ JS.substring_1 c))
             else ColorString c
         | ColorNumber n => ColorNumber n
         end
    /\ Bounds.width (rect g)
       = JS.Math_max
           (Bounds.width (td_bounds d)
            + (match overdrawDecorations (_options s) with
               | Some v => v
               | None => 0
               end) * 2)
           0.
Proof.
  unfold createDrawingForTextDecoration, bind, get, ret, logWarning, modify.
  destruct (td_color d) as [n | c]; simpl.
  - eexists; repeat split.
  - destruct (JS.indexOf_is_0 "#" c); simpl; eexists; repeat split.
Qed.

End Decorations.

(** C4 (amended). For every decoration and every value of the
    [overdrawDecorations] option, the rectangle of the drawing made for the
    decoration has a width that is never below zero.  The width is NaN
    exactly when the overdrawn width, [bounds.width + overdraw * 2], is NaN;
    in every other case it is at least zero. *)
Theorem decoration_width_never_negative (d : TextDecorationMetrics)
    (s s' : TaggedText) (g : Graphics) :
  createDrawingForTextDecoration d s = Returned g s' ->
  let overdrawn :=
    (Bounds.width (td_bounds d)
     + (match overdrawDecorations (_options s) with
        | Some v => v
        | None => 0
        end) * 2)%float in
  JS.lt (Bounds.width (rect g)) 0%float = false
  /\ JS.Number_isNaN (Bounds.width (rect g)) = JS.Number_isNaN overdrawn
  /\ (JS.Number_isNaN overdrawn = false ->
      (0 <=? Bounds.width (rect g))%float = true).
Proof.
  intros R overdrawn.
  destruct (createDrawingForTextDecoration_returns d s) as (g0 & R0 & _ & W).
  rewrite R0 in R. injection R as <- _.
  unfold JS.lt, JS.Number_isNaN. rewrite W. fold overdrawn.
  destruct (Math_max_zero overdrawn) as (A & B & C).
  split; [exact A|]. split; [exact B|].
  intros N. destruct C as [C | C]; [|exact C].
  rewrite B in C. congruence.
Qed.

Lemma decoration_width_never_negative_witness :
  exists g,
    createDrawingForTextDecoration
      (mkDecoration (Bounds.mk 0 0 10 2) (ColorNumber 0))%float
      (set_options Demo.overdrawing initial)
    = Returned g (set_options Demo.overdrawing initial)
    /\ Bounds.width (rect g) = 0%float
    /\ JS.lt (Bounds.width (rect g)) 0%float = false.
Proof.
  eexists. split; [reflexivity|]. split; [reflexivity|].
  exact (proj1 (decoration_width_never_negative
                  (mkDecoration (Bounds.mk 0 0 10 2) (ColorNumber 0))%float
                  (set_options Demo.overdrawing initial) _ _ eq_refl)).
Defined.

(** C4, as stated, fails: the width is not non-negative for every value.  A
    decoration whose bounds have a NaN width, and a decoration of infinite
    width overdrawn by minus infinity, both get a drawing whose width is
    NaN, which is not at least zero. *)
Lemma decoration_width_not_a_number :
  (exists g,
      createDrawingForTextDecoration
        (mkDecoration (Bounds.mk 0 0 nan 1) (ColorNumber 0))%float initial
      = Returned g initial
      /\ JS.Number_isNaN (Bounds.width (rect g)) = true
      /\ (0 <=? Bounds.width (rect g))%float = false)
  /\ (exists g,
         createDrawingForTextDecoration
           (mkDecoration (Bounds.mk 0 0 infinity 1) (ColorNumber 0))%float
           (set_options Demo.overdrawingWithoutBound initial)
         = Returned g (set_options Demo.overdrawingWithoutBound initial)
         /\ JS.Number_isNaN (Bounds.width (rect g)) = true
         /\ (0 <=? Bounds.width (rect g))%float = false).
Proof.
  split; eexists; (split; [reflexivity|]); split; reflexivity.
Qed.

(** C6 (amended). A decoration colour given as a string that does not start
    with [#] raises the [invalid-color] warning and is handed to the fill
    unchanged: nothing corrects it.  A string that starts with [#] is
    replaced by the number [parseInt] reads from its hexadecimal digits (NaN
    when there is none) and raises no warning; a numeric colour is used as
    it is.  The warning is raised whether or not a drawing results; the
    colour is that of the drawing when one is made. *)
Theorem decoration_color_handling (d : TextDecorationMetrics) (s : TaggedText) :
  warnings (final (createDrawingForTextDecoration d s))
  = match td_color d with
    | ColorString c =>
        if JS.indexOf_is_0 "#" c then warnings s
        else INVALID_COLOR_WARNING :: warnings s
    | ColorNumber _ => warnings s
    end
  /\ forall (g : Graphics) (s' : TaggedText),
       createDrawingForTextDecoration d s = Returned g s' ->
       fillColor g
       = match td_color d with
         | ColorString c =>
             if JS.indexOf_is_0 "#" c
             then ColorNumber
                    (match JS.hex_prefix (JS.substring_1 c) with
                     | [] => nan
                     | ds => JS.Number_of_N (JS.hex_value ds)
                     end)
             else ColorString c
         | ColorNumber n => ColorNumber n
         end.
Proof.
  destruct (createDrawingForTextDecoration_returns d s) as (g0 & R0 & F & _).
  split.
  - rewrite R0. destruct (td_color d) as [n | c]; [reflexivity|].
    destruct (JS.indexOf_is_0 "#" c); reflexivity.
  - intros g s' R. rewrite R0 in R. injection R as <- _. rewrite F.
    destruct (td_color d) as [n | c]; [reflexivity|].
    destruct (JS.indexOf_is_0 "#" c); reflexivity.
Qed.

(** C6, as stated, fails: the colour string [red] is not corrected to any
    safe value, the fill receives the string itself. *)
Lemma unsupported_color_not_corrected :
  JS.indexOf_is_0 "#" "red" = false
  /\ exists g,
       createDrawingForTextDecoration (Demo.decoration (ColorString "red")) initial
       = Returned g (set_warnings [INVALID_COLOR_WARNING] initial)
       /\ fillColor g = ColorString "red".
Proof.
  split; [reflexivity|].
  destruct (createDrawingForTextDecoration_returns
              (Demo.decoration (ColorString "red")) initial) as (g & R & F & _).
  exists g. split; [exact R | exact F].
Qed.

(** C9 (amended). The text of the field made for a text segment is the case
    transform selected by the [textTransform] value compared without regard
    to case: a value that lower-cases to [lowercase], [uppercase] or
    [capitalize] selects that transform, any other value or none leaves the
    content unchanged.  On the three keys spelled in lower case this is the
    selection by the exact key.  The upper-case and lower-case transforms
    are those of [toUpperCase] and [toLowerCase]: on content of ASCII
    characters they replace the letters a to z and A to Z. *)
Theorem text_transform_applied (I : Imports) :
  (forall (token : TextSegmentToken) (s : TaggedText),
      exists tf,
        createTextFieldForToken I token s = Returned tf s
        /\ tf_text tf
           = applyTransform I (selectedTransform I (textTransform (style token)))
               (content token))
  /\ selectedTransform I (Some "lowercase") = Lowercase
  /\ selectedTransform I (Some "uppercase") = Uppercase
  /\ selectedTransform I (Some "capitalize") = Capitalize
  /\ selectedTransform I None = Unchanged
  /\ (forall v, exactTransform v = Unchanged
                \/ selectedTransform I v = exactTransform v)
  /\ (forall c, JS.is_ascii c = true ->
                applyTransform I Uppercase c = JS.map_string JS.upper_char c
                /\ applyTransform I Lowercase c = JS.map_string JS.lower_char c).
Proof.
  split.
  { intros token s.
    destruct (createTextFieldForToken_returns I token s) as (tf & R & T & _).
    eauto. }
  repeat (split; [reflexivity|]).
  split.
  { intros [k | ]; [|now left]. unfold exactTransform.
    destruct (String.eqb k "lowercase") eqn:E1.
    { apply String.eqb_eq in E1. subst. now right. }
    destruct (String.eqb k "uppercase") eqn:E2.
    { apply String.eqb_eq in E2. subst. now right. }
    destruct (String.eqb k "capitalize") eqn:E3.
    { apply String.eqb_eq in E3. subst. now right. }
    now left. }
  intros c A. unfold applyTransform, toUpperCase, toLowerCase,
    JS.toUpperCase, JS.toLowerCase. now rewrite A.
Qed.

(** C9, as stated, fails: [UPPERCASE] is none of the three keys, yet the
    content is upper-cased. *)
Lemma uppercase_key_in_capitals :
  exactTransform (Some "UPPERCASE") = Unchanged
  /\ exists tf,
       createTextFieldForToken Demo.imports
         (Demo.textToken "abc" (Demo.transformed "UPPERCASE")) initial
       = Returned tf initial
       /\ tf_text tf = "ABC"
       /\ tf_text tf <> "abc".
Proof.
  split; [reflexivity|].
  destruct (createTextFieldForToken_returns Demo.imports
              (Demo.textToken "abc" (Demo.transformed "UPPERCASE")) initial)
    as (tf & R & T & _).
  exists tf. split; [exact R|]. split; [exact T|].
  rewrite T. discriminate.
Qed.


(** ** Invalid scale factors *)

Lemma clampScale_invalid (v : number) :
  JS.Number_isNaN v = true \/ JS.lt v 0%float = true -> clampScale v = 0%float.
Proof.
  unfold clampScale. intros [H | H]; rewrite H; [reflexivity|].
  now rewrite orb_true_r.
Qed.

(** C5 (amended). A [fontScaleWidth] or [fontScaleHeight] that is NaN or
    negative (minus infinity included) is replaced by 0 before it is used:
    the text field has the scale and the font size of the field made with 0
    in its place, the call returns and the instance, its warnings included,
    is left as it was.  An absent factor counts as 1. *)
Theorem invalid_scale_clamped (I : Imports) (token : TextSegmentToken)
    (s : TaggedText) (v : number) :
  JS.Number_isNaN v = true \/ JS.lt v 0%float = true ->
  scaleFactor (Some v) = 0%float
  /\ scaleFactor None = 1%float
  /\ (exists tf tf0,
         createTextFieldForToken I (withScaleWidth (Some v) token) s
         = Returned tf s
         /\ createTextFieldForToken I (withScaleWidth (Some 0%float) token) s
            = Returned tf0 s
         /\ tf_scale tf = tf_scale tf0
         /\ fontSize (tf_style tf) = fontSize (tf_style tf0))
  /\ (exists tf tf0,
         createTextFieldForToken I (withScaleHeight (Some v) token) s
         = Returned tf s
         /\ createTextFieldForToken I (withScaleHeight (Some 0%float) token) s
            = Returned tf0 s
         /\ tf_scale tf = tf_scale tf0
         /\ fontSize (tf_style tf) = fontSize (tf_style tf0)).
Proof.
  intros H.
  assert (E : scaleFactor (Some v) = scaleFactor (Some 0%float)).
  { unfold scaleFactor. now rewrite (clampScale_invalid v H). }
  split; [unfold scaleFactor; now apply clampScale_invalid|].
  split; [reflexivity|].
  split.
  - destruct (createTextFieldForToken_returns I (withScaleWidth (Some v) token) s)
      as (tf & R & _ & F & S).
    destruct (createTextFieldForToken_returns I
                (withScaleWidth (Some 0%float) token) s)
      as (tf0 & R0 & _ & F0 & S0).
    exists tf, tf0. simpl in *. rewrite E in F, S.
    repeat split; congruence.
  - destruct (createTextFieldForToken_returns I (withScaleHeight (Some v) token) s)
      as (tf & R & _ & F & S).
    destruct (createTextFieldForToken_returns I
                (withScaleHeight (Some 0%float) token) s)
      as (tf0 & R0 & _ & F0 & S0).
    exists tf, tf0. simpl in *. rewrite E in F, S.
    repeat split; congruence.
Qed.

Lemma invalid_scale_clamped_witness :
  (JS.Number_isNaN nan = true \/ JS.lt nan 0%float = true)
  /\ scaleFactor (Some nan) = 0%float
  /\ exists tf,
       createTextFieldForToken Demo.imports
         (withScaleWidth (Some nan) (Demo.textToken "abc" (Demo.scaled None None)))
         initial
       = Returned tf initial.
Proof.
  split; [left; reflexivity|].
  destruct (invalid_scale_clamped Demo.imports
              (Demo.textToken "abc" (Demo.scaled None None)) initial nan
              (or_introl eq_refl)) as (Z & _ & (tf & tf0 & R & _) & _).
  split; [exact Z|]. exists tf. exact R.
Defined.

(** C5, as stated, fails: plus infinity is not finite, and it is not clamped
    to 0 or 1; it multiplies the font size, which becomes infinite. *)
Lemma infinite_scale_not_clamped :
  is_finite infinity = false
  /\ (scaleFactor (Some infinity) =? 0)%float = false
  /\ (scaleFactor (Some infinity) =? 1)%float = false
  /\ exists tf,
       createTextFieldForToken Demo.imports
         (Demo.textToken "abc" (Demo.scaled (Some infinity) None)) initial
       = Returned tf initial
       /\ fontSize (tf_style tf) = Some (FontSizeNumber infinity).
Proof.
  repeat (split; [reflexivity|]).
  destruct (createTextFieldForToken_returns Demo.imports
              (Demo.textToken "abc" (Demo.scaled (Some infinity) None)) initial)
    as (tf & R & _ & F & _).
  exists tf. split; [exact R | exact F].
Qed.


(** ** The debug listing *)

(** C7 (amended). [toDebugString] reads the text and the token tree of the
    instance and nothing else: whatever the options, the flags, the style
    table, the sprite templates, the display objects and the logs of the
    instance are replaced by, the string it returns for that text and that
    token tree is the same.  It is a function of the instance and changes
    nothing. *)
Theorem debug_string_of_text_and_tokens (I : Imports) (s : TaggedText)
    (options : TaggedTextOptions) (needsUpdate needsDraw : bool)
    (tagStyles : TextStyleSet) (spriteTemplates : ImageMap) (display : Scene)
    (reported : list (string * string)) (logged : list string)
    (run : list Pass) :
  toDebugString I
    (mkTaggedText options needsUpdate needsDraw (_tokens s) (_text s) tagStyles
       spriteTemplates display reported logged run)
  = toDebugString I s.
Proof. reflexivity. Qed.

(** C7, as stated, fails: two instances built with updates skipped have the
    same, empty, token tree and different texts, and they give different
    strings, because the listing starts with the untagged text. *)
Lemma debug_string_depends_on_text :
  _tokens (Demo.unprocessed "a") = _tokens (Demo.unprocessed "b")
  /\ toDebugString Demo.imports (Demo.unprocessed "a")
     <> toDebugString Demo.imports (Demo.unprocessed "b").
Proof.
  split; [vm_compute; reflexivity|]. vm_compute. discriminate.
Qed.

(** ** A program logic for the methods *)

Section Logic.

(** [R] relates the state before a call to the state after it, however the
    call ends. *)
Variable R : TaggedText -> TaggedText -> Prop.
Hypothesis R_refl : forall s, R s s.
Hypothesis R_trans : forall s1 s2 s3, R s1 s2 -> R s2 s3 -> R s1 s3.

Lemma hoare_ret (A : Type) (a : A) (Q : A -> TaggedText -> Prop) :
  hoare R (Q a) (ret a) Q.
Proof. intros s. split; [apply R_refl|]. intros H. now exists a, s. Qed.

Lemma hoare_get (Q : TaggedText -> TaggedText -> Prop) :
  hoare R (fun s => Q s s) get Q.
Proof. intros s. split; [apply R_refl|]. intros H. now exists s, s. Qed.

Lemma hoare_modify (f : TaggedText -> TaggedText) (Q : unit -> TaggedText -> Prop) :
  (forall s, R s (f s)) ->
  hoare R (fun s => Q tt (f s)) (modify f) Q.
Proof. intros Hf s. split; [apply Hf|]. intros H. now exists tt, (f s). Qed.


Lemma hoare_bind (A B : Type) (P : TaggedText -> Prop) (m : M A)
    (Q1 : A -> TaggedText -> Prop) (k : A -> M B) (Q2 : B -> TaggedText -> Prop) :
  hoare R P m Q1 -> (forall a, hoare R (Q1 a) (k a) Q2) -> hoare R P (bind m k) Q2.
Proof.
  intros Hm Hk s. destruct (Hm s) as [Rm Tm]. unfold bind.
  destruct (m s) as [a s1 | e s1] eqn:E; simpl in *.
  - destruct (Hk a s1) as [Rk Tk]. split.
    + eapply R_trans; eassumption.
    + intros HP. destruct (Tm HP) as (a' & s' & Ea & HQ).
      injection Ea as -> ->. now apply Tk.
  - split; [assumption|]. intros HP.
    destruct (Tm HP) as (a' & s' & Ea & _). discriminate.
Qed.

Lemma hoare_conseq (A : Type) (P P' : TaggedText -> Prop) (m : M A)
    (Q Q' : A -> TaggedText -> Prop) :
  hoare R P m Q -> (forall s, P' s -> P s) -> (forall a s, Q a s -> Q' a s) ->
  hoare R P' m Q'.
Proof.
  intros H HP HQ s. destruct (H s) as [Rm Tm]. split; [assumption|].
  intros H'. destruct (Tm (HP s H')) as (a & s' & E & Hq). eauto.
Qed.

Lemma hoare_when (c : bool) (m : M unit) (P : TaggedText -> Prop)
    (Q : unit -> TaggedText -> Prop) :
  (c = true -> hoare R P m Q) -> (c = false -> forall s, P s -> Q tt s) ->
  hoare R P (when c m) Q.
Proof.
  destruct c; simpl; intros Ht Hf; [now apply Ht|].
  intros s. split; [apply R_refl|]. intros HP. exists tt, s. auto.
Qed.

(** The rule for [forEach]: [Inv] is indexed by the elements still to visit. *)
Lemma hoare_forEach (A B : Type) (f : A -> B -> M B)
    (Inv : list A -> B -> TaggedText -> Prop) :
  (forall a l acc, hoare R (Inv (a :: l) acc) (f a acc) (fun acc' => Inv l acc')) ->
  forall l acc, hoare R (Inv l acc) (forEach f l acc) (fun acc' => Inv [] acc').
Proof.
  intros Hf. induction l as [| a l IH]; intros acc; simpl.
  - apply hoare_ret.
  - eapply hoare_bind; [apply Hf|]. intros acc'. apply IH.
Qed.

(** Reading the state: the continuation runs from the state it is given. *)
Lemma hoare_get_bind (B : Type) (P : TaggedText -> Prop) (k : TaggedText -> M B)
    (Q : B -> TaggedText -> Prop) :
  (forall s0, hoare R (fun s => P s /\ s = s0) (k s0) Q) ->
  hoare R P (bind get k) Q.
Proof.
  intros H s. destruct (H s s) as [Rk Tk]. unfold bind, get. simpl.
  split; [exact Rk|]. intros HP. apply Tk. auto.
Qed.

Lemma hoare_if (A : Type) (c : bool) (m1 m2 : M A) (P : TaggedText -> Prop)
    (Q : A -> TaggedText -> Prop) :
  hoare R P m1 Q -> hoare R P m2 Q -> hoare R P (if c then m1 else m2) Q.
Proof. now destruct c. Qed.

(** A fact that does not mention the state holds after the call as before. *)
Lemma hoare_pure (A : Type) (fact : Prop) (P : TaggedText -> Prop) (m : M A)
    (Q : A -> TaggedText -> Prop) :
  hoare R P m Q ->
  hoare R (fun s => fact /\ P s) m (fun a s => fact /\ Q a s).
Proof.
  intros H s. destruct (H s) as [Rm Tm]. split; [exact Rm|].
  intros [F HP]. destruct (Tm HP) as (a & s' & E & HQ). eauto.
Qed.

End Logic.


(** ** The draw pass *)

Lemma quiet_refl (s : TaggedText) : quiet s s.
Proof. split; reflexivity. Qed.

Lemma quiet_trans (s1 s2 s3 : TaggedText) : quiet s1 s2 -> quiet s2 s3 -> quiet s1 s3.
Proof. unfold quiet. intros [A B] [C D]. split; congruence. Qed.

Lemma sameCore_refl (s : TaggedText) : sameCore s s.
Proof. reflexivity. Qed.

Lemma sameCore_trans (s1 s2 s3 : TaggedText) :
  sameCore s1 s2 -> sameCore s2 s3 -> sameCore s1 s3.
Proof. unfold sameCore. congruence. Qed.

Section DebugOverlay.

Variable I : Imports.

Ltac run := unfold bind, get, modify_scene, modify, ret, throw, when; simpl.

Lemma addDebugChild_ok (child : DebugChild) :
  hoare quiet debugReady (addDebugChild child) (fun _ => debugReady).
Proof.
  intros s. unfold addDebugChild. run.
  destruct (_debugContainer (scene s)) as [l | ] eqn:E; simpl.
  - split; [split; reflexivity|]. intros [_ D]. do 2 eexists.
    split; [reflexivity|]. split; [simpl; discriminate | exact D].
  - split; [apply quiet_refl|]. intros [C _]. congruence.
Qed.

Lemma gdraw_ok (cmds : list DebugCmd) :
  hoare quiet debugReady (gdraw cmds) (fun _ => debugReady).
Proof.
  intros s. unfold gdraw. run. split; [split; reflexivity|].
  intros H. do 2 eexists. split; [reflexivity | exact H].
Qed.

Lemma drawDebugSegment_ok (t : SegmentToken) :
  hoare quiet debugReady (drawDebugSegment I t) (fun _ => debugReady).
Proof.
  unfold drawDebugSegment.
  apply (hoare_get_bind quiet). intros s0.
  apply (hoare_conseq quiet) with (P := debugReady) (Q := fun _ => debugReady);
    [| tauto | auto].
  eapply (hoare_bind quiet quiet_trans).
  { apply hoare_if; apply gdraw_ok. }
  intros ?.
  eapply (hoare_bind quiet quiet_trans).
  { apply hoare_if; [apply addDebugChild_ok | apply gdraw_ok]. }
  intros ?.
  apply (hoare_when quiet quiet_refl).
  - intros _. apply addDebugChild_ok.
  - auto.
Qed.

Lemma forEach_debugReady (A : Type) (f : A -> M unit) :
  (forall a, hoare quiet debugReady (f a) (fun _ => debugReady)) ->
  forall l, hoare quiet debugReady (forEach (fun a _ => f a) l tt)
              (fun _ => debugReady).
Proof.
  intros Hf l.
  apply (hoare_forEach quiet quiet_refl quiet_trans A unit (fun a (_ : unit) => f a)
           (fun _ _ => debugReady)).
  intros a _ _. apply Hf.
Qed.

Lemma drawDebugLine_ok (line : LineToken) :
  hoare quiet debugReady (drawDebugLine I line) (fun _ => debugReady).
Proof.
  unfold drawDebugLine.
  apply (hoare_get_bind quiet). intros s0.
  eapply (hoare_bind quiet quiet_trans) with (Q1 := fun _ => debugReady).
  - unfold defaultStyle.
    destruct (obj_get "default" (_tagStyles s0)) as [d | ] eqn:E.
    + apply (hoare_conseq quiet) with (P := debugReady) (Q := fun _ => debugReady);
        [| tauto | auto].
      apply (hoare_when quiet quiet_refl); [intros _; apply gdraw_ok | auto].
    + intros s. split; [apply quiet_refl|]. intros [[_ D] ->]. congruence.
  - intros ?. apply forEach_debugReady. intros word.
    apply forEach_debugReady. intros seg. apply drawDebugSegment_ok.
Qed.

Lemma drawDebug_ok :
  hoare quiet debugReady (drawDebug I) (fun _ => debugReady).
Proof.
  unfold drawDebug.
  apply (hoare_get_bind quiet). intros s0.
  eapply (hoare_bind quiet quiet_trans)
    with (Q1 := fun _ s => debugReady s /\ _debugContainer (scene s0) <> None).
  { intros s. run. split; [split; reflexivity|].
    intros [H ->]. do 2 eexists. split; [reflexivity|]. split; [exact H | apply H]. }
  intros ?.
  eapply (hoare_bind quiet quiet_trans) with (Q1 := fun _ => debugReady).
  { intros s. destruct (_debugContainer (scene s0)); run.
    - split; [apply quiet_refl|]. intros [H _]. eauto.
    - split; [apply quiet_refl|]. intros [_ H]. congruence. }
  intros ?.
  eapply (hoare_bind quiet quiet_trans); [apply addDebugChild_ok|].
  intros ?. apply forEach_debugReady. intros line. apply drawDebugLine_ok.
Qed.

End DebugOverlay.


Section TokenLoop.

Variable I : Imports.

(** The warnings the instance had when the loop started. *)
Variable before : list (string * string).

Ltac run := unfold bind, get, modify_scene, modify, ret, throw, when; simpl.

Let J := drawing before.

Lemma createTextFieldForToken_ok (token : TextSegmentToken) (P : TaggedText -> Prop) :
  hoare sameCore P (createTextFieldForToken I token) (fun _ => P).
Proof.
  intros s. destruct (createTextFieldForToken_returns I token s) as (tf & R & _).
  rewrite R. simpl. split; [reflexivity|]. eauto.
Qed.

Lemma addTextField_ok (f : TextField) :
  hoare sameCore J (addTextField f) (fun _ => J).
Proof.
  intros s. unfold addTextField. run.
  destruct (_textContainer (scene s)) as [l | ] eqn:E; simpl.
  - split; [reflexivity|]. intros [(T & S & D) G]. do 2 eexists.
    split; [reflexivity|]. split; [|exact G].
    repeat split; simpl; try assumption; discriminate.
  - split; [reflexivity|]. intros [(T & _) _]. congruence.
Qed.

Lemma addDecoration_ok (i : nat) (g : Graphics) :
  hoare sameCore J (addDecoration i g) (fun _ => J).
Proof.
  intros s. unfold addDecoration. run. split; [reflexivity|].
  intros H. do 2 eexists. split; [reflexivity | exact H].
Qed.

Lemma addSprite_ok (sp : Sprite) :
  hoare sameCore J (addSprite sp) (fun _ => J).
Proof.
  intros s. unfold addSprite. run.
  destruct (_spriteContainer (scene s)) as [l | ] eqn:E; simpl.
  - split; [reflexivity|]. intros [(T & S & D) G]. do 2 eexists.
    split; [reflexivity|]. split; [|exact G].
    repeat split; simpl; try assumption; discriminate.
  - split; [reflexivity|]. intros [(_ & S & _) _]. simpl in S. congruence.
Qed.

Lemma setPosition_ok (r : DisplayRef) (px py : number) :
  hoare sameCore J (setPosition r px py) (fun _ => J).
Proof.
  intros s. destruct r; unfold setPosition; run; (split; [reflexivity|]);
    intros H; do 2 eexists; (split; [reflexivity | exact H]).
Qed.

Lemma createDrawingForTextDecoration_ok (d : TextDecorationMetrics) :
  hoare sameCore J (createDrawingForTextDecoration d) (fun _ => J).
Proof.
  intros s. destruct (createDrawingForTextDecoration_returns d s) as (g & R & _).
  rewrite R. simpl. split.
  - destruct (td_color d) as [n | c]; [reflexivity|].
    destruct (JS.indexOf_is_0 "#" c); reflexivity.
  - intros [Sc (ws & W & F)]. do 2 eexists. split; [reflexivity|].
    destruct (td_color d) as [n | c]; [split; [exact Sc | now exists ws]|].
    destruct (JS.indexOf_is_0 "#" c); [split; [exact Sc | now exists ws]|].
    split; [exact Sc|]. exists (INVALID_COLOR_WARNING :: ws). simpl.
    split; [now rewrite W | now constructor].
Qed.

Lemma decorations_ok (i : nat) (ds : list TextDecorationMetrics) :
  hoare sameCore J
    (forEach (fun d _ =>
                drawing <- createDrawingForTextDecoration d ;;
                addDecoration i drawing) ds tt)
    (fun _ => J).
Proof.
  apply (hoare_forEach sameCore sameCore_refl sameCore_trans
           TextDecorationMetrics unit
           (fun d (_ : unit) =>
              drawing <- createDrawingForTextDecoration d ;; addDecoration i drawing)
           (fun _ _ => J)).
  intros d _ _.
  eapply (hoare_bind sameCore sameCore_trans);
    [apply createDrawingForTextDecoration_ok|].
  intros g. apply addDecoration_ok.
Qed.

(** One turn of the loop of [draw]: it returns, and [drewDecorations]
    becomes true exactly when the token is a text token with decorations. *)
Lemma drawToken_ok (t : SegmentToken) (acc : bool * option DisplayRef) :
  hoare sameCore J (drawToken I t acc)
    (fun acc' s =>
       J s /\ fst acc' = fst acc || (isTextToken t && hasDecorations t)).
Proof.
  unfold drawToken.
  eapply (hoare_bind sameCore sameCore_trans)
    with (Q1 := fun acc1 s =>
                  J s
                  /\ fst acc1 = fst acc || (isTextToken t && hasDecorations t)
                  /\ (isTextToken t = true -> snd acc1 <> None)).
  { unfold asTextToken, isTextToken, hasDecorations.
    destruct (content t) as [c | sp].
    - eapply (hoare_bind sameCore sameCore_trans);
        [apply createTextFieldForToken_ok|].
      intros tf.
      eapply (hoare_bind sameCore sameCore_trans); [apply addTextField_ok|].
      intros i.
      eapply (hoare_bind sameCore sameCore_trans)
        with (Q1 := fun drew s =>
                      J s
                      /\ drew = fst acc
                                || match textDecorations t with
                                   | Some (_ :: _) => true
                                   | _ => false
                                   end).
      + destruct (textDecorations t) as [[| d ds] | ].
        * intros s. simpl. split; [reflexivity|]. intros H. do 2 eexists.
          split; [reflexivity|]. split; [exact H | now rewrite orb_false_r].
        * eapply (hoare_bind sameCore sameCore_trans); [apply decorations_ok|].
          intros ?. intros s. simpl. split; [reflexivity|]. intros H.
          do 2 eexists. split; [reflexivity|]. split; [exact H|].
          now rewrite orb_true_r.
        * intros s. simpl. split; [reflexivity|]. intros H. do 2 eexists.
          split; [reflexivity|]. split; [exact H | now rewrite orb_false_r].
      + intros drew s. simpl. split; [reflexivity|]. intros [H D].
        do 2 eexists. split; [reflexivity|]. simpl.
        split; [exact H|]. split; [exact D | discriminate].
    - intros s. simpl. split; [reflexivity|]. intros H. do 2 eexists.
      split; [reflexivity|]. split; [exact H|].
      split; [now rewrite orb_false_r | discriminate]. }
  intros acc1.
  eapply (hoare_bind sameCore sameCore_trans)
    with (Q1 := fun acc2 s =>
                  J s
                  /\ fst acc2 = fst acc || (isTextToken t && hasDecorations t)
                  /\ snd acc2 <> None).
  { unfold isTextToken. destruct (content t) as [c | sp].
    - intros s. simpl. split; [reflexivity|]. intros (H & D & N).
      do 2 eexists. split; [reflexivity|]. auto.
    - eapply (hoare_bind sameCore sameCore_trans)
        with (Q1 := fun _ s =>
                      fst acc1 = fst acc || (false && hasDecorations t) /\ J s).
      + apply (hoare_conseq sameCore)
          with (P := fun s =>
                       fst acc1 = fst acc || (false && hasDecorations t) /\ J s)
               (Q := fun _ s =>
                       fst acc1 = fst acc || (false && hasDecorations t) /\ J s);
          [apply hoare_pure; apply addSprite_ok | tauto | auto].
      + intros ? s. simpl. split; [reflexivity|]. intros [D H].
        do 2 eexists. split; [reflexivity|]. simpl.
        split; [exact H|]. split; [exact D | discriminate]. }
  intros acc2.
  eapply (hoare_bind sameCore sameCore_trans)
    with (Q1 := fun _ s =>
                  fst acc2 = fst acc || (isTextToken t && hasDecorations t)
                  /\ J s).
  - destruct (snd acc2) as [r | ].
    + apply (hoare_conseq sameCore)
        with (P := fun s =>
                     fst acc2 = fst acc || (isTextToken t && hasDecorations t)
                     /\ J s)
             (Q := fun _ s =>
                     fst acc2 = fst acc || (isTextToken t && hasDecorations t)
                     /\ J s);
        [apply hoare_pure; apply setPosition_ok | tauto | auto].
    + intros s. simpl. split; [reflexivity|]. intros (_ & _ & N). congruence.
  - intros ? s. simpl. split; [reflexivity|]. intros [D H]. do 2 eexists.
    split; [reflexivity|]. split; [exact H | exact D].
Qed.

Lemma tokenLoop_ok (l : list SegmentToken) (acc : bool * option DisplayRef) :
  hoare sameCore J (forEach (drawToken I) l acc)
    (fun acc' s =>
       J s
       /\ fst acc'
          = fst acc || existsb (fun t => isTextToken t && hasDecorations t) l).
Proof.
  set (p := fun t => isTextToken t && hasDecorations t).
  set (target := fst acc || existsb p l).
  apply (hoare_conseq sameCore)
    with (P := fun s => (fst acc || existsb p l = target) /\ J s)
         (Q := fun acc' s => (fst acc' || existsb p [] = target) /\ J s).
  - apply (hoare_forEach sameCore sameCore_refl sameCore_trans
             SegmentToken (bool * option DisplayRef) (drawToken I)
             (fun rem a s => (fst a || existsb p rem = target) /\ J s)).
    intros t rem a.
    apply (hoare_conseq sameCore)
      with (P := fun s => (fst a || existsb p (t :: rem) = target) /\ J s)
           (Q := fun a' s =>
                   (fst a || existsb p (t :: rem) = target)
                   /\ (J s /\ fst a' = fst a || p t)).
    + apply hoare_pure. apply drawToken_ok.
    + auto.
    + intros a' s (T & HJ & E). split; [|exact HJ].
      rewrite E, <- T. simpl. now rewrite orb_assoc.
  - intros s HJ. split; [reflexivity | exact HJ].
  - intros acc' s [T HJ]. split; [exact HJ|].
    rewrite <- T. simpl. now rewrite orb_false_r.
Qed.

End TokenLoop.

Section DrawPass.

Variable I : Imports.

Lemma debugReady_of_drawable (s s' : TaggedText) :
  drawable s = true -> truthy_bool (debug (_options s)) = true ->
  _tagStyles s' = _tagStyles s -> _debugContainer (scene s') <> None ->
  debugReady s'.
Proof.
  unfold drawable, debugReady. intros D T E C. rewrite T in D. simpl in D.
  split; [exact C|]. rewrite E.
  destruct (obj_get "default" (_tagStyles s)); [discriminate | discriminate].
Qed.

(** The state in which the token loop of [draw] starts. *)
Lemma draw_unfold (s : TaggedText) :
  draw I s
  = (acc <- forEach (drawToken I) (renderedTokens I s) (false, None) ;;
     when (is_false (drawWhitespace (_options s)) && fst acc)
          (logWarning (fst WHITESPACE_WARNING) (snd WHITESPACE_WARNING)) ;;
     when (truthy_bool (debug (_options s))) (drawDebug I) ;;
     modify (set_needsDraw false))
      (set_scene
         (mkScene [] [] [] (_debugGraphics (scene s)) (Some []) (Some [])
            (Some []) (Some []) (spriteXY (scene s)))
         (set_passes (DrawPass :: passes s) s)).
Proof. reflexivity. Qed.

(** The end of [draw]: the debug overlay, then [needsDraw] is cleared. *)
Lemma draw_tail (s s4 : TaggedText) (new : list (string * string)) :
  kept s4 = kept s -> passes s4 = DrawPass :: passes s ->
  warnings s4 = (new ++ warnings s)%list ->
  _debugContainer (scene s4) <> None ->
  let o := (when (truthy_bool (debug (_options s))) (drawDebug I) ;;
            modify (set_needsDraw false)) s4 in
  kept (final o) = kept s
  /\ passes (final o) = DrawPass :: passes s
  /\ warnings (final o) = (new ++ warnings s)%list
  /\ (drawable s = true -> exists s', o = Returned tt s' /\ _needsDraw s' = false).
Proof.
  intros K Pa W C. unfold bind, when, modify.
  destruct (truthy_bool (debug (_options s))) eqn:Dbg; simpl.
  - destruct (drawDebug_ok I s4) as [[Rc Rw] Td].
    unfold core in Rc. unfold kept in *.
    destruct (drawDebug I s4) as [[] s5 | e s5] eqn:E5; simpl in *;
      injection Rc as Ho5 Hu5 Hd5 Hk5 Ht5 Hs5 Hp5 Hc5 Hpa5.
    + repeat split; try congruence. eauto.
    + repeat split; try congruence.
      intros Dr. exfalso.
      assert (Rd : debugReady s4).
      { apply (debugReady_of_drawable s s4 Dr Dbg); [congruence | exact C]. }
      destruct (Td Rd) as (a & s' & Ea & _). discriminate.
  - unfold kept in *. simpl. repeat split; try congruence. eauto.
Qed.

(** What a draw pass does, however it ends: it keeps the text, the styles,
    the options, the tokens, the templates and the console, records itself,
    and adds to the warnings the [invalid-color] warnings of its decorations
    and then the white-space warning when there is a conflict.  From a
    drawable state it returns and clears [needsDraw]. *)
Lemma draw_spec (s : TaggedText) :
  kept (final (draw I s)) = kept s
  /\ passes (final (draw I s)) = DrawPass :: passes s
  /\ (exists ws,
         warnings (final (draw I s))
         = ((if decorationConflict I s then [WHITESPACE_WARNING] else [])
            ++ ws ++ warnings s)%list
         /\ Forall (eq INVALID_COLOR_WARNING) ws)
  /\ (drawable s = true ->
      exists s', draw I s = Returned tt s' /\ _needsDraw s' = false).
Proof.
  set (s2 := set_scene
               (mkScene [] [] [] (_debugGraphics (scene s)) (Some []) (Some [])
                  (Some []) (Some []) (spriteXY (scene s)))
               (set_passes (DrawPass :: passes s) s)).
  assert (J2 : drawing (warnings s) s2).
  { split.
    - repeat split; simpl; discriminate.
    - exists []. split; [reflexivity | constructor]. }
  destruct (tokenLoop_ok I (warnings s) (renderedTokens I s) (false, None) s2)
    as [Rl Tl].
  destruct (Tl J2) as (acc & s3 & E & [Sc (ws & W & F)] & D).
  rewrite E in Rl. simpl in Rl, D.
  unfold sameCore, core in Rl. simpl in Rl.
  injection Rl as Ho Hu Hd Hk Ht Hs Hp Hc Hpa.
  remember (draw I s) as o eqn:Eo.
  rewrite draw_unfold in Eo. fold s2 in Eo.
  unfold bind at 1 in Eo. rewrite E in Eo.
  unfold decorationConflict. rewrite <- D.
  unfold bind at 1, when at 1 in Eo.
  destruct (is_false (drawWhitespace (_options s)) && fst acc);
    unfold logWarning, modify, ret in Eo; subst o.
  - destruct (draw_tail s (set_warnings (WHITESPACE_WARNING :: warnings s3) s3)
                ([WHITESPACE_WARNING] ++ ws)) as (A & B & C & G).
    + unfold kept. simpl. congruence.
    + exact Hpa.
    + simpl. now rewrite W.
    + exact (proj2 (proj2 Sc)).
    + cbv zeta in A, B, C, G. repeat split; try assumption.
      exists ws. split; [|exact F]. rewrite <- app_assoc in C. exact C.
  - destruct (draw_tail s s3 ws) as (A & B & C & G).
    + unfold kept. congruence.
    + exact Hpa.
    + exact W.
    + exact (proj2 (proj2 Sc)).
    + cbv zeta in A, B, C, G. repeat split; try assumption.
      exists ws. split; [exact C | exact F].
Qed.

End DrawPass.


(** ** The debug overlay without a default style *)

Section DebugWithoutDefault.

Variable I : Imports.




End DebugWithoutDefault.


(** ** The update pass *)

Section UpdatePass.

Variable I : Imports.



Lemma logWarnings_run (ws : list (string * string)) (s : TaggedText) :
  forEach (fun w (_ : unit) => logWarning (fst w) (snd w)) ws tt s
  = Returned tt (set_warnings (rev ws ++ warnings s)%list s).
Proof.
  revert s. induction ws as [| [c m] ws IH]; intros s; simpl.
  - now destruct s.
  - unfold bind, logWarning at 1, modify. rewrite IH. simpl.
    now rewrite <- app_assoc.
Qed.

(** What [drawIfShould] does, however it ends. *)
Lemma drawIfShould_spec (forcedSkipDraw : option bool) (s : TaggedText) :
  kept (final (drawIfShould I forcedSkipDraw s)) = kept s
  /\ (exists ws, warnings (final (drawIfShould I forcedSkipDraw s))
                 = (ws ++ warnings s)%list)
  /\ (exists ps, passes (final (drawIfShould I forcedSkipDraw s))
                 = (ps ++ passes s)%list)
  /\ (drawable s = true ->
      exists b s', drawIfShould I forcedSkipDraw s = Returned b s').
Proof.
  unfold drawIfShould, bind, get.
  destruct (is_false forcedSkipDraw
            || match forcedSkipDraw with None => true | Some _ => false end
               && is_false (skipDraw (_options s))).
  - destruct (draw_spec I s) as (K & P & (ws & W & _) & T).
    destruct (draw I s) as [[] s' | e s'] eqn:E; simpl in *.
    + repeat split; try assumption.
      * eexists. rewrite W. now rewrite app_assoc.
      * exists [DrawPass]. exact P.
      * eauto.
    + repeat split; try assumption.
      * eexists. rewrite W. now rewrite app_assoc.
      * exists [DrawPass]. exact P.
      * intros D. destruct (T D) as (s'' & E' & _). discriminate.
  - simpl. repeat split.
    + now exists [].
    + now exists [].
    + eauto.
Qed.

Lemma update_unfold (forcedSkipDraw : option bool) (s : TaggedText) :
  update I forcedSkipDraw s
  = (drawIfShould I forcedSkipDraw ;;
     s' <- get ;;
     when (truthy_bool (debugConsole (_options s')))
          (console_log (toDebugString I s')) ;;
     modify (set_needsUpdate false) ;;
     ret (computedTokens I s)) (updated I s).
Proof.
  unfold update, updated, computedTokens.
  unfold bind at 1, record_pass, modify at 1. unfold bind at 1, get at 1.
  simpl.
  destruct (parseTagsNew I (_text s) (Object_keys (_tagStyles s))
              (wrapEmoji (_options s))) as [tagTokens parseWarnings].
  unfold bind at 1. rewrite logWarnings_run. reflexivity.
Qed.

(** What an update pass does, however it ends: the text, the styles, the
    options and the sprite templates stay, warnings and passes are only
    added.  When it returns, the result is the computed token tree, which is
    stored, and [needsUpdate] is cleared; it throws only from a state that
    is not drawable, and then [needsUpdate] is as before. *)
Lemma update_spec (forcedSkipDraw : option bool) (s : TaggedText) :
  inputs (final (update I forcedSkipDraw s)) = inputs s
  /\ (exists ws, warnings (final (update I forcedSkipDraw s))
                 = (ws ++ warnings s)%list)
  /\ (exists ps, passes (final (update I forcedSkipDraw s))
                 = (ps ++ UpdatePass :: passes s)%list)
  /\ match update I forcedSkipDraw s with
     | Returned t s' =>
         t = computedTokens I s
         /\ _tokens s' = computedTokens I s
         /\ _needsUpdate s' = false
     | Thrown _ s' => _needsUpdate s' = _needsUpdate s /\ drawable s = false
     end.
Proof.
  remember (update I forcedSkipDraw s) as o eqn:Eo.
  rewrite update_unfold in Eo.
  destruct (drawIfShould_spec forcedSkipDraw (updated I s))
    as (K & (ws & W) & (ps & P) & T).
  unfold kept in K. simpl in K, W, P.
  injection K as Ho Hu Hk Ht Hs Hp Hc.
  assert (Dr : drawable (updated I s) = drawable s) by reflexivity.
  unfold bind at 1 in Eo.
  destruct (drawIfShould I forcedSkipDraw (updated I s)) as [b s1 | e s1] eqn:E;
    simpl in *.
  - unfold bind, get, when, console_log, modify, ret in Eo.
    destruct (truthy_bool (debugConsole (_options s1))); subst o; simpl;
      unfold inputs; simpl; rewrite Ht, Hs, Ho, Hp;
      (split; [reflexivity|]);
      (split; [eexists; rewrite W; now rewrite app_assoc|]);
      (split; [exists ps; exact P|]);
      (split; [reflexivity|]); (split; [exact Hk | reflexivity]).
  - subst o. simpl. unfold inputs. rewrite Ht, Hs, Ho, Hp.
    split; [reflexivity|].
    split; [eexists; rewrite W; now rewrite app_assoc|].
    split; [exists ps; exact P|].
    split; [exact Hu|].
    destruct (drawable s) eqn:D; [|reflexivity].
    destruct (T Dr) as (b & s' & E'). discriminate.
Qed.

(** What [updateIfShould] does: nothing when the update is to be skipped,
    an update pass otherwise. *)
Lemma updateIfShould_spec (forcedSkipUpdate : option bool) (s : TaggedText) :
  inputs (final (updateIfShould I forcedSkipUpdate s)) = inputs s
  /\ (exists ws, warnings (final (updateIfShould I forcedSkipUpdate s))
                 = (ws ++ warnings s)%list)
  /\ (if shouldUpdate forcedSkipUpdate s
      then (exists ps, passes (final (updateIfShould I forcedSkipUpdate s))
                       = (ps ++ UpdatePass :: passes s)%list)
           /\ match updateIfShould I forcedSkipUpdate s with
              | Returned b s' =>
                  b = true
                  /\ _tokens s' = computedTokens I s
                  /\ _needsUpdate s' = false
              | Thrown _ s' =>
                  _needsUpdate s' = _needsUpdate s /\ drawable s = false
              end
      else updateIfShould I forcedSkipUpdate s = Returned false s).
Proof.
  unfold updateIfShould, shouldUpdate, bind, get.
  destruct (is_false forcedSkipUpdate
            || match forcedSkipUpdate with None => true | Some _ => false end
               && is_false (skipUpdates (_options s))).
  - destruct (update_spec None s) as (In & W & P & T).
    destruct (update I None s) as [t s1 | e s1] eqn:E; simpl in *.
    + split; [exact In|]. split; [exact W|]. split; [exact P|].
      split; [reflexivity | apply T].
    + split; [exact In|]. split; [exact W|]. split; [exact P | exact T].
  - simpl. split; [reflexivity|]. split; [now exists [] | reflexivity].
Qed.

End UpdatePass.




(** ** Setting the text *)



(** ** Styles *)

Section ObjectFacts.

Variable V : Type.

Lemma obj_get_set_same (k : string) (v : V) (o : Obj V) :
  obj_get k (obj_set k v o) = Some v.
Proof.
  induction o as [| [k' v'] o IH]; simpl.
  - now rewrite String.eqb_refl.
  - destruct (String.eqb k k') eqn:E; simpl; rewrite E; [reflexivity | exact IH].
Qed.

Lemma obj_get_set_other (k k' : string) (v : V) (o : Obj V) :
  String.eqb k' k = false -> obj_get k (obj_set k' v o) = obj_get k o.
Proof.
  intros N. assert (N' : String.eqb k k' = false) by now rewrite String.eqb_sym.
  induction o as [| [k2 v2] o IH]; simpl.
  - now rewrite N'.
  - destruct (String.eqb k' k2) eqn:E; simpl.
    + apply String.eqb_eq in E. subst k2. now rewrite N'.
    + now rewrite IH.
Qed.

End ObjectFacts.



Section StyleSetters.

Variable I : Imports.


(** [setStyleForTag] up to its call of [updateIfShould]. *)
Lemma setStyleForTag_unfold (tag : string) (styles : TextStyleExtended)
    (skipUpdate : option bool) (s : TaggedText) :
  setStyleForTag I tag styles skipUpdate s
  = (updateIfShould I skipUpdate ;; ret true) (styled tag styles s).
Proof.
  unfold setStyleForTag, styled.
  unfold bind at 1, modify at 1. unfold bind at 1, get at 1.
  unfold defaultStyle. simpl.
  destruct (String.eqb tag DEFAULT_KEY) eqn:E; simpl.
  - apply String.eqb_eq in E. subst tag. unfold DEFAULT_KEY.
    rewrite obj_get_set_same.
    destruct (truthy_string (imgSrc styles)); reflexivity.
  - reflexivity.
Qed.

Lemma styled_default (tag : string) (styles : TextStyleExtended) (s : TaggedText) :
  obj_get "default" (_tagStyles (styled tag styles s))
  = if String.eqb tag "default"
    then Some (if truthy_string (imgSrc styles)
               then set_imgSrc None styles else styles)
    else obj_get "default" (_tagStyles s).
Proof.
  unfold styled, DEFAULT_KEY.
  destruct (String.eqb tag "default") eqn:E; simpl.
  - apply String.eqb_eq in E. subst tag.
    destruct (truthy_string (imgSrc styles)); simpl; apply obj_get_set_same.
  - now apply obj_get_set_other.
Qed.


(** After [setStyleForTag], however it ends, the default style is what the
    call stored for it. *)
Lemma setStyleForTag_styles (tag : string) (styles : TextStyleExtended)
    (skipUpdate : option bool) (s : TaggedText) :
  _tagStyles (final (setStyleForTag I tag styles skipUpdate s))
  = _tagStyles (styled tag styles s)
  /\ exists ws, warnings (final (setStyleForTag I tag styles skipUpdate s))
                = (ws ++ warnings (styled tag styles s))%list.
Proof.
  rewrite setStyleForTag_unfold.
  destruct (updateIfShould_spec I skipUpdate (styled tag styles s))
    as (In & W & _).
  unfold inputs in In. injection In as _ Hs _ _.
  unfold bind, ret.
  destruct (updateIfShould I skipUpdate (styled tag styles s)); simpl in *; auto.
Qed.


(** With the update skipped, [setStyleForTag] returns at once. *)
Lemma setStyleForTag_skipped (tag : string) (styles : TextStyleExtended)
    (s : TaggedText) :
  setStyleForTag I tag styles (Some true) s = Returned true (styled tag styles s).
Proof. now rewrite setStyleForTag_unfold. Qed.


(** The loop of [setTagStyles]: every entry is stored with the update skipped. *)
Lemma setTagStyles_loop (styles : TextStyleSet) (s : TaggedText) :
  forEach (fun e (_ : unit) =>
             setStyleForTag I (fst e) (snd e) (Some true) ;; ret tt)
          (Object_entries styles) tt s
  = Returned tt (fold_left (fun s' e => styled (fst e) (snd e) s') styles s).
Proof.
  unfold Object_entries. revert s.
  induction styles as [| e styles IH]; intros s; simpl; [reflexivity|].
  unfold bind at 1. unfold bind at 1. rewrite setStyleForTag_skipped.
  simpl. apply IH.
Qed.








End StyleSetters.

(** ** The rule on the default style is an invariant *)

Section DefaultStyleInvariant.

Variable I : Imports.

Lemma obj_get_delete_same (V : Type) (k : string) (o : Obj V) :
  obj_get k (obj_delete k o) = None.
Proof.
  induction o as [| [k' v'] o IH]; simpl; [reflexivity|].
  destruct (String.eqb k k') eqn:E; simpl; [exact IH|]. now rewrite E.
Qed.

Lemma obj_get_delete_other (V : Type) (k k' : string) (o : Obj V) :
  String.eqb k' k = false -> obj_get k (obj_delete k' o) = obj_get k o.
Proof.
  intros N. induction o as [| [k2 v2] o IH]; simpl; [reflexivity|].
  destruct (String.eqb k' k2) eqn:E; simpl.
  - apply String.eqb_eq in E. subst k2. rewrite String.eqb_sym, N. exact IH.
  - now rewrite IH.
Qed.







End DefaultStyleInvariant.




(* ================================================================== *)
(** * Further properties of the class *)
(* ================================================================== *)

(** ** The style table *)

Section StyleTable.

Variable I : Imports.

Lemma obj_get_set (V : Type) (k k' : string) (v : V) (o : Obj V) :
  obj_get k (obj_set k' v o) = if String.eqb k' k then Some v else obj_get k o.
Proof.
  destruct (String.eqb k' k) eqn:E.
  - apply String.eqb_eq in E. subst k'. apply obj_get_set_same.
  - now apply obj_get_set_other.
Qed.

Lemma obj_set_set (V : Type) (k : string) (v v' : V) (o : Obj V) :
  obj_set k v' (obj_set k v o) = obj_set k v' o.
Proof.
  induction o as [| [k2 v2] o IH]; simpl.
  - now rewrite String.eqb_refl.
  - destruct (String.eqb k k2) eqn:E; simpl; rewrite E; [reflexivity|].
    now rewrite IH.
Qed.

Lemma Object_keys_set (V : Type) (k : string) (v : V) (o : Obj V) :
  Object_keys (obj_set k v o)
  = if obj_has k o then Object_keys o else (Object_keys o ++ [k])%list.
Proof.
  unfold obj_has, Object_keys. induction o as [| [k2 v2] o IH]; simpl.
  - reflexivity.
  - destruct (String.eqb k k2) eqn:E; simpl; [reflexivity|].
    rewrite IH. now destruct (obj_get k o).
Qed.

Lemma obj_delete_absent (V : Type) (k : string) (o : Obj V) :
  obj_has k o = false -> obj_delete k o = o.
Proof.
  unfold obj_has. induction o as [| [k2 v2] o IH]; simpl; [reflexivity|].
  destruct (String.eqb k k2); [discriminate|]. intros H. now rewrite IH.
Qed.

Lemma obj_delete_set (V : Type) (k : string) (v : V) (o : Obj V) :
  obj_has k o = false -> obj_delete k (obj_set k v o) = o.
Proof.
  unfold obj_has. induction o as [| [k2 v2] o IH]; simpl.
  - now rewrite String.eqb_refl.
  - destruct (String.eqb k k2) eqn:E; [discriminate|]. simpl. rewrite E.
    intros H. now rewrite IH.
Qed.

(** The style table [setStyleForTag] leaves. *)
Lemma styled_table (tag : string) (styles : TextStyleExtended) (s : TaggedText) :
  _tagStyles (styled tag styles s)
  = obj_set tag (storedStyle tag styles) (_tagStyles s).
Proof.
  unfold styled, storedStyle.
  destruct (String.eqb tag DEFAULT_KEY) eqn:E; simpl; [|reflexivity].
  apply String.eqb_eq in E. subst tag.
  destruct (truthy_string (imgSrc styles)); simpl; [|reflexivity].
  apply obj_set_set.
Qed.

Lemma setStyleForTag_table (tag : string) (styles : TextStyleExtended)
    (skipUpdate : option bool) (s : TaggedText) :
  _tagStyles (final (setStyleForTag I tag styles skipUpdate s))
  = obj_set tag (storedStyle tag styles) (_tagStyles s).
Proof.
  destruct (setStyleForTag_styles I tag styles skipUpdate s) as [E _].
  rewrite E. apply styled_table.
Qed.

(** [removeStylesForTag] on a tag of the table, up to its call of
    [updateIfShould]. *)
Lemma removeStylesForTag_unfold (tag : string) (skipUpdate : option bool)
    (s : TaggedText) :
  removeStylesForTag I tag skipUpdate s
  = if obj_in tag (_tagStyles s)
    then (updateIfShould I skipUpdate ;; ret true)
           (set_needsUpdate true
              (set_tagStyles (obj_delete tag (_tagStyles s)) s))
    else Returned false s.
Proof.
  unfold removeStylesForTag. unfold bind at 1, get at 1.
  now destruct (obj_in tag (_tagStyles s)).
Qed.

Lemma obj_in_own (V : Type) (k : string) (o : Obj V) :
  obj_has k o = true -> obj_in k o = true.
Proof. unfold obj_in. now intros ->. Qed.

Lemma obj_in_absent (V : Type) (k : string) (o : Obj V) :
  obj_in k o = false -> obj_has k o = false.
Proof. unfold obj_in. now destruct (obj_has k o). Qed.

Lemma removeStylesForTag_table (tag : string) (skipUpdate : option bool)
    (s : TaggedText) :
  _tagStyles (final (removeStylesForTag I tag skipUpdate s))
  = obj_delete tag (_tagStyles s).
Proof.
  rewrite removeStylesForTag_unfold.
  destruct (obj_in tag (_tagStyles s)) eqn:H.
  - set (s1 := set_needsUpdate true _).
    destruct (updateIfShould_spec I skipUpdate s1) as (In & _).
    unfold inputs in In. injection In as _ Hs _ _.
    unfold bind, ret. now destruct (updateIfShould I skipUpdate s1).
  - simpl. rewrite obj_delete_absent; [reflexivity|].
    now apply obj_in_absent.
Qed.

End StyleTable.

(** X1. After [setStyleForTag(tag, styles)], however the call ends, the tag
    is a property of the style table, and looking it up gives the style the
    call stored: the given one, without its image reference when the tag is
    [default] and the reference is truthy.  When no image reference is
    cleared, every other tag has the style it had.  (The tag [__proto__],
    which names the prototype of the table and no property, is left
    aside.) *)
Theorem setStyleForTag_lookup (I : Imports) (tag : string)
    (styles : TextStyleExtended) (skipUpdate : option bool) (s : TaggedText) :
  tag <> "__proto__" ->
  let s' := final (setStyleForTag I tag styles skipUpdate s) in
  obj_get tag (_tagStyles s') = Some (storedStyle tag styles)
  /\ obj_has tag (_tagStyles s') = true
  /\ (String.eqb tag DEFAULT_KEY && truthy_string (imgSrc styles) = false ->
      forall k, String.eqb tag k = false ->
                obj_get k (_tagStyles s') = obj_get k (_tagStyles s)).
Proof.
  intros _ s'. unfold s'. rewrite setStyleForTag_table. split; [|split].
  - now rewrite obj_get_set, String.eqb_refl.
  - unfold obj_has. now rewrite obj_get_set, String.eqb_refl.
  - intros _ k N. now rewrite obj_get_set, N.
Qed.

Lemma setStyleForTag_lookup_witness :
  obj_get "b"
    (_tagStyles (final (setStyleForTag Demo.imports "b"
                          (Demo.transformed "uppercase") None Demo.fresh)))
  = Some (Demo.transformed "uppercase").
Proof.
  apply (setStyleForTag_lookup Demo.imports "b" (Demo.transformed "uppercase")
           None Demo.fresh).
  discriminate.
Defined.

(** X2. [removeStylesForTag] returns [false] only for a tag that is no
    property of the style table, and then it changes nothing: no flag is
    set and no update runs.  Otherwise, however the call ends, the tag is
    not a property of the table afterwards and every other tag has the
    style it had.  On a tag that is a property of the table the call does
    not return [false]. *)
Theorem removeStylesForTag_effect (I : Imports) (tag : string)
    (skipUpdate : option bool) (s : TaggedText) :
  match removeStylesForTag I tag skipUpdate s with
  | Returned false s' => s' = s /\ obj_has tag (_tagStyles s) = false
  | Returned true s' | Thrown _ s' =>
      obj_has tag (_tagStyles s') = false
      /\ (forall k, String.eqb tag k = false ->
                    obj_get k (_tagStyles s') = obj_get k (_tagStyles s))
  end
  /\ (obj_has tag (_tagStyles s) = true ->
      forall s', removeStylesForTag I tag skipUpdate s <> Returned false s').
Proof.
  pose proof (removeStylesForTag_table I tag skipUpdate s) as T.
  assert (A : obj_has tag (obj_delete tag (_tagStyles s)) = false).
  { unfold obj_has. now rewrite obj_get_delete_same. }
  assert (B : forall k, String.eqb tag k = false ->
                        obj_get k (obj_delete tag (_tagStyles s))
                        = obj_get k (_tagStyles s)).
  { intros k N. now apply obj_get_delete_other. }
  rewrite removeStylesForTag_unfold in *.
  destruct (obj_in tag (_tagStyles s)) eqn:H.
  - unfold bind, ret in *.
    destruct (updateIfShould I skipUpdate _) as [u s2 | e s2];
      simpl in T; rewrite T; (split; [now split|]); discriminate.
  - split; [split; [reflexivity | now apply obj_in_absent]|].
    intros O. apply obj_in_own in O. congruence.
Qed.

(** X3. Adding a style for a tag the table does not have and then removing
    the tag gives back the style table as it was, whatever the two calls do
    about updating and however they end, when the first call clears no
    image reference.  (The tag [__proto__], which names the prototype of
    the table and no property, is left aside.) *)
Theorem set_then_remove (I : Imports) (tag : string) (styles : TextStyleExtended)
    (skipUpdate1 skipUpdate2 : option bool) (s : TaggedText) :
  tag <> "__proto__" ->
  String.eqb tag DEFAULT_KEY && truthy_string (imgSrc styles) = false ->
  obj_has tag (_tagStyles s) = false ->
  _tagStyles
    (final (removeStylesForTag I tag skipUpdate2
              (final (setStyleForTag I tag styles skipUpdate1 s))))
  = _tagStyles s.
Proof.
  intros _ _ H. rewrite removeStylesForTag_table, setStyleForTag_table.
  now apply obj_delete_set.
Qed.

Lemma set_then_remove_witness :
  obj_has "b" (_tagStyles Demo.fresh) = false
  /\ _tagStyles
       (final (removeStylesForTag Demo.imports "b" None
                 (final (setStyleForTag Demo.imports "b" (Demo.transformed "uppercase")
                           None Demo.fresh))))
     = _tagStyles Demo.fresh.
Proof.
  split; [vm_compute; reflexivity|].
  apply (set_then_remove Demo.imports "b" (Demo.transformed "uppercase") None None
           Demo.fresh); [discriminate | reflexivity |].
  vm_compute. reflexivity.
Defined.

(** [setText], up to its call of [updateIfShould]. *)
Lemma setText_unfold (I : Imports) (text : string) (skipUpdate : option bool)
    (s : TaggedText) :
  setText I text skipUpdate s
  = if String.eqb text (_text s) && negb (_needsUpdate s)
    then Returned tt s
    else (updateIfShould I skipUpdate ;; ret tt)
           (set_needsUpdate true (set_text text s)).
Proof.
  unfold setText. unfold bind at 1, get at 1.
  now destruct (String.eqb text (_text s) && negb (_needsUpdate s)).
Qed.

(** X4. [setText] is idempotent: when a call returns, the same call made
    again returns and leaves the instance exactly as the first one left it;
    no second update pass runs and no warning is added. *)
Theorem setText_twice (I : Imports) (text : string) (skipUpdate : option bool)
    (s s1 : TaggedText) :
  setText I text skipUpdate s = Returned tt s1 ->
  setText I text skipUpdate s1 = Returned tt s1.
Proof.
  rewrite !setText_unfold.
  destruct (String.eqb text (_text s) && negb (_needsUpdate s)) eqn:C.
  - intros E. injection E as <-. now rewrite C.
  - set (s0 := set_needsUpdate true (set_text text s)).
    destruct (updateIfShould_spec I skipUpdate s0) as (In & _ & U).
    unfold bind at 1, ret.
    destruct (shouldUpdate skipUpdate s0) eqn:Sh.
    + destruct U as (_ & U).
      destruct (updateIfShould I skipUpdate s0) as [b s2 | e s2]; [|discriminate].
      intros E. injection E as <-. simpl in In.
      unfold inputs in In. injection In as Ht _ _ _. destruct U as (_ & _ & Hn).
      rewrite Ht, Hn. simpl. now rewrite String.eqb_refl.
    + rewrite U. intros E. injection E as <-. simpl.
      rewrite String.eqb_refl. simpl.
      change (set_needsUpdate true (set_text text s0)) with s0.
      unfold bind. now rewrite U.
Qed.

Lemma setText_twice_witness :
  setText Demo.imports "hello" None Demo.fresh
  = Returned tt (final (setText Demo.imports "hello" None Demo.fresh))
  /\ setText Demo.imports "hello" None
       (final (setText Demo.imports "hello" None Demo.fresh))
     = Returned tt (final (setText Demo.imports "hello" None Demo.fresh)).
Proof.
  assert (E : setText Demo.imports "hello" None Demo.fresh
              = Returned tt (final (setText Demo.imports "hello" None Demo.fresh))).
  { vm_compute. reflexivity. }
  split; [exact E|].
  apply (setText_twice Demo.imports "hello" None Demo.fresh). exact E.
Defined.


(** ** Which passes run, and the two flags *)

Section Passes.

Variable I : Imports.

(** How a draw pass ends: [needsDraw] is cleared when it returns and kept
    when it throws, which only the debug overlay makes it do. *)
Lemma draw_outcome (s : TaggedText) :
  match draw I s with
  | Returned _ s' => _needsDraw s' = false
  | Thrown _ s' =>
      _needsDraw s' = _needsDraw s /\ truthy_bool (debug (_options s)) = true
  end.
Proof.
  set (s2 := set_scene
               (mkScene [] [] [] (_debugGraphics (scene s)) (Some []) (Some [])
                  (Some []) (Some []) (spriteXY (scene s)))
               (set_passes (DrawPass :: passes s) s)).
  assert (J2 : drawing (warnings s) s2).
  { split.
    - repeat split; simpl; discriminate.
    - exists []. split; [reflexivity | constructor]. }
  destruct (tokenLoop_ok I (warnings s) (renderedTokens I s) (false, None) s2)
    as [Rl Tl].
  destruct (Tl J2) as (acc & s3 & E & _ & _).
  rewrite E in Rl. simpl in Rl.
  unfold sameCore, core in Rl. simpl in Rl.
  injection Rl as Ho Hu Hd Hk Ht Hs Hp Hc Hpa.
  remember (draw I s) as o eqn:Eo.
  rewrite draw_unfold in Eo. fold s2 in Eo.
  unfold bind at 1 in Eo. rewrite E in Eo.
  unfold bind at 1, when at 1 in Eo.
  assert (T : forall s4, _needsDraw s4 = _needsDraw s ->
                match (when (truthy_bool (debug (_options s))) (drawDebug I) ;;
                       modify (set_needsDraw false)) s4 with
                | Returned _ s' => _needsDraw s' = false
                | Thrown _ s' =>
                    _needsDraw s' = _needsDraw s
                    /\ truthy_bool (debug (_options s)) = true
                end).
  { intros s4 H4. unfold bind, when, modify.
    destruct (truthy_bool (debug (_options s))); [|reflexivity].
    destruct (drawDebug_ok I s4) as [[Rc _] _]. unfold core in Rc.
    destruct (drawDebug I s4) as [[] s5 | e s5]; simpl in *; [reflexivity|].
    injection Rc as _ _ Hd5 _ _ _ _ _ _. split; [congruence | reflexivity]. }
  destruct (is_false (drawWhitespace (_options s)) && fst acc);
    unfold logWarning, modify, ret in Eo; subst o; apply T; simpl; assumption.
Qed.

(** [update] from the point where it decides about the draw pass. *)
Lemma update_cases (forcedSkipDraw : option bool) (s : TaggedText) :
  update I forcedSkipDraw s
  = ((if shouldDraw forcedSkipDraw s then draw I else ret tt) ;;
     s' <- get ;;
     when (truthy_bool (debugConsole (_options s')))
          (console_log (toDebugString I s')) ;;
     modify (set_needsUpdate false) ;;
     ret (computedTokens I s)) (updated I s).
Proof.
  rewrite update_unfold. unfold bind at 1, drawIfShould at 1.
  unfold bind at 1, get at 1.
  change (is_false forcedSkipDraw
          || match forcedSkipDraw with None => true | Some _ => false end
             && is_false (skipDraw (_options (updated I s))))
    with (shouldDraw forcedSkipDraw s).
  destruct (shouldDraw forcedSkipDraw s); [|reflexivity].
  unfold bind at 1 5. unfold bind at 1.
  now destruct (draw I (updated I s)).
Qed.

Lemma update_passes (forcedSkipDraw : option bool) (s : TaggedText) :
  passes (final (update I forcedSkipDraw s))
  = ((if shouldDraw forcedSkipDraw s then [DrawPass] else [])
     ++ UpdatePass :: passes s)%list.
Proof.
  rewrite update_unfold. unfold bind at 1, drawIfShould at 1.
  unfold bind at 1, get at 1.
  change (is_false forcedSkipDraw
          || match forcedSkipDraw with None => true | Some _ => false end
             && is_false (skipDraw (_options (updated I s))))
    with (shouldDraw forcedSkipDraw s).
  destruct (shouldDraw forcedSkipDraw s).
  - destruct (draw_spec I (updated I s)) as (_ & P & _).
    unfold bind at 1.
    destruct (draw I (updated I s)) as [[] s1 | e s1]; simpl in *; [|exact P].
    unfold bind, get, when, console_log, modify, ret.
    destruct (truthy_bool (debugConsole (_options s1))); simpl; exact P.
  - unfold bind, get, when, console_log, modify, ret. simpl.
    destruct (truthy_bool (debugConsole (_options s))); reflexivity.
Qed.

Lemma updateIfShould_passes (skipUpdate : option bool) (s : TaggedText) :
  passes (final (updateIfShould I skipUpdate s))
  = (passesRun skipUpdate s ++ passes s)%list.
Proof.
  unfold updateIfShould, passesRun, bind, get.
  change (is_false skipUpdate
          || match skipUpdate with None => true | Some _ => false end
             && is_false (skipUpdates (_options s)))
    with (shouldUpdate skipUpdate s).
  destruct (shouldUpdate skipUpdate s); [|reflexivity].
  pose proof (update_passes None s) as P. unfold shouldDraw in P. simpl in P.
  destruct (update I None s); simpl in *; rewrite P;
    now destruct (is_false (skipDraw (_options s))).
Qed.

Lemma styled_fold_frame (styles : TextStyleSet) (s : TaggedText) :
  passes (fold_left (fun s' e => styled (fst e) (snd e) s') styles s) = passes s
  /\ _options (fold_left (fun s' e => styled (fst e) (snd e) s') styles s)
     = _options s
  /\ warningsKept s (fold_left (fun s' e => styled (fst e) (snd e) s') styles s).
Proof.
  revert s. induction styles as [| e styles IH]; intros s; simpl.
  - repeat split. now exists [].
  - destruct (IH (styled (fst e) (snd e) s)) as (P & O & (ws & W)).
    rewrite P, O. unfold warningsKept. rewrite W. unfold styled.
    destruct (String.eqb (fst e) DEFAULT_KEY && truthy_string (imgSrc (snd e)));
      simpl; repeat split.
    + exists (ws ++ [IMG_ON_DEFAULT_WARNING])%list. now rewrite <- app_assoc.
    + now exists ws.
Qed.

Lemma passesRun_options (skipUpdate : option bool) (s s' : TaggedText) :
  _options s' = _options s -> passesRun skipUpdate s' = passesRun skipUpdate s.
Proof. unfold passesRun, shouldUpdate. now intros ->. Qed.

Lemma setTagStyles_unfold (styles : TextStyleSet) (skipUpdate : option bool)
    (s : TaggedText) :
  setTagStyles I styles skipUpdate s
  = (updateIfShould I skipUpdate ;; ret tt)
      (set_needsUpdate true
         (fold_left (fun s' e => styled (fst e) (snd e) s') styles s)).
Proof.
  unfold setTagStyles. unfold bind at 1. rewrite setTagStyles_loop.
  reflexivity.
Qed.

Lemma onImageTextureUpdate_unfold (s : TaggedText) :
  onImageTextureUpdate I s
  = (updateIfShould I None ;; ret tt)
      (set_needsDraw true (set_needsUpdate true s)).
Proof. reflexivity. Qed.

(** The final state of a call that ends with [updateIfShould]. *)
Lemma final_then_ret (A B : Type) (m : M A) (b : B) (s : TaggedText) :
  final ((m ;; ret b) s) = final (m s).
Proof. unfold bind, ret. now destruct (m s). Qed.

End Passes.

(** X5. How [update] leaves the two flags.  When the draw pass is to run
    ([skipDraw] is [false], or left out with the option [skipDraw] at
    [false]) and the call returns, both [needsUpdate] and [needsDraw] are
    cleared; when the call throws, the new token tree is already stored,
    [needsDraw] is set and [needsUpdate] is as it was.  When the draw pass
    is skipped the call always returns: it stores the computed tree, clears
    [needsUpdate], leaves [needsDraw] set and the display objects
    untouched, and records one update pass. *)
Theorem update_flags (I : Imports) (forcedSkipDraw : option bool) (s : TaggedText) :
  if shouldDraw forcedSkipDraw s
  then match update I forcedSkipDraw s with
       | Returned _ s' => _needsUpdate s' = false /\ _needsDraw s' = false
       | Thrown _ s' =>
           _tokens s' = computedTokens I s
           /\ _needsDraw s' = true
           /\ _needsUpdate s' = _needsUpdate s
       end
  else exists s',
         update I forcedSkipDraw s = Returned (computedTokens I s) s'
         /\ _tokens s' = computedTokens I s
         /\ _needsUpdate s' = false
         /\ _needsDraw s' = true
         /\ scene s' = scene s
         /\ passes s' = UpdatePass :: passes s.
Proof.
  rewrite update_cases.
  destruct (shouldDraw forcedSkipDraw s).
  - pose proof (draw_outcome I (updated I s)) as O.
    destruct (draw_spec I (updated I s)) as (K & _).
    unfold kept in K. unfold bind at 1.
    destruct (draw I (updated I s)) as [[] s1 | e s1]; simpl in *.
    + unfold bind, get, when, console_log, modify, ret.
      destruct (truthy_bool (debugConsole (_options s1))); simpl; auto.
    + injection K as _ Hu Hk _ _ _ _. destruct O as [O _]. auto.
  - unfold bind, get, when, console_log, modify, ret. simpl.
    destruct (truthy_bool (debugConsole (_options s)));
      eexists; (split; [reflexivity|]); simpl; repeat split.
Qed.

(** X6. The passes a setter runs depend on [skipUpdate] and on the options
    only, not on how much it changes: [setTagStyles] runs at most one update
    pass for the whole table, not one per tag.  Each of [setTagStyles],
    [setStyleForTag], [removeStylesForTag] (on a tag that is [in] the table,
    be it a tag of the table or a name the table inherits, such as
    [toString]), [setText] (unless it is a no-op) and [onImageTextureUpdate]
    runs no pass when the update is skipped, and otherwise one update pass,
    followed by one draw pass exactly when the option [skipDraw] is
    [false].  [removeStylesForTag] on any other tag runs no pass. *)
Theorem setters_run_one_pass (I : Imports) (skipUpdate : option bool)
    (s : TaggedText) :
  (forall styles,
     passes (final (setTagStyles I styles skipUpdate s))
     = (passesRun skipUpdate s ++ passes s)%list)
  /\ (forall tag styles,
        passes (final (setStyleForTag I tag styles skipUpdate s))
        = (passesRun skipUpdate s ++ passes s)%list)
  /\ (forall tag,
        passes (final (removeStylesForTag I tag skipUpdate s))
        = ((if obj_in tag (_tagStyles s) then passesRun skipUpdate s else [])
           ++ passes s)%list)
  /\ (forall text,
        passes (final (setText I text skipUpdate s))
        = ((if String.eqb text (_text s) && negb (_needsUpdate s) then []
            else passesRun skipUpdate s)
           ++ passes s)%list)
  /\ passes (final (onImageTextureUpdate I s))
     = (passesRun None s ++ passes s)%list.
Proof.
  split; [|split; [|split; [|split]]].
  - intros styles. rewrite setTagStyles_unfold, final_then_ret.
    rewrite updateIfShould_passes.
    destruct (styled_fold_frame styles s) as (P & O & _).
    simpl. rewrite P. f_equal. now apply passesRun_options.
  - intros tag styles. rewrite setStyleForTag_unfold, final_then_ret.
    rewrite updateIfShould_passes. f_equal.
    + apply passesRun_options. unfold styled.
      now destruct (String.eqb tag DEFAULT_KEY && truthy_string (imgSrc styles)).
    + unfold styled.
      now destruct (String.eqb tag DEFAULT_KEY && truthy_string (imgSrc styles)).
  - intros tag. rewrite removeStylesForTag_unfold.
    destruct (obj_in tag (_tagStyles s)); [|reflexivity].
    rewrite final_then_ret. now rewrite updateIfShould_passes.
  - intros text. rewrite setText_unfold.
    destruct (String.eqb text (_text s) && negb (_needsUpdate s)); [reflexivity|].
    rewrite final_then_ret. now rewrite updateIfShould_passes.
  - rewrite onImageTextureUpdate_unfold, final_then_ret.
    now rewrite updateIfShould_passes.
Qed.




(** ** The scene a draw pass builds *)

Section SceneBuilt.

Variable I : Imports.

Lemma update_nth_last (A : Type) (f : A -> A) (L : list A) (a : A) :
  update_nth (List.length L) f (L ++ [a])%list = (L ++ [f a])%list.
Proof. induction L as [| b L IH]; simpl; [reflexivity | now rewrite IH]. Qed.

(** The text field of a token does not depend on the instance; it is made
    without children. *)
Lemma createTextFieldForToken_pure (token : TextSegmentToken) :
  exists tf,
    (forall s, createTextFieldForToken I token s = Returned tf s)
    /\ tf_children tf = [].
Proof.
  unfold createTextFieldForToken, createTextField, bind, ret. cbv zeta.
  set (w := clampScale _). set (h := clampScale _).
  destruct (JS.gt (JS.Math_max w h) 1%float).
  - destruct (JS.strict_eq (JS.Math_max w h) h);
      eexists; (split; [intros s; reflexivity | reflexivity]).
  - eexists; (split; [intros s; reflexivity | reflexivity]).
Qed.

(** A drawing depends on the instance through its options only, and making
    it changes the warnings only. *)
Lemma createDrawingForTextDecoration_run (d : TextDecorationMetrics)
    (s0 s : TaggedText) :
  _options s = _options s0 ->
  exists g s',
    createDrawingForTextDecoration d s = Returned g s'
    /\ drawnFor s0 g d
    /\ scene s' = scene s /\ _options s' = _options s.
Proof.
  intros O. unfold drawnFor.
  unfold createDrawingForTextDecoration, bind, get, ret, logWarning, modify.
  rewrite O.
  destruct (td_color d) as [n | c]; simpl.
  - do 2 eexists. split; [reflexivity|]. split; [eexists; reflexivity|].
    split; [reflexivity | exact O].
  - destruct (JS.indexOf_is_0 "#" c); simpl;
      do 2 eexists; (split; [reflexivity|]); (split; [eexists; reflexivity|]);
      (split; [reflexivity | exact O]).
Qed.

(** The loop over the decorations of a token: the drawings become the last
    children of the text field just made and the last decorations. *)
Lemma decorations_run (s0 : TaggedText) (L : list TextField)
    (ds : list TextDecorationMetrics) :
  forall (f : TextField) (s : TaggedText),
    _textFields (scene s) = (L ++ [f])%list -> _options s = _options s0 ->
    exists s' gs,
      forEach (fun d (_ : unit) =>
                 drawing <- createDrawingForTextDecoration d ;;
                 addDecoration (List.length L) drawing) ds tt s
      = Returned tt s'
      /\ _textFields (scene s')
         = (L ++ [mkTextField (tf_text f) (tf_style f) (tf_scale f) (tf_x f)
                    (tf_y f) (tf_children f ++ gs)])%list
      /\ _decorations (scene s') = (_decorations (scene s) ++ gs)%list
      /\ Forall2 (drawnFor s0) gs ds
      /\ (_sprites (scene s'), _textContainer (scene s'),
          _spriteContainer (scene s'), spriteXY (scene s'), _options s')
         = (_sprites (scene s), _textContainer (scene s),
            _spriteContainer (scene s), spriteXY (scene s), _options s).
Proof.
  induction ds as [| d ds IH]; intros f s F O; simpl.
  - exists s, []. split; [reflexivity|]. rewrite !app_nil_r.
    split; [now destruct f|]. repeat split. constructor.
  - destruct (createDrawingForTextDecoration_run d s0 s O)
      as (g & s1 & R & Dg & Sc & O1).
    unfold bind at 1. unfold bind at 1. rewrite R.
    unfold addDecoration, modify_scene, modify. rewrite Sc, F, update_nth_last.
    set (s2 := set_scene _ s1).
    destruct (IH (add_tf_child g f) s2) as (s' & gs & R' & F' & D' & Dr & Rest).
    { reflexivity. }
    { simpl. congruence. }
    exists s', (g :: gs). split; [exact R'|].
    split; [rewrite F'; simpl; now rewrite <- app_assoc|].
    split; [rewrite D'; simpl; now rewrite <- app_assoc|].
    split; [now constructor|].
    rewrite Rest. simpl. now rewrite O1.
Qed.

Lemma textTokens_app (a b : list SegmentToken) :
  textTokens (a ++ b) = (textTokens a ++ textTokens b)%list.
Proof. apply flat_map_app. Qed.

Lemma spritesOf_app (a b : list SegmentToken) :
  spritesOf (a ++ b) = (spritesOf a ++ spritesOf b)%list.
Proof. apply flat_map_app. Qed.

Lemma spritePosition_set (sp sp' : Sprite) (p : number * number)
    (l : list (Sprite * (number * number))) :
  spritePosition sp' (set_spriteXY sp p l)
  = if Nat.eqb sp sp' then Some p else spritePosition sp' l.
Proof.
  unfold spritePosition. induction l as [| [k q] l IH]; simpl.
  - rewrite Nat.eqb_sym. now destruct (Nat.eqb sp sp').
  - destruct (Nat.eqb sp k) eqn:E; simpl.
    + apply Nat.eqb_eq in E. subst k. rewrite (Nat.eqb_sym sp' sp).
      now destruct (Nat.eqb sp sp').
    + destruct (Nat.eqb sp' k) eqn:E'.
      * destruct (Nat.eqb sp sp') eqn:E2; [|reflexivity].
        apply Nat.eqb_eq in E2. subst sp'. congruence.
      * exact IH.
Qed.

Lemma lastPosition_snoc (sp : Sprite) (done : list SegmentToken) (t : SegmentToken) :
  lastPosition sp (done ++ [t])
  = match content t with
    | SpriteContent sp' =>
        if Nat.eqb sp sp'
        then Some (Bounds.x (bounds t), Bounds.y (bounds t))
        else lastPosition sp done
    | TextContent _ => lastPosition sp done
    end.
Proof. unfold lastPosition. now rewrite fold_left_app. Qed.

Lemma childrenOf_snoc (l : list Sprite) (sp : Sprite) :
  childrenOf (l ++ [sp]) = addChild sp (childrenOf l).
Proof. unfold childrenOf. now rewrite fold_left_app. Qed.

Lemma seq_snoc (n : nat) : seq 0 (S n) = (seq 0 n ++ [n])%list.
Proof. rewrite seq_S. reflexivity. Qed.

Lemma concat_children_snoc (L : list TextField) (f : TextField) :
  List.concat (map tf_children (L ++ [f]))
  = (List.concat (map tf_children L) ++ tf_children f)%list.
Proof. rewrite map_app, concat_app. simpl. now rewrite app_nil_r. Qed.

(** One turn of the loop of [draw] on the scene. *)
Lemma drawToken_built (s0 : TaggedText) (done : list SegmentToken)
    (t : SegmentToken) (acc : bool * option DisplayRef) (s : TaggedText) :
  built I s0 done s ->
  exists acc' s',
    drawToken I t acc s = Returned acc' s' /\ built I s0 (done ++ [t]) s'.
Proof.
  intros (Ff & Sp & De & Tc & Scn & Xy & O).
  unfold built. rewrite textTokens_app, spritesOf_app.
  unfold drawToken, asTextToken. simpl textTokens. simpl spritesOf.
  unfold asTextToken.
  destruct (content t) as [c | sp] eqn:Ct.
  - (* a text token *)
    set (tk := with_content c t).
    destruct (createTextFieldForToken_pure tk) as (tf & Rtf & Ch).
    unfold bind at 1. unfold bind at 1. unfold bind at 1. rewrite Rtf.
    unfold bind at 1. unfold addTextField at 1. unfold bind at 1, get at 1.
    rewrite Tc. unfold bind at 1, modify_scene at 1, modify at 1.
    unfold ret at 1.
    set (L := _textFields (scene s)) in *.
    set (s1 := set_scene _ s).
    assert (F1 : _textFields (scene s1) = (L ++ [tf])%list) by reflexivity.
    assert (O1 : _options s1 = _options s0) by exact O.
    destruct (decorations_run s0 L (decorationsOf tk) tf s1 F1 O1)
      as (s2 & gs & R2 & F2 & D2 & Dr & Rest).
    injection Rest as Sp2 Tc2 Sc2 Xy2 O2.
    assert (Rd : exists drew,
               match textDecorations t with
               | Some (d :: ds) =>
                   forEach (fun d0 (_ : unit) =>
                              drawing <- createDrawingForTextDecoration d0 ;;
                              addDecoration (List.length L) drawing)
                           (d :: ds) tt ;;
                   ret true
               | _ => ret (fst acc)
               end s1 = Returned drew s2).
    { unfold decorationsOf, tk in R2. simpl in R2.
      destruct (textDecorations t) as [[| d ds] | ].
      - simpl in R2. injection R2 as <-. now exists (fst acc).
      - exists true. unfold bind at 1. now rewrite R2.
      - simpl in R2. injection R2 as <-. now exists (fst acc). }
    destruct Rd as (drew & Rd). rewrite Rd. unfold ret at 1.
    unfold bind at 1. unfold ret at 1. unfold bind at 1. simpl snd.
    cbn [snd]. unfold setPosition, modify_scene, modify, ret. rewrite F2, update_nth_last.
    do 2 eexists. split; [reflexivity|]. simpl.
    rewrite Ch in *. simpl in *.
    repeat split.
    + apply Forall2_app; [exact Ff|]. constructor; [|constructor].
      split; [|split].
      * exists tf. split; [apply Rtf | reflexivity].
      * reflexivity.
      * exact Dr.
    + now rewrite Sp2, app_nil_r.
    + rewrite concat_children_snoc. simpl. rewrite D2. simpl. now rewrite De.
    + rewrite Tc2. simpl. rewrite !length_app. simpl.
      rewrite Nat.add_1_r, seq_snoc, map_app. reflexivity.
    + rewrite Sc2. simpl. now rewrite Scn, app_nil_r.
    + intros sp. rewrite Xy2. simpl. rewrite lastPosition_snoc, Ct. apply Xy.
    + rewrite O2. exact O.
  - (* a sprite token *)
    unfold addSprite, setPosition, bind, get, modify_scene, modify, ret. simpl.
    rewrite Scn. simpl.
    do 2 eexists. split; [reflexivity|]. simpl.
    repeat split.
    + now rewrite app_nil_r.
    + now rewrite Sp.
    + exact De.
    + exact Tc.
    + now rewrite childrenOf_snoc.
    + intros sp'. rewrite spritePosition_set, lastPosition_snoc, Ct.
      destruct (Nat.eqb sp sp') eqn:E.
      * apply Nat.eqb_eq in E. subst sp'. now rewrite Nat.eqb_refl.
      * rewrite Nat.eqb_sym, E. apply Xy.
    + exact O.
Qed.

Lemma tokenLoop_built (s0 : TaggedText) (rem : list SegmentToken) :
  forall (done : list SegmentToken) (acc : bool * option DisplayRef)
         (s : TaggedText),
    built I s0 done s ->
    exists acc' s',
      forEach (drawToken I) rem acc s = Returned acc' s'
      /\ built I s0 (done ++ rem) s'.
Proof.
  induction rem as [| t rem IH]; intros done acc s B; simpl.
  - exists acc, s. split; [reflexivity|]. now rewrite app_nil_r.
  - destruct (drawToken_built s0 done t acc s B) as (acc1 & s1 & R1 & B1).
    unfold bind. rewrite R1.
    destruct (IH (done ++ [t])%list acc1 s1 B1) as (acc' & s' & R & B').
    exists acc', s'. split; [exact R|]. now rewrite <- app_assoc in B'.
Qed.

Lemma built_display (s0 : TaggedText) (done : list SegmentToken)
    (s s' : TaggedText) :
  display s' = display s -> _options s' = _options s ->
  built I s0 done s -> built I s0 done s'.
Proof.
  unfold display, built. intros D O. injection D as -> -> -> -> -> ->.
  now rewrite O.
Qed.

Lemma sameDisplay_refl (s : TaggedText) : sameDisplay s s.
Proof. reflexivity. Qed.

Lemma sameDisplay_trans (s1 s2 s3 : TaggedText) :
  sameDisplay s1 s2 -> sameDisplay s2 s3 -> sameDisplay s1 s3.
Proof. unfold sameDisplay. congruence. Qed.

Lemma addDebugChild_display (child : DebugChild) :
  always sameDisplay (addDebugChild child).
Proof.
  intros s. split; [|intros []].
  unfold addDebugChild, bind, get, modify_scene, modify, throw. simpl.
  now destruct (_debugContainer (scene s)).
Qed.

Lemma gdraw_display (cmds : list DebugCmd) : always sameDisplay (gdraw cmds).
Proof. intros s. split; [reflexivity | intros []]. Qed.

Lemma always_bind (A B : Type) (m : M A) (k : A -> M B) :
  always sameDisplay m -> (forall a, always sameDisplay (k a)) ->
  always sameDisplay (bind m k).
Proof.
  intros Hm Hk.
  apply (hoare_bind sameDisplay sameDisplay_trans A B (fun _ => False) m
           (fun _ _ => False) k (fun _ _ => False)); assumption.
Qed.

Lemma always_ret (A : Type) (a : A) : always sameDisplay (ret a).
Proof. intros s. split; [reflexivity | intros []]. Qed.

Lemma always_forEach (A : Type) (f : A -> M unit) (l : list A) :
  (forall a, always sameDisplay (f a)) ->
  always sameDisplay (forEach (fun a (_ : unit) => f a) l tt).
Proof.
  intros Hf. induction l as [| a l IH]; simpl.
  - apply always_ret.
  - apply always_bind; [apply Hf | intros []; exact IH].
Qed.

Lemma drawDebugSegment_display (t : SegmentToken) :
  always sameDisplay (drawDebugSegment I t).
Proof.
  unfold drawDebugSegment.
  apply always_bind; [intros s; split; [reflexivity | intros []]|].
  intros s0. apply always_bind.
  { destruct (_ && _); apply gdraw_display. }
  intros ?. apply always_bind.
  { destruct (isNewlineToken I t); [apply addDebugChild_display | apply gdraw_display]. }
  intros ?. unfold when.
  destruct (isTextToken t); [apply addDebugChild_display | apply always_ret].
Qed.

Lemma drawDebugLine_display (line : LineToken) :
  always sameDisplay (drawDebugLine I line).
Proof.
  unfold drawDebugLine.
  apply always_bind; [intros s; split; [reflexivity | intros []]|].
  intros s0. apply always_bind.
  - destruct (defaultStyle s0) as [d | ].
    + unfold when. destruct (truthy_bool (wordWrap d));
        [apply gdraw_display | apply always_ret].
    + intros s. split; [reflexivity | intros []].
  - intros ?. apply always_forEach. intros word.
    apply always_forEach. intros seg. apply drawDebugSegment_display.
Qed.

(** The debug overlay leaves the text fields, the sprites and the
    decorations alone. *)
Lemma drawDebug_display : always sameDisplay (drawDebug I).
Proof.
  unfold drawDebug.
  apply always_bind; [intros s; split; [reflexivity | intros []]|].
  intros s0. apply always_bind; [intros s; split; [reflexivity | intros []]|].
  intros ?. apply always_bind.
  { destruct (_debugContainer (scene s0));
      intros s; (split; [reflexivity | intros []]). }
  intros ?. apply always_bind; [apply addDebugChild_display|].
  intros ?. apply always_forEach. intros line. apply drawDebugLine_display.
Qed.

(** The scene a draw pass leaves, however it ends. *)
Lemma draw_built (s : TaggedText) :
  built I s (renderedTokens I s) (final (draw I s)).
Proof.
  set (s2 := set_scene
               (mkScene [] [] [] (_debugGraphics (scene s)) (Some []) (Some [])
                  (Some []) (Some []) (spriteXY (scene s)))
               (set_passes (DrawPass :: passes s) s)).
  assert (B2 : built I s [] s2).
  { unfold built. simpl. repeat split. constructor. }
  destruct (tokenLoop_built s (renderedTokens I s) [] (false, None) s2 B2)
    as (acc & s3 & E & B3).
  simpl in B3.
  remember (draw I s) as o eqn:Eo.
  rewrite draw_unfold in Eo. fold s2 in Eo.
  unfold bind at 1 in Eo. rewrite E in Eo.
  unfold bind at 1, when at 1 in Eo.
  assert (T : forall s4,
                built I s (renderedTokens I s) s4 ->
                built I s (renderedTokens I s)
                  (final ((when (truthy_bool (debug (_options s))) (drawDebug I) ;;
                           modify (set_needsDraw false)) s4))).
  { intros s4 B4. unfold bind, when, modify.
    destruct (truthy_bool (debug (_options s))); [|exact B4].
    destruct (drawDebug_display s4) as [Dd _].
    destruct (drawDebug_ok I s4) as [[Rc _] _]. unfold core in Rc.
    injection Rc as Ho5 _ _ _ _ _ _ _ _.
    destruct (drawDebug I s4) as [[] s5 | e s5]; simpl in *;
      apply (built_display s (renderedTokens I s) s4); assumption. }
  destruct (is_false (drawWhitespace (_options s)) && fst acc);
    unfold logWarning, modify, ret in Eo; subst o; apply T; exact B3.
Qed.

(** The children of a container hold each added sprite once. *)
Lemma childrenOf_spec (l : list Sprite) :
  NoDup (childrenOf l) /\ (forall sp, In sp (childrenOf l) <-> In sp l).
Proof.
  induction l as [| sp l [N M]] using rev_ind.
  - split; [constructor | reflexivity].
  - rewrite childrenOf_snoc. unfold addChild.
    assert (F : forall c,
               In c (filter (fun c => negb (Nat.eqb c sp)) (childrenOf l))
               <-> In c l /\ c <> sp).
    { intros c. rewrite filter_In, M, negb_true_iff, Nat.eqb_neq. reflexivity. }
    split.
    + apply NoDup_app; repeat split.
      * now apply NoDup_filter.
      * constructor; [intros [] | constructor].
      * intros c Hc [<- | []]. apply F in Hc. now destruct Hc.
    + intros c. rewrite !in_app_iff, F. simpl.
      destruct (Nat.eq_dec c sp) as [-> | Ne]; [tauto|].
      split; [intros [[H _] | [E | []]]; [now left | now subst] |
              intros [H | [E | []]]; [left; now split | now subst]].
Qed.

Lemma Forall2_concat (A B : Type) (R : A -> B -> Prop) (la : list (list A))
    (lb : list (list B)) :
  Forall2 (Forall2 R) la lb -> Forall2 R (List.concat la) (List.concat lb).
Proof.
  induction 1 as [| a b la lb H _ IH]; simpl; [constructor|].
  now apply Forall2_app.
Qed.

End SceneBuilt.

(** X9. After a draw pass that returns, the text fields are exactly the
    fields of the rendered text tokens, one for each and in their order,
    whatever the scene held before: each is the field
    [createTextFieldForToken] returns for its token, placed at the corner of
    the token's bounds, with one child drawing for each of the token's
    decorations.  The text container holds these fields as its children, in
    the same order. *)
Theorem draw_text_fields (I : Imports) (s s' : TaggedText) :
  draw I s = Returned tt s' ->
  Forall2 (shows I s) (_textFields (scene s')) (textTokens (renderedTokens I s))
  /\ _textContainer (scene s')
     = Some (map RefTextField
               (seq 0 (List.length (textTokens (renderedTokens I s))))).
Proof.
  intros R. pose proof (draw_built I s) as B. rewrite R in B.
  unfold built in B. cbn [final] in B.
  destruct B as (Ff & _ & _ & Tc & _).
  split; [exact Ff|]. rewrite Tc. now rewrite (Forall2_length Ff).
Qed.

Lemma draw_text_fields_witness :
  exists s',
    draw Demo.imports Demo.decorated = Returned tt s'
    /\ Forall2 (shows Demo.imports Demo.decorated) (_textFields (scene s'))
         (textTokens (renderedTokens Demo.imports Demo.decorated)).
Proof.
  assert (R : draw Demo.imports Demo.decorated
              = Returned tt (final (draw Demo.imports Demo.decorated)))
    by (vm_compute; reflexivity).
  eexists. split; [exact R|].
  exact (proj1 (draw_text_fields Demo.imports Demo.decorated _ R)).
Defined.

(** X10. After a draw pass that returns, the sprites are exactly the sprites
    of the rendered sprite tokens, in their order.  A sprite is one shared
    object: when several tokens hold the same sprite it is listed once for
    each, the sprite container holds it once, as the child added last, and
    it ends at the corner of the bounds of the last of them; a sprite no
    rendered token holds keeps its position.  The children of the sprite
    container are the listed sprites, none twice. *)
Theorem draw_sprites (I : Imports) (s s' : TaggedText) :
  draw I s = Returned tt s' ->
  _sprites (scene s') = spritesOf (renderedTokens I s)
  /\ (exists children,
        _spriteContainer (scene s') = Some children
        /\ children = childrenOf (_sprites (scene s'))
        /\ NoDup children
        /\ forall sp, In sp children <-> In sp (_sprites (scene s')))
  /\ (forall sp,
        spritePosition sp (spriteXY (scene s'))
        = or_else (lastPosition sp (renderedTokens I s))
            (spritePosition sp (spriteXY (scene s)))).
Proof.
  intros R. pose proof (draw_built I s) as B. rewrite R in B.
  unfold built in B. cbn [final] in B.
  destruct B as (_ & Sp & _ & _ & Sc & Xy & _).
  split; [exact Sp|]. split; [|exact Xy].
  exists (childrenOf (spritesOf (renderedTokens I s))).
  rewrite Sp. split; [exact Sc|]. split; [reflexivity|].
  apply childrenOf_spec.
Qed.

Lemma draw_sprites_witness :
  exists s',
    draw Demo.imports Demo.pictured = Returned tt s'
    /\ _sprites (scene s') = [7; 8; 7]
    /\ _spriteContainer (scene s') = Some [8; 7].
Proof.
  assert (R : draw Demo.imports Demo.pictured
              = Returned tt (final (draw Demo.imports Demo.pictured)))
    by (vm_compute; reflexivity).
  eexists. split; [exact R|].
  destruct (draw_sprites Demo.imports Demo.pictured _ R)
    as (Sp & (children & Sc & Ch & _) & _).
  split; [exact Sp|]. rewrite Sc, Ch, Sp. reflexivity.
Defined.

(** X11. After a draw pass that returns, the list of decorations holds the
    children of the text fields, field after field: every decoration
    drawing is the child of the text field of its token.  There is one
    drawing for each decoration of each rendered text token, in order, and
    it is the drawing [createDrawingForTextDecoration] returns for it. *)
Theorem draw_decorations (I : Imports) (s s' : TaggedText) :
  draw I s = Returned tt s' ->
  _decorations (scene s')
  = List.concat (map tf_children (_textFields (scene s')))
  /\ Forall2 (drawnFor s) (_decorations (scene s'))
       (flat_map (fun t => decorationsOf t) (textTokens (renderedTokens I s))).
Proof.
  intros R. pose proof (draw_built I s) as B. rewrite R in B.
  unfold built in B. cbn [final] in B.
  destruct B as (Ff & _ & De & _).
  split; [exact De|]. rewrite De, flat_map_concat_map.
  apply Forall2_concat. clear De.
  induction Ff as [| f t fs ts (_ & _ & H) _ IH]; simpl; constructor;
    assumption.
Qed.

Lemma draw_decorations_witness :
  exists s',
    draw Demo.imports Demo.decorated = Returned tt s'
    /\ _decorations (scene s')
       = List.concat (map tf_children (_textFields (scene s'))).
Proof.
  assert (R : draw Demo.imports Demo.decorated
              = Returned tt (final (draw Demo.imports Demo.decorated)))
    by (vm_compute; reflexivity).
  eexists. split; [exact R|].
  exact (proj1 (draw_decorations Demo.imports Demo.decorated _ R)).
Defined.


(** ** Sprite templates and construction *)

Section Construction.

Variable I : Imports.

Lemma obj_has_set (V : Type) (k k' : string) (v : V) (o : Obj V) :
  obj_has k (obj_set k' v o) = String.eqb k' k || obj_has k o.
Proof.
  unfold obj_has. rewrite obj_get_set. now destruct (String.eqb k' k).
Qed.

Lemma obj_has_cons (V : Type) (k : string) (e : string * V) (o : Obj V) :
  obj_has k (e :: o) = String.eqb (fst e) k || obj_has k o.
Proof.
  unfold obj_has. destruct e as [k' v]. simpl. rewrite (String.eqb_sym k' k).
  now destruct (String.eqb k k').
Qed.

(** From an instance with a default style, [setStyleForTag] returns. *)
Lemma setStyleForTag_returns (tag : string) (styles : TextStyleExtended)
    (skipUpdate : option bool) (s : TaggedText) :
  obj_get "default" (_tagStyles s) <> None ->
  exists s',
    setStyleForTag I tag styles skipUpdate s = Returned true s'
    /\ inputs s' = inputs (styled tag styles s).
Proof.
  intros H. rewrite setStyleForTag_unfold.
  destruct (updateIfShould_spec I skipUpdate (styled tag styles s))
    as (In & _ & U).
  assert (D : drawable (styled tag styles s) = true).
  { unfold drawable. rewrite styled_default.
    destruct (String.eqb tag "default"); [apply orb_true_r|].
    destruct (obj_get "default" (_tagStyles s)); [apply orb_true_r | congruence]. }
  unfold bind, ret.
  destruct (shouldUpdate skipUpdate (styled tag styles s)).
  - destruct U as (_ & T).
    destruct (updateIfShould I skipUpdate (styled tag styles s))
      as [b s2 | e s2]; simpl in *.
    + eauto.
    + destruct T as (_ & T). congruence.
  - rewrite U in *. simpl in *. eauto.
Qed.

(** From a drawable instance, [updateIfShould] returns. *)
Lemma updateIfShould_returns (skipUpdate : option bool) (s : TaggedText) :
  drawable s = true ->
  exists b s',
    updateIfShould I skipUpdate s = Returned b s' /\ inputs s' = inputs s.
Proof.
  intros D. destruct (updateIfShould_spec I skipUpdate s) as (In & _ & U).
  destruct (shouldUpdate skipUpdate s).
  - destruct U as (_ & T).
    destruct (updateIfShould I skipUpdate s) as [b s2 | e s2]; simpl in *.
    + eauto.
    + destruct T as (_ & T). congruence.
  - rewrite U in *. simpl in *. eauto.
Qed.

(** The body of the loop of [createSpriteTemplatesFromSourceMap]. *)
Let registerSprite (e : string * SpriteSource) (_ : unit) : M unit :=
  let key := fst e in
  match spriteForSource I key (snd e) with
  | inl error => throw error
  | inr sprite =>
      modify (fun s =>
        set_spriteTemplates (obj_set key sprite (_spriteTemplates s)) s) ;;
      s <- get ;;
      let existingStyle :=
        match getStyleForTag I key [] s with
        | Some st => st
        | None => emptyStyle
        end in
      let style :=
        spreadStyle (set_imgSrc (Some key) emptyStyle) existingStyle in
      setStyleForTag I key style None ;;
      ret tt
  end.

Lemma createSpriteTemplatesFromSourceMap_unfold (m : ImageSourceMap)
    (s : TaggedText) :
  createSpriteTemplatesFromSourceMap I m s
  = forEach registerSprite m tt (set_spriteTemplates [] s).
Proof. reflexivity. Qed.

(** The loop of [createSpriteTemplatesFromSourceMap]. *)
Lemma spriteTemplates_loop (m : ImageSourceMap) :
  forall s,
    obj_get "default" (_tagStyles s) <> None ->
    exists s',
      forEach registerSprite m tt s
      = match firstInvalid I m with
        | Some e => Thrown e s'
        | None => Returned tt s'
        end
      /\ (forall k, obj_has k (_spriteTemplates s')
                    = obj_has k (validPrefix I m) || obj_has k (_spriteTemplates s))
      /\ (forall k, obj_has k (_tagStyles s')
                    = obj_has k (validPrefix I m) || obj_has k (_tagStyles s))
      /\ _text s' = _text s /\ _options s' = _options s.
Proof.
  induction m as [| e m IH]; intros s H; simpl.
  - exists s. repeat split.
  - unfold registerSprite at 1. cbv zeta.
    destruct (spriteForSource I (fst e) (snd e)) as [err | sprite] eqn:Sp.
    + exists s. unfold bind, throw. repeat split.
    + set (s1 := set_spriteTemplates
                   (obj_set (fst e) sprite (_spriteTemplates s)) s).
      set (style := spreadStyle (set_imgSrc (Some (fst e)) emptyStyle)
                      match getStyleForTag I (fst e) [] s1 with
                      | Some st => st
                      | None => emptyStyle
                      end).
      destruct (setStyleForTag_returns (fst e) style None s1 H)
        as (s2 & R & In).
      unfold inputs in In. rewrite styled_table in In.
      assert (In' : (_text s2, _tagStyles s2, _options s2, _spriteTemplates s2)
                    = (_text s,
                       obj_set (fst e) (storedStyle (fst e) style) (_tagStyles s),
                       _options s,
                       obj_set (fst e) sprite (_spriteTemplates s))).
      { rewrite In. unfold styled.
        now destruct (String.eqb (fst e) DEFAULT_KEY
                      && truthy_string (imgSrc style)). }
      clear In. injection In' as Ht Hs Ho Hp.
      destruct (IH s2) as (s' & R' & Tp & Ts & Tx & Op).
      { rewrite Hs, obj_get_set.
        destruct (String.eqb (fst e) "default"); [discriminate | exact H]. }
      exists s'. split; [|split; [|split; [|split]]].
      * unfold bind at 1. unfold bind at 1, modify at 1. fold s1.
        unfold bind at 1, get at 1. fold style.
        unfold bind at 1. rewrite R. unfold ret at 1. exact R'.
      * intros k. rewrite Tp, Hp, obj_has_set, obj_has_cons.
        now destruct (String.eqb (fst e) k), (obj_has k (validPrefix I m)).
      * intros k. rewrite Ts, Hs, obj_has_set, obj_has_cons.
        now destruct (String.eqb (fst e) k), (obj_has k (validPrefix I m)).
      * congruence.
      * congruence.
Qed.

End Construction.



Section Constructed.

Variable I : Imports.

Lemma obj_has_In (V : Type) (k : string) (o : Obj V) :
  obj_has k o = false -> ~ In k (Object_keys o).
Proof.
  unfold obj_has, Object_keys. induction o as [| [k' v] o IH]; simpl; [tauto|].
  destruct (String.eqb k k') eqn:E; [discriminate|].
  intros H [F | F]; [|now apply IH].
  subst k'. now rewrite String.eqb_refl in E.
Qed.

Lemma NoDup_keys_set (V : Type) (k : string) (v : V) (o : Obj V) :
  NoDup (Object_keys o) -> NoDup (Object_keys (obj_set k v o)).
Proof.
  intros N. rewrite Object_keys_set.
  destruct (obj_has k o) eqn:H; [exact N|].
  apply NoDup_app; [exact N | repeat constructor; simpl; tauto|].
  intros x Hx [E | []]. subst x. now apply (obj_has_In V k o).
Qed.

Lemma NoDup_keys_spread (V : Type) (b a : Obj V) :
  NoDup (Object_keys a) -> NoDup (Object_keys (spread a b)).
Proof.
  unfold spread. revert a. induction b as [| e b IH]; intros a N; simpl;
    [exact N|].
  apply IH. now apply NoDup_keys_set.
Qed.

Lemma obj_has_spread (V : Type) (k : string) (b a : Obj V) :
  obj_has k (spread a b) = obj_has k b || obj_has k a.
Proof.
  unfold spread. revert a. induction b as [| e b IH]; intros a; simpl;
    [reflexivity|].
  rewrite IH, obj_has_set, obj_has_cons.
  now destruct (String.eqb (fst e) k), (obj_has k b).
Qed.

Lemma obj_set_absent (V : Type) (k : string) (v : V) (o : Obj V) :
  obj_has k o = false -> obj_set k v o = (o ++ [(k, v)])%list.
Proof.
  unfold obj_has. induction o as [| [k' v'] o IH]; simpl; [reflexivity|].
  destruct (String.eqb k k'); [discriminate|]. intros H. now rewrite IH.
Qed.

Lemma obj_has_app (V : Type) (k : string) (a b : Obj V) :
  obj_has k (a ++ b)%list = obj_has k a || obj_has k b.
Proof.
  induction a as [| e a IH]; simpl; [reflexivity|].
  rewrite !obj_has_cons, IH. now rewrite orb_assoc.
Qed.

(** Storing the entries of a table with distinct keys one by one gives the
    table again. *)
Lemma fold_set_distinct (V W : Type) (g : string * V -> W) (l : Obj V) :
  forall o : Obj W,
    NoDup (Object_keys l) ->
    (forall e, In e l -> obj_has (fst e) o = false) ->
    fold_left (fun o e => obj_set (fst e) (g e) o) l o
    = (o ++ map (fun e => (fst e, g e)) l)%list.
Proof.
  induction l as [| e l IH]; intros o N D; simpl.
  - now rewrite app_nil_r.
  - inversion N as [| k ks Hk Nl]; subst.
    rewrite obj_set_absent by (apply D; now left).
    rewrite IH.
    + now rewrite <- app_assoc.
    + exact Nl.
    + intros e' He'. rewrite obj_has_app, (D e') by now right.
      simpl. unfold obj_has. simpl.
      destruct (String.eqb (fst e') (fst e)) eqn:E; [|reflexivity].
      apply String.eqb_eq in E. exfalso. apply Hk. rewrite <- E.
      unfold Object_keys. now apply in_map.
Qed.

Lemma styled_fold_table (l : TextStyleSet) (s : TaggedText) :
  _tagStyles (fold_left (fun s' e => styled (fst e) (snd e) s') l s)
  = fold_left (fun o e => obj_set (fst e) (storedStyle (fst e) (snd e)) o) l
      (_tagStyles s).
Proof.
  revert s. induction l as [| e l IH]; intros s; simpl; [reflexivity|].
  now rewrite IH, styled_table.
Qed.


Lemma mergedStyles_distinct (tagStyles : TextStyleSet) (o : TaggedTextOptions) :
  NoDup (Object_keys (mergedStyles I tagStyles o)).
Proof.
  unfold mergedStyles. cbv zeta. apply NoDup_keys_set.
  assert (N : NoDup (Object_keys (spread [("default", emptyStyle)] tagStyles))).
  { apply NoDup_keys_spread. repeat constructor. simpl. tauto. }
  destruct (truthy_bool (wrapEmoji o)); [now apply NoDup_keys_set | exact N].
Qed.

Lemma mergedStyles_has (tagStyles : TextStyleSet) (o : TaggedTextOptions)
    (k : string) :
  obj_has k (mergedStyles I tagStyles o)
  = String.eqb "default" k
    || (truthy_bool (wrapEmoji o) && String.eqb (EMOJI_TAG I) k)
    || obj_has k tagStyles.
Proof.
  unfold mergedStyles. cbv zeta. rewrite obj_has_set.
  assert (S : obj_has k (spread [("default", emptyStyle)] tagStyles)
              = obj_has k tagStyles || String.eqb "default" k).
  { rewrite obj_has_spread, obj_has_cons. cbn [fst].
    unfold obj_has at 2. cbn [obj_get]. now rewrite orb_false_r. }
  destruct (truthy_bool (wrapEmoji o)); cbn [andb].
  - rewrite obj_has_set, S.
    now destruct (String.eqb "default" k), (String.eqb (EMOJI_TAG I) k),
      (obj_has k tagStyles).
  - rewrite S.
    now destruct (String.eqb "default" k), (obj_has k tagStyles).
Qed.

Lemma obj_has_map (V W : Type) (g : string * V -> W) (k : string) (o : Obj V) :
  obj_has k (map (fun e => (fst e, g e)) o) = obj_has k o.
Proof.
  induction o as [| e o IH]; simpl; [reflexivity|].
  now rewrite !obj_has_cons, IH.
Qed.

(** The constructor, from the point where the options are merged. *)
Lemma constructor_unfold (text : string) (tagStyles : TextStyleSet)
    (options : TaggedTextOptions) :
  constructor I text tagStyles options
  = (setTagStyles I
       (mergedStyles I tagStyles (spreadOptions (DEFAULT_OPTIONS I) options))
       None ;;
     s <- get ;;
     match imgMap (_options s) with
     | Some m => createSpriteTemplatesFromSourceMap I m
     | None => ret tt
     end ;;
     setText I text None)
      (set_options (spreadOptions (DEFAULT_OPTIONS I) options)
         (set_scene
            (mkScene [] [] [] [] (Some []) (Some []) (Some []) (Some []) [])
            initial)).
Proof. reflexivity. Qed.

Lemma drawable_default (s : TaggedText) :
  obj_has "default" (_tagStyles s) = true -> drawable s = true.
Proof.
  unfold drawable, obj_has. intros H.
  destruct (obj_get "default" (_tagStyles s)); [apply orb_true_r | discriminate].
Qed.

(** From an instance with a default style, [setText] returns. *)
Lemma setText_returns (text : string) (skipUpdate : option bool) (s : TaggedText) :
  obj_has "default" (_tagStyles s) = true ->
  exists s',
    setText I text skipUpdate s = Returned tt s'
    /\ _text s' = text /\ _tagStyles s' = _tagStyles s /\ _options s' = _options s.
Proof.
  intros H. rewrite setText_unfold.
  destruct (String.eqb text (_text s) && negb (_needsUpdate s)) eqn:C.
  - exists s. apply andb_prop in C. destruct C as [C _].
    apply String.eqb_eq in C. now repeat split.
  - destruct (updateIfShould_returns I skipUpdate
                (set_needsUpdate true (set_text text s)))
      as (b & s' & R & In).
    { now apply drawable_default. }
    unfold bind, ret. rewrite R. exists s'.
    unfold inputs in In. injection In as Ht Hs Ho _. now repeat split.
Qed.

End Constructed.

(** X13. However the constructor ends, it leaves a style table that has a
    default style and a style for every tag it was given (the tag
    [__proto__], which names the prototype of the table and no property,
    left aside).  When the image map
    of the options it leaves has an entry no sprite can be made from, the
    constructor does not return: it throws.  When it returns, the instance
    has the text it was given. *)
Theorem constructor_outcome (I : Imports) (text : string)
    (tagStyles : TextStyleSet) (options : TaggedTextOptions) :
  let s' := final (constructor I text tagStyles options) in
  obj_has "default" (_tagStyles s') = true
  /\ (forall k, k <> "__proto__" -> obj_has k tagStyles = true ->
                obj_has k (_tagStyles s') = true)
  /\ (forall m e, imgMap (_options s') = Some m -> firstInvalid I m = Some e ->
                  returned (constructor I text tagStyles options) = false)
  /\ (returned (constructor I text tagStyles options) = true -> _text s' = text).
Proof.
  assert (Full :
    let merged := spreadOptions (DEFAULT_OPTIONS I) options in
    let images := match imgMap merged with Some m => m | None => [] end in
    let s' := final (constructor I text tagStyles options) in
    constructor I text tagStyles options
    = match firstInvalid I images with
      | Some e => Thrown e s'
      | None => Returned tt s'
      end
    /\ _options s' = merged
    /\ obj_has "default" (_tagStyles s') = true
    /\ (forall k, obj_has k tagStyles = true -> obj_has k (_tagStyles s') = true)
    /\ (firstInvalid I images = None -> _text s' = text)
    /\ (imgMap merged = None ->
        _tagStyles s'
        = map (fun e => (fst e, storedStyle (fst e) (snd e)))
            (mergedStyles I tagStyles merged))).
  {

  intros merged images s'. subst s'.
  remember (constructor I text tagStyles options) as o eqn:Eo.
  rewrite constructor_unfold in Eo. fold merged in Eo.
  set (s0 := set_options merged _) in Eo.
  set (ts := mergedStyles I tagStyles merged) in *.
  unfold bind at 1 in Eo. rewrite setTagStyles_unfold in Eo.
  set (s1 := set_needsUpdate true _) in Eo.
  assert (T1 : _tagStyles s1
               = map (fun e => (fst e, storedStyle (fst e) (snd e))) ts).
  { unfold s1. simpl. rewrite styled_fold_table. simpl.
    rewrite (fold_set_distinct _ _ (fun e => storedStyle (fst e) (snd e)) ts []).
    - reflexivity.
    - apply mergedStyles_distinct.
    - reflexivity. }
  assert (O1 : _options s1 = merged).
  { unfold s1. simpl. now rewrite (proj1 (proj2 (styled_fold_frame ts s0))). }
  assert (H1 : forall k, obj_has k (_tagStyles s1) = obj_has k ts).
  { intros k. rewrite T1. apply obj_has_map. }
  assert (Hd : obj_has "default" ts = true).
  { unfold ts. now rewrite mergedStyles_has. }
  assert (Hk : forall k, obj_has k tagStyles = true -> obj_has k ts = true).
  { intros k Hk. unfold ts. rewrite mergedStyles_has, Hk. apply orb_true_r. }
  destruct (updateIfShould_returns I None s1) as (b & s2 & R2 & In2).
  { apply drawable_default. now rewrite H1. }
  unfold inputs in In2. injection In2 as _ Hs2 Ho2 _.
  change (_tagStyles s2 = _tagStyles s1) in Hs2.
  change (_options s2 = _options s1) in Ho2.
  unfold bind at 1 in Eo. rewrite R2 in Eo. unfold ret at 1 in Eo.
  assert (O2 : _options s2 = merged) by (rewrite <- O1; exact Ho2).
  unfold bind at 1, get at 1 in Eo. rewrite O2 in Eo.
  unfold images. destruct (imgMap merged) as [m | ] eqn:Em.
  - unfold bind at 1 in Eo. rewrite createSpriteTemplatesFromSourceMap_unfold in Eo.
    destruct (spriteTemplates_loop I m (set_spriteTemplates [] s2))
      as (s3 & R3 & _ & Ts3 & _ & Op3).
    { simpl. rewrite Hs2. pose proof (H1 "default") as D. rewrite Hd in D.
      unfold obj_has in D.
      now destruct (obj_get "default" (_tagStyles s1)). }
    rewrite R3 in Eo. simpl in Ts3, Op3.
    destruct (firstInvalid I m) as [e | ] eqn:Fi.
    + subst o. simpl. split; [reflexivity|]. split; [congruence|].
      split; [rewrite Ts3, Hs2, H1, Hd; apply orb_true_r|].
      split; [intros k Hk'; rewrite Ts3, Hs2, H1, (Hk k Hk'); apply orb_true_r|].
      split; discriminate.
    + destruct (setText_returns I text None s3) as (s4 & R4 & Tx4 & Ts4 & Op4).
      { rewrite Ts3, Hs2, H1, Hd. apply orb_true_r. }
      rewrite R4 in Eo. subst o. simpl. split; [reflexivity|].
      split; [congruence|].
      split; [rewrite Ts4, Ts3, Hs2, H1, Hd; apply orb_true_r|].
      split; [intros k Hk'; rewrite Ts4, Ts3, Hs2, H1, (Hk k Hk');
              apply orb_true_r|].
      split; [intros _; exact Tx4 | discriminate].
  - unfold bind at 1, ret at 1 in Eo.
    destruct (setText_returns I text None s2) as (s4 & R4 & Tx4 & Ts4 & Op4).
    { now rewrite Hs2, H1. }
    rewrite R4 in Eo. subst o. simpl. split; [reflexivity|].
    split; [congruence|].
    split; [now rewrite Ts4, Hs2, H1|].
    split; [intros k Hk'; rewrite Ts4, Hs2, H1; now apply Hk|].
    split; [intros _; exact Tx4|]. intros _. now rewrite Ts4, Hs2.
}
  cbv zeta in Full. destruct Full as (E & O & D & K & T & _).
  cbv zeta. split; [exact D|]. split; [intros k _; apply K|]. split.
  - intros m e Em Fi. rewrite O in Em. rewrite E, Em, Fi. reflexivity.
  - intros R. apply T. rewrite E in R.
    now destruct (firstInvalid I
                    match imgMap (spreadOptions (DEFAULT_OPTIONS I) options) with
                    | Some m => m
                    | None => []
                    end).
Qed.


(** ** Scale factors that need no normalization *)

Section ScaleBounds.

Local Open Scope float_scope.

Lemma SFltb_trans (x y z : spec_float) :
  SFltb x y = true -> SFltb y z = true -> SFltb x z = true.
Proof.
  unfold SFltb.
  destruct x as [sx | sx | | sx mx ex], y as [sy | sy | | sy my ey],
    z as [sz | sz | | sz mz ez]; simpl;
    try discriminate; try reflexivity;
    try (destruct sx; simpl; try discriminate; try reflexivity;
         destruct sy; simpl; try discriminate; try reflexivity;
         destruct sz; simpl; try discriminate; reflexivity);
    try (destruct sx, sy; simpl; try discriminate; reflexivity);
    try (destruct sy, sz; simpl; try discriminate; reflexivity);
    try (destruct sx, sz; simpl; try discriminate; reflexivity).
  all: destruct sx, sy, sz; simpl; try discriminate; try reflexivity.
  all: change (Pos.compare_cont Eq mx my) with (Pos.compare mx my);
    change (Pos.compare_cont Eq my mz) with (Pos.compare my mz);
    change (Pos.compare_cont Eq mx mz) with (Pos.compare mx mz);
    destruct (Z.compare_spec ex ey), (Z.compare_spec ey ez),
      (Z.compare_spec ex ez); try discriminate; try reflexivity; try lia;
    destruct (Pos.compare_spec mx my), (Pos.compare_spec my mz),
      (Pos.compare_spec mx mz); simpl; try discriminate; try reflexivity;
    try lia.
Qed.

Lemma ltb_trans (a b c : float) :
  (a <? b) = true -> (b <? c) = true -> (a <? c) = true.
Proof. rewrite !ltb_spec. apply SFltb_trans. Qed.

Lemma is_zero_spec (a : float) :
  is_zero a = true -> exists sg, Prim2SF a = S754_zero sg.
Proof.
  unfold is_zero. rewrite eqb_spec. unfold SFeqb.
  change (Prim2SF zero) with (S754_zero false).
  destruct (Prim2SF a) as [sg | sg | | sg m e]; simpl; try discriminate; eauto.
  - destruct sg; discriminate.
  - destruct sg; discriminate.
Qed.

(** Comparing with a zero does not look at its sign. *)
Lemma ltb_zero (c a b : float) :
  is_zero a = true -> is_zero b = true -> (c <? a) = (c <? b).
Proof.
  intros Za Zb. destruct (is_zero_spec a Za) as [sa Ea].
  destruct (is_zero_spec b Zb) as [sb Eb].
  rewrite !ltb_spec, Ea, Eb. unfold SFltb.
  now destruct (Prim2SF c) as [sc | sc | | sc m e].
Qed.

(** A number not below [Math.max(w, h)] is below neither [w] nor [h]. *)
Lemma Math_max_bound (c w h : float) :
  is_nan w = false -> is_nan h = false ->
  (c <? JS.Math_max w h) = false -> (c <? w) = false /\ (c <? h) = false.
Proof.
  intros Nw Nh. unfold JS.Math_max. rewrite Nw, Nh. simpl.
  destruct (w <? h) eqn:L1.
  - intros H. split; [|exact H].
    destruct (c <? w) eqn:C; [|reflexivity].
    now rewrite (ltb_trans c w h C L1) in H.
  - destruct (h <? w) eqn:L2.
    + intros H. split; [exact H|].
      destruct (c <? h) eqn:C; [|reflexivity].
      now rewrite (ltb_trans c h w C L2) in H.
    + destruct (tie_eq w h Nw Nh L1 L2) as [E | [Zw Zh]].
      * subst h. now destruct (get_sign w).
      * destruct (get_sign w); intros H;
          rewrite (ltb_zero c w h Zw Zh) in *; auto.
Qed.



End ScaleBounds.

(** X14. When neither clamped scale factor exceeds 1 the text field is not
    normalized: it is the text [createTextField] makes from the transformed
    content and the style with [align] replaced, with nothing but its scale
    set, to the pair of clamped factors as they are; its font size is not
    multiplied.  Each of the two factors lies between 0 and 1. *)
Theorem scale_not_normalized (I : Imports) (token : TextSegmentToken)
    (s : TaggedText) :
  let w := scaleFactor (fontScaleWidth (style token)) in
  let h := scaleFactor (fontScaleHeight (style token)) in
  JS.gt (JS.Math_max w h) 1%float = false ->
  exists made tf,
    createTextField I (transformedText I token) (sanitizedStyle I token) s
    = Returned made s
    /\ createTextFieldForToken I token s = Returned tf s
    /\ tf = set_tf_scale (w, h) made
    /\ tf_scale tf = (w, h)
    /\ fontSize (tf_style tf) = fontSize (tf_style made)
    /\ (0 <=? w)%float = true /\ (w <=? 1)%float = true
    /\ (0 <=? h)%float = true /\ (h <=? 1)%float = true.
Proof.
  intros w h G. unfold JS.gt in G.
  assert (Nw : is_nan w = false) by apply clampScale_not_nan.
  assert (Nh : is_nan h = false) by apply clampScale_not_nan.
  destruct (Math_max_bound 1%float w h Nw Nh G) as [Bw Bh].
  assert (Pw : (0 <=? w)%float = true).
  { rewrite (leb_negb_ltb 0%float w eq_refl Nw).
    unfold w, scaleFactor. now rewrite clampScale_not_negative. }
  assert (Ph : (0 <=? h)%float = true).
  { rewrite (leb_negb_ltb 0%float h eq_refl Nh).
    unfold h, scaleFactor. now rewrite clampScale_not_negative. }
  assert (Lw : (w <=? 1)%float = true).
  { now rewrite (leb_negb_ltb w 1%float Nw eq_refl), Bw. }
  assert (Lh : (h <=? 1)%float = true).
  { now rewrite (leb_negb_ltb h 1%float Nh eq_refl), Bh. }
  unfold createTextFieldForToken, transformedText, sanitizedStyle.
  rewrite <- selected_text.
  unfold createTextField, bind, ret. cbv zeta.
  change (clampScale match fontScaleWidth (style token) with
                     | Some v => v
                     | None => 1%float
                     end) with w.
  change (clampScale match fontScaleHeight (style token) with
                     | Some v => v
                     | None => 1%float
                     end) with h.
  unfold JS.gt. rewrite G.
  eexists. eexists. split; [reflexivity|]. split; [reflexivity|].
  simpl. repeat split; assumption.
Qed.

Lemma scale_not_normalized_witness :
  JS.gt (JS.Math_max (scaleFactor (Some 0.5%float)) (scaleFactor None)) 1%float
  = false
  /\ exists tf,
       createTextFieldForToken Demo.imports
         (Demo.textToken "abc" (Demo.scaled (Some 0.5%float) None)) initial
       = Returned tf initial
       /\ tf_scale tf = (0.5%float, 1%float).
Proof.
  split; [reflexivity|].
  destruct (scale_not_normalized Demo.imports
              (Demo.textToken "abc" (Demo.scaled (Some 0.5%float) None))
              initial eq_refl) as (made & tf & _ & R & _ & S & _).
  exists tf. split; [exact R | exact S].
Defined.

(** ** The rectangle and the colour of a decoration *)

Section DecorationShape.

Lemma hex_digit_upper (c : ascii) : JS.hex_digit (JS.upper_char c) = JS.hex_digit c.
Proof. destruct c as [[] [] [] [] [] [] [] []]; reflexivity. Qed.

Lemma hex_digit_lower (c : ascii) : JS.hex_digit (JS.lower_char c) = JS.hex_digit c.
Proof. destruct c as [[] [] [] [] [] [] [] []]; reflexivity. Qed.

Lemma hex_prefix_case (digits : string) :
  JS.hex_prefix (JS.map_string JS.upper_char digits) = JS.hex_prefix digits
  /\ JS.hex_prefix (JS.map_string JS.lower_char digits) = JS.hex_prefix digits.
Proof.
  induction digits as [| c r [IHu IHl]]; simpl; [now split|].
  rewrite hex_digit_upper, hex_digit_lower, IHu, IHl. now split.
Qed.

(** Behind [0x] the digits are read at once: no white space and no sign is
    skipped there. *)
Lemma parseInt16_0x (digits : string) :
  JS.parseInt16 ("0x" ++ digits) = hexColor digits.
Proof. reflexivity. Qed.

End DecorationShape.

(** X15. A decoration colour given as a string that starts with [#] is read
    as hexadecimal without any check: the number handed to the fill is the
    value of the longest run of hexadecimal digits after the [#], whatever
    follows, and NaN when the character after the [#] is not such a digit.
    When the drawing is made it has that number as its fill colour and the
    instance is left as it was; no warning is logged in any case.  Writing
    the digits a to f in capitals or not makes no difference. *)
Theorem decoration_hex_color (d : TextDecorationMetrics) (s s' : TaggedText)
    (digits : string) (g : Graphics) :
  td_color d = ColorString (String "#" digits) ->
  createDrawingForTextDecoration d s = Returned g s' ->
  s' = s
  /\ fillColor g = ColorNumber (hexColor digits)
  /\ warnings (final (createDrawingForTextDecoration d s)) = warnings s
  /\ hexColor (JS.map_string JS.upper_char digits) = hexColor digits
  /\ hexColor (JS.map_string JS.lower_char digits) = hexColor digits
  /\ (match digits with
      | EmptyString => True
      | String c _ => JS.hex_digit c = None
      end -> hexColor digits = nan).
Proof.
  intros C R.
  assert (R0 : createDrawingForTextDecoration d s
               = Returned
                   (mkGraphics (ColorNumber (hexColor digits))
                      (rect g)) s).
  { revert R.
    unfold createDrawingForTextDecoration, bind, get, ret. rewrite C.
    cbn [JS.indexOf_is_0 JS.substring_1]. rewrite Ascii.eqb_refl.
    rewrite parseInt16_0x. intros R. injection R as <- <-. reflexivity. }
  rewrite R0 in R |- *. injection R as <- <-.
  split; [reflexivity|]. split; [reflexivity|]. split; [reflexivity|].
  split; [|split].
  - unfold hexColor. now rewrite (proj1 (hex_prefix_case digits)).
  - unfold hexColor. now rewrite (proj2 (hex_prefix_case digits)).
  - unfold hexColor. destruct digits as [| c r]; [reflexivity|].
    simpl. now intros ->.
Qed.

Lemma decoration_hex_color_witness :
  td_color (Demo.decoration (ColorString Demo.green))
  = ColorString (String "#" "66ff33;")
  /\ exists g,
       createDrawingForTextDecoration (Demo.decoration (ColorString Demo.green))
         Demo.fresh
       = Returned g Demo.fresh
       /\ fillColor g = ColorNumber 6750003%float.
Proof.
  split; [reflexivity|].
  eexists. split; [reflexivity|].
  rewrite (proj1 (proj2 (decoration_hex_color
                           (Demo.decoration (ColorString Demo.green))
                           Demo.fresh _ "66ff33;" _ eq_refl eq_refl))).
  vm_compute. reflexivity.
Defined.



(** ** Drawing again *)

Section Redraw.

Variable I : Imports.

Lemma drawnFor_unique (s s' : TaggedText) (g g' : Graphics)
    (d : TextDecorationMetrics) :
  _options s' = _options s -> drawnFor s g d -> drawnFor s' g' d -> g = g'.
Proof.
  intros O [s1 R] [s1' R'].
  destruct (createDrawingForTextDecoration_run d s s' O)
    as (g0 & s2 & R0 & [s3 R3] & _).
  congruence.
Qed.

(** The text field of a token is determined by the token and the options. *)
Lemma shows_unique (s s' : TaggedText) (f f' : TextField) (t : TextSegmentToken) :
  _options s' = _options s -> shows I s f t -> shows I s' f' t -> f = f'.
Proof.
  intros O ((tf & R & E) & P & C) ((tf' & R' & E') & P' & C').
  destruct (createTextFieldForToken_pure I t) as (tf0 & R0 & _).
  rewrite R0 in R, R'. injection R as <-. injection R' as <-.
  assert (Ch : tf_children f = tf_children f').
  { revert C C'. generalize (tf_children f) (tf_children f') (decorationsOf t).
    intros l. induction l as [| g l IH]; intros l' ds C C'.
    - inversion C; subst. now inversion C'.
    - inversion C as [| g1 d l1 ds1 Hg Hl]; subst.
      inversion C' as [| g2 d2 l2 ds2 Hg' Hl']; subst.
      f_equal; [exact (drawnFor_unique s s' g g2 d O Hg Hg') | now apply (IH l2 ds1)]. }
  destruct f, f'. simpl in *. congruence.
Qed.

Lemma built_unique (s0 s0' : TaggedText) (done : list SegmentToken)
    (s s' : TaggedText) :
  _options s0' = _options s0 ->
  built I s0 done s -> built I s0' done s' ->
  _textFields (scene s') = _textFields (scene s)
  /\ _sprites (scene s') = _sprites (scene s)
  /\ _decorations (scene s') = _decorations (scene s)
  /\ _textContainer (scene s') = _textContainer (scene s)
  /\ _spriteContainer (scene s') = _spriteContainer (scene s).
Proof.
  intros O (Ff & Sp & De & Tc & Sc & _) (Ff' & Sp' & De' & Tc' & Sc' & _).
  assert (F : _textFields (scene s') = _textFields (scene s)).
  { revert Ff Ff'.
    generalize (_textFields (scene s)) (_textFields (scene s')) (textTokens done).
    intros l. induction l as [| f l IH]; intros l' ts Ff Ff'.
    - inversion Ff; subst. now inversion Ff'.
    - inversion Ff as [| f1 t l1 ts1 Hf Hl]; subst.
      inversion Ff' as [| f2 t2 l2 ts2 Hf' Hl']; subst.
      f_equal; [symmetry; exact (shows_unique s0 s0' f f2 t O Hf Hf')
               | now apply (IH l2 ts1)]. }
  rewrite De, De', Tc, Tc', F. repeat split; congruence.
Qed.

Lemma renderedTokens_kept (s s' : TaggedText) :
  _tokens s' = _tokens s -> _options s' = _options s ->
  renderedTokens I s' = renderedTokens I s.
Proof. unfold renderedTokens, tokensFlat. now intros -> ->. Qed.

Lemma or_else_twice (A : Type) (a b : option A) :
  or_else a (or_else a b) = or_else a b.
Proof. now destruct a. Qed.

End Redraw.

(** X17. The display objects a draw pass builds depend on the tokens and the
    options only: two instances with the same tokens and the same options
    end with the same text fields, sprites, decorations and container
    children, whatever their text, style tables and scenes were.  Hence
    drawing twice in a row builds the same display objects the second time
    as the first, with every sprite at the same position: nothing left from
    an earlier pass shows, and nothing piles up. *)
Theorem draw_again (I : Imports) (s : TaggedText) :
  (forall s',
      _tokens s' = _tokens s -> _options s' = _options s ->
      _textFields (scene (final (draw I s'))) = _textFields (scene (final (draw I s)))
      /\ _sprites (scene (final (draw I s'))) = _sprites (scene (final (draw I s)))
      /\ _decorations (scene (final (draw I s')))
         = _decorations (scene (final (draw I s)))
      /\ _textContainer (scene (final (draw I s')))
         = _textContainer (scene (final (draw I s)))
      /\ _spriteContainer (scene (final (draw I s')))
         = _spriteContainer (scene (final (draw I s))))
  /\ sameObjects (final (draw I s)) (final (draw I (final (draw I s)))).
Proof.
  assert (G : forall s',
             _tokens s' = _tokens s -> _options s' = _options s ->
             _textFields (scene (final (draw I s')))
             = _textFields (scene (final (draw I s)))
             /\ _sprites (scene (final (draw I s')))
                = _sprites (scene (final (draw I s)))
             /\ _decorations (scene (final (draw I s')))
                = _decorations (scene (final (draw I s)))
             /\ _textContainer (scene (final (draw I s')))
                = _textContainer (scene (final (draw I s)))
             /\ _spriteContainer (scene (final (draw I s')))
                = _spriteContainer (scene (final (draw I s)))).
  { intros s' T O. pose proof (draw_built I s) as B.
    pose proof (draw_built I s') as B'.
    rewrite (renderedTokens_kept I s s' T O) in B'.
    exact (built_unique I s s' _ _ _ O B B'). }
  split; [exact G|].
  destruct (draw_spec I s) as (K & _). unfold kept in K.
  injection K as Ho _ Hk _ _ _ _.
  destruct (G (final (draw I s)) Hk Ho) as (A1 & A2 & A3 & A4 & A5).
  unfold sameObjects. repeat split; try assumption.
  intros sp.
  destruct (draw_built I (final (draw I s))) as (_ & _ & _ & _ & _ & Xy' & _).
  destruct (draw_built I s) as (_ & _ & _ & _ & _ & Xy & _).
  rewrite Xy', (renderedTokens_kept I s _ Hk Ho), Xy.
  apply or_else_twice.
Qed.

(** ** Putting the update off *)

(** X18. A setter whose update is skipped ([skipUpdate] is [true], or left
    out while the option [skipUpdates] is not [false]) returns at once and
    puts the work off: [needsUpdate] is set, and the tokens, the display
    objects and the recorded passes are as they were, so the tokens are
    stale until [update] is called.  This holds for [setStyleForTag],
    [setTagStyles], [removeStylesForTag] on a tag of the table and
    [setText] with a text or a flag that makes it act. *)
Theorem skipped_setters_defer (I : Imports) (skipUpdate : option bool)
    (s : TaggedText) :
  shouldUpdate skipUpdate s = false ->
  (forall tag styles,
     exists s', setStyleForTag I tag styles skipUpdate s = Returned true s'
                /\ deferred s s')
  /\ (forall styles,
        exists s', setTagStyles I styles skipUpdate s = Returned tt s'
                   /\ deferred s s')
  /\ (forall tag,
        obj_has tag (_tagStyles s) = true ->
        exists s', removeStylesForTag I tag skipUpdate s = Returned true s'
                   /\ deferred s s')
  /\ (forall text,
        String.eqb text (_text s) && negb (_needsUpdate s) = false ->
        exists s', setText I text skipUpdate s = Returned tt s'
                   /\ deferred s s' /\ _text s' = text).
Proof.
  intros Sh.
  assert (U : forall s1, _options s1 = _options s ->
                updateIfShould I skipUpdate s1 = Returned false s1).
  { intros s1 O. pose proof (updateIfShould_spec I skipUpdate s1) as (_ & _ & H).
    unfold shouldUpdate in *. rewrite O, Sh in H. exact H. }
  split; [|split; [|split]].
  - intros tag styles. rewrite setStyleForTag_unfold. unfold bind, ret.
    rewrite U.
    + eexists. split; [reflexivity|]. unfold deferred, styled.
      destruct (String.eqb tag DEFAULT_KEY && truthy_string (imgSrc styles));
        simpl; repeat split.
    + unfold styled.
      now destruct (String.eqb tag DEFAULT_KEY && truthy_string (imgSrc styles)).
  - intros styles. rewrite setTagStyles_unfold. unfold bind, ret.
    destruct (styled_fold_frame styles s) as (P & O & _).
    rewrite U by exact O.
    eexists. split; [reflexivity|]. unfold deferred. simpl.
    split; [reflexivity|]. rewrite P, O.
    assert (F : forall l s0,
               _tokens (fold_left (fun s' e => styled (fst e) (snd e) s') l s0)
               = _tokens s0
               /\ scene (fold_left (fun s' e => styled (fst e) (snd e) s') l s0)
                  = scene s0).
    { induction l as [| e l IH]; intros s0; simpl; [now split|].
      destruct (IH (styled (fst e) (snd e) s0)) as [-> ->]. unfold styled.
      now destruct (String.eqb (fst e) DEFAULT_KEY
                    && truthy_string (imgSrc (snd e))). }
    destruct (F styles s) as [-> ->]. repeat split.
  - intros tag H. rewrite removeStylesForTag_unfold, (obj_in_own _ tag _ H).
    unfold bind, ret. rewrite U by reflexivity.
    eexists. split; [reflexivity|]. unfold deferred. simpl. repeat split.
  - intros text C. rewrite setText_unfold, C. unfold bind, ret.
    rewrite U by reflexivity.
    eexists. split; [reflexivity|]. unfold deferred. simpl. repeat split.
Qed.

Lemma skipped_setters_defer_witness :
  shouldUpdate (Some true) Demo.fresh = false
  /\ exists s',
       setStyleForTag Demo.imports "b" (Demo.transformed "uppercase") (Some true)
         Demo.fresh
       = Returned true s'
       /\ deferred Demo.fresh s'.
Proof.
  split; [reflexivity|].
  apply (proj1 (skipped_setters_defer Demo.imports (Some true) Demo.fresh eq_refl)).
Defined.


(** ** After [destroy] *)

(** X19. [destroy] on a live instance destroys the sprite container first,
    with [false] so that the sprites of the image map are kept, and then the
    instance itself with the given options laid over
    [{ children: true, texture: true }].  It leaves no tokens, styles,
    templates, text fields, sprites or decorations, and the options [{}].
    After it [destroyImgMap] throws, so the image map has to be destroyed
    first.  A destroyed instance updates only on demand: [setText] with the
    default [skipUpdate] returns without running a pass, and [update()]
    returns without drawing. *)
Theorem after_destroy (I : Imports) (options : DestroyArgument) (st : Stage) :
  destroyed st = false ->
  _spriteContainer (scene (self st)) <> None ->
  exists st',
    destroy options st = inr st'
    /\ destroyed st' = true
    /\ pixiCalls st'
       = super_destroy
           (spreadDestroy DEFAULT_DESTROY_OPTIONS
              match options with
              | DestroyBoolean b => mkDestroyOptions (Some b) None []
              | DestroyObject o => o
              | DestroyNothing => mkDestroyOptions None None []
              end)
         :: SpriteContainer_destroy (DestroyBoolean false) :: pixiCalls st
    /\ (_tokens (self st'), _tagStyles (self st'), _spriteTemplates (self st'),
        _options (self st'))
       = ([], [], [], emptyOptions)
    /\ (_textFields (scene (self st')), _sprites (scene (self st')),
        _decorations (scene (self st')))
       = ([], [], [])
    /\ (exists e, destroyImgMap st' = inl e)
    /\ (forall text,
          exists s',
            setText I text None (self st') = Returned tt s'
            /\ passes s' = passes (self st') /\ scene s' = scene (self st'))
    /\ (exists s',
          update I None (self st') = Returned (computedTokens I (self st')) s'
          /\ passes s' = UpdatePass :: passes (self st')
          /\ scene s' = scene (self st')).
Proof.
  intros Live C. unfold destroy.
  destruct (_spriteContainer (scene (self st))) as [l | ]; [|congruence].
  cbv zeta. eexists. split; [reflexivity|]. cbn [self destroyed pixiCalls].
  split; [reflexivity|]. split; [reflexivity|].
  split; [reflexivity|]. split; [reflexivity|].
  split; [unfold destroyImgMap; simpl; eauto|]. split.
  - intros text. rewrite setText_unfold.
    destruct (String.eqb text _ && negb _); [eauto|].
    eexists. split; [reflexivity|]. split; reflexivity.
  - rewrite update_cases.
    unfold bind, get, when, console_log, modify, ret. simpl.
    eexists. split; [reflexivity|]. split; reflexivity.
Qed.

Lemma after_destroy_witness :
  destroyed (mkStage Demo.fresh false []) = false
  /\ _spriteContainer (scene (self (mkStage Demo.fresh false []))) <> None
  /\ exists st',
       destroy (DestroyBoolean false) (mkStage Demo.fresh false []) = inr st'
       /\ destroyed st' = true
       /\ exists e, destroyImgMap st' = inl e.
Proof.
  split; [reflexivity|].
  assert (C : _spriteContainer (scene (self (mkStage Demo.fresh false []))) <> None).
  { vm_compute. discriminate. }
  split; [exact C|].
  destruct (after_destroy Demo.imports (DestroyBoolean false)
              (mkStage Demo.fresh false []) eq_refl C)
    as (st' & R & D & _ & _ & _ & E & _).
  exists st'. split; [exact R|]. split; [exact D | exact E].
Defined.


(** ** The flags tell the truth *)

Section FlagsTruthful.

Variable I : Imports.



















(** The body of the loop of [createSpriteTemplatesFromSourceMap]. *)
Let registerSprite (e : string * SpriteSource) (_ : unit) : M unit :=
  let key := fst e in
  match spriteForSource I key (snd e) with
  | inl error => throw error
  | inr sprite =>
      modify (fun s =>
        set_spriteTemplates (obj_set key sprite (_spriteTemplates s)) s) ;;
      s <- get ;;
      let existingStyle :=
        match getStyleForTag I key [] s with
        | Some st => st
        | None => emptyStyle
        end in
      let style :=
        spreadStyle (set_imgSrc (Some key) emptyStyle) existingStyle in
      setStyleForTag I key style None ;;
      ret tt
  end.






End FlagsTruthful.




(** ** The console *)

Lemma toDebugString_kept (I : Imports) (a b : TaggedText) :
  _text a = _text b -> _tokens a = _tokens b ->
  toDebugString I a = toDebugString I b.
Proof. unfold toDebugString, untaggedText. now intros -> ->. Qed.

(** X21. With the option [debugConsole] set, an update pass that returns
    logs one line to the console, the debug listing of the text with the
    token tree it has just computed; with the option off, or when the pass
    throws, it logs nothing.  A draw pass never logs to the console. *)
Theorem update_console (I : Imports) (forcedSkipDraw : option bool)
    (s : TaggedText) :
  match update I forcedSkipDraw s with
  | Returned _ s' =>
      console s'
      = ((if truthy_bool (debugConsole (_options s))
          then [toDebugString I (set_tokens (computedTokens I s) s)]
          else [])
         ++ console s)%list
  | Thrown _ s' => console s' = console s
  end
  /\ console (final (draw I s)) = console s.
Proof.
  split.
  - rewrite update_cases.
    destruct (shouldDraw forcedSkipDraw s).
    + destruct (draw_spec I (updated I s)) as (K & _). unfold kept in K.
      injection K as Ho _ Hk Ht _ _ Hc. unfold bind at 1.
      destruct (draw I (updated I s)) as [[] s1 | e s1]; simpl in *;
        [|exact Hc].
      unfold bind, get, when, console_log, modify, ret. rewrite Ho.
      destruct (truthy_bool (debugConsole (_options s))); simpl; [|exact Hc].
      rewrite Hc. f_equal; apply toDebugString_kept; simpl; assumption.
    + unfold bind, get, when, console_log, modify, ret. simpl.
      destruct (truthy_bool (debugConsole (_options s))); simpl; [|reflexivity].
      f_equal; now apply toDebugString_kept.
  - destruct (draw_spec I s) as (K & _). unfold kept in K.
    now injection K.
Qed.
